(** * Endorsement of the cr50 security chip: a model of
      board/cr50/tpm2/endorsement.c

    The C file drives a hardware key ladder, the flash controller and the
    TPM2 library.  The model keeps the control flow of every C function and
    records each access to the outside world (register reads and writes,
    flash-information reads, HMAC and X.509 calls, NV operations) as an
    event of a trace, so that statements about "what happens before the
    function returns" become statements about that trace.

    Integers are [Z]; a [uint32_t] or [size_t] computation is wrapped with
    [wrap32] where the C code computes it (the target is the 32-bit cr50
    SoC, where [size_t] and pointers are 32 bits wide).  Byte buffers are
    [list Z]. *)

From Stdlib Require Import ZArith List Bool Lia.
Import ListNotations.
Local Open Scope Z_scope.

(** ** Machine integers and byte buffers *)

Definition wrap32 (x : Z) : Z := x mod 2 ^ 32.
Definition wrap8 (x : Z) : Z := x mod 2 ^ 8.

(** The half-open range [0, n) of indices, as the C loops enumerate it. *)
Definition upto (n : Z) : list Z := map Z.of_nat (seq 0 (Z.to_nat n)).

(** The four bytes of a 32-bit word in memory order (little endian). *)
Definition le_bytes (word : Z) : list Z :=
  [ wrap8 word; wrap8 (Z.shiftr word 8);
    wrap8 (Z.shiftr word 16); wrap8 (Z.shiftr word 24) ].

(** [memcpy (buf + i, src, length src)] *)
Definition memcpy_at (buf : list Z) (i : Z) (src : list Z) : list Z :=
  firstn (Z.to_nat i) buf ++ src
    ++ skipn (Z.to_nat i + length src) buf.

(** [memset (buf, 0, sizeof buf)] *)
Definition memset0 (buf : list Z) : list Z := map (fun _ => 0) buf.

Fixpoint bytes_eqb (a b : list Z) : bool :=
  match a, b with
  | [], [] => true
  | x :: a', y :: b' => (x =? y) && bytes_eqb a' b'
  | _, _ => false
  end.

(** [memcmp (a, b, n)] on two [n]-byte buffers.  The callers only test the
    result against zero, so a mismatch is reported as 1. *)
Definition memcmp (a b : list Z) : Z := if bytes_eqb a b then 0 else 1.

(** [eps[i] ^= frk2[i]] for every index of the two buffers. *)
Fixpoint xor_bytes (a b : list Z) : list Z :=
  match a, b with
  | x :: a', y :: b' => Z.lxor x y :: xor_bytes a' b'
  | _, _ => []
  end.

(** ** The flash address space *)

(** Flash is byte addressed; [load8] normalises whatever the content
    function holds to a byte, so every function is a valid flash image. *)
Definition memory := Z -> Z.

Definition load8 (m : memory) (addr : Z) : Z := wrap8 (m (wrap32 addr)).

Definition load32 (m : memory) (addr : Z) : Z :=
  load8 m addr + 2 ^ 8 * load8 m (addr + 1)
  + 2 ^ 16 * load8 m (addr + 2) + 2 ^ 24 * load8 m (addr + 3).

Definition load_bytes (m : memory) (addr n : Z) : list Z :=
  map (fun i => load8 m (addr + i)) (upto n).

(** ** Constants of the C file *)

Definition EK_CERT_NV_START_INDEX : Z := 0x01C00000.
Definition AES256_BLOCK_CIPHER_KEY_SIZE : Z := 32.
(** [BUILD_ASSERT(AES256_BLOCK_CIPHER_KEY_SIZE == PRIMARY_SEED_SIZE)] *)
Definition PRIMARY_SEED_SIZE : Z := 32.
Definition INFO1_EPS_SIZE : Z := PRIMARY_SEED_SIZE.
Definition RO_CERTS_START_ADDR : Z := 0x43800.
Definition RO_CERTS_REGION_SIZE : Z := 0x0800.

Definition CROS_PERSO_COMPONENT_TYPE_EPS : Z := 128.
Definition CROS_PERSO_COMPONENT_TYPE_RSA_CERT : Z := 129.
Definition CROS_PERSO_COMPONENT_TYPE_P256_CERT : Z := 130.

Definition KEYMGR_CERT_0 : Z := 0.
Definition KEYMGR_CERT_3 : Z := 3.
Definition KEYMGR_CERT_4 : Z := 4.
Definition KEYMGR_CERT_5 : Z := 5.
Definition KEYMGR_CERT_7 : Z := 7.
Definition KEYMGR_CERT_15 : Z := 15.
Definition KEYMGR_CERT_20 : Z := 20.
Definition KEYMGR_CERT_25 : Z := 25.
Definition KEYMGR_CERT_26 : Z := 26.

Definition K_CROS_FW_MAJOR_VERSION : Z := 0.
Definition k_cr50_max_fw_major_version : Z := 254.

(** The TPM library reports success as zero. *)
Definition TPM_RC_SUCCESS : Z := 0.

(** [sizeof (struct ro_cert)]: an 8-byte component info followed by the
    8-byte certificate response header, both packed. *)
Definition sizeof_ro_cert : Z := 16.

(** Register and flash-layout constants that the chip headers define and
    the C file only names; the model is parametric in them.  All of them
    are non-negative 32-bit values on the chip. *)
Record chip_config := {
  GC_KEYMGR_SHA_USE_CERT_INDEX_LSB : Z;
  GC_KEYMGR_SHA_USE_CERT_ENABLE_MASK : Z;
  GC_KEYMGR_SHA_CFG_EN_INT_EN_DONE_MASK : Z;
  GC_KEYMGR_SHA_TRIG_TRIG_GO_MASK : Z;
  GC_KEYMGR_SHA_TRIG_TRIG_RESET_MASK : Z;
  FLASH_INFO_MEMORY_BASE : Z;
  FLASH_INFO_MANUFACTURE_STATE_OFFSET : Z;
  FLASH_INFO_MANUFACTURE_STATE_SIZE : Z;
  GC_GLOBALSEC_FLASH_REGION6_CTRL_EN_MASK : Z;
  GC_GLOBALSEC_FLASH_REGION6_CTRL_RD_EN_MASK : Z;
  GC_GLOBALSEC_FLASH_REGION7_CTRL_EN_MASK : Z;
  GC_GLOBALSEC_FLASH_REGION7_CTRL_RD_EN_MASK : Z;
  MAX_NV_BUFFER_SIZE : Z
}.

Definition INFO1_EPS_OFFSET (cfg : chip_config) : Z :=
  FLASH_INFO_MANUFACTURE_STATE_OFFSET cfg.

(** ** Data structures *)

Record cros_perso_response_component_info_v0 := {
  component_size : Z;
  component_type : Z;
  reserved : list Z
}.

(** [cert] is the flexible array member: the bytes that follow the header,
    by index. *)
Record cros_perso_certificate_response_v0 := {
  key_id : list Z;
  cert_len : Z;
  cert : Z -> Z
}.

(** [struct ro_cert], as laid out in the certificate region. *)
Record ro_cert := {
  cert_info : cros_perso_response_component_info_v0;
  cert_response : cros_perso_certificate_response_v0
}.

(** The first [n] bytes behind a pointer. *)
Definition bytes_at (p : Z -> Z) (n : Z) : list Z := map p (upto n).

(** A constant array seen through a pointer. *)
Definition array_ptr (a : list Z) : Z -> Z :=
  fun i => nth (Z.to_nat i) a 0.

(** Reading a packed [struct ro_cert] at a flash address. *)
Definition ro_cert_at (m : memory) (addr : Z) : ro_cert :=
  {| cert_info :=
       {| component_size := load8 m addr + 2 ^ 8 * load8 m (addr + 1);
          component_type := load8 m (addr + 2);
          reserved := load_bytes m (addr + 3) 5 |};
     cert_response :=
       {| key_id := load_bytes m (addr + 8) 4;
          cert_len := load32 m (addr + 12);
          cert := fun i => load8 m (addr + 16 + i) |} |}.

(** [struct RSA]: public exponent, modulus words, private exponent. *)
Record RSA := { rsa_e : Z; rsa_N : list Z; rsa_d : list Z }.

Definition RSA_F4 : Z := 65537.

(** ** Embedded constants

    The fixed seed and certificates of the developer fallback, and the two
    endorsement CA roots. *)
Definition FIXED_ENDORSEMENT_SEED : list Z :=
  [
    0x1c; 0xb0; 0xde; 0x0e; 0x96; 0xe5; 0x58; 0xb0;
    0xad; 0x1d; 0x3a; 0x08; 0x22; 0x41; 0x7f; 0x45;
    0x37; 0xe7; 0x17; 0x42; 0x5d; 0x87; 0xc4; 0x77;
    0xf2; 0x97; 0xf8; 0xdd; 0xb9; 0xa0; 0xe5; 0x3a
  ].

Definition FIXED_RSA_ENDORSEMENT_CERT : list Z :=
  [
    0x30; 0x82; 0x03; 0xeb; 0x30; 0x82; 0x02; 0xd3; 0xa0; 0x03; 0x02; 0x01;
    0x02; 0x02; 0x10; 0x57; 0xd7; 0x5a; 0xbc; 0x74; 0xa8; 0x2e; 0x11; 0x9c;
    0x73; 0x70; 0x2d; 0x3e; 0x15; 0xdf; 0x4e; 0x30; 0x0d; 0x06; 0x09; 0x2a;
    0x86; 0x48; 0x86; 0xf7; 0x0d; 0x01; 0x01; 0x0b; 0x05; 0x00; 0x30; 0x81;
    0x80; 0x31; 0x0b; 0x30; 0x09; 0x06; 0x03; 0x55; 0x04; 0x06; 0x13; 0x02;
    0x55; 0x53; 0x31; 0x13; 0x30; 0x11; 0x06; 0x03; 0x55; 0x04; 0x08; 0x0c;
    0x0a; 0x43; 0x61; 0x6c; 0x69; 0x66; 0x6f; 0x72; 0x6e; 0x69; 0x61; 0x31;
    0x14; 0x30; 0x12; 0x06; 0x03; 0x55; 0x04; 0x0a; 0x0c; 0x0b; 0x47; 0x6f;
    0x6f; 0x67; 0x6c; 0x65; 0x20; 0x49; 0x6e; 0x63; 0x2e; 0x31; 0x24; 0x30;
    0x22; 0x06; 0x03; 0x55; 0x04; 0x0b; 0x0c; 0x1b; 0x45; 0x6e; 0x67; 0x69;
    0x6e; 0x65; 0x65; 0x72; 0x69; 0x6e; 0x67; 0x20; 0x61; 0x6e; 0x64; 0x20;
    0x44; 0x65; 0x76; 0x65; 0x6c; 0x6f; 0x70; 0x6d; 0x65; 0x6e; 0x74; 0x31;
    0x20; 0x30; 0x1e; 0x06; 0x03; 0x55; 0x04; 0x03; 0x0c; 0x17; 0x43; 0x52;
    0x4f; 0x53; 0x20; 0x54; 0x50; 0x4d; 0x20; 0x44; 0x45; 0x56; 0x20; 0x45;
    0x4b; 0x20; 0x52; 0x4f; 0x4f; 0x54; 0x20; 0x43; 0x41; 0x30; 0x1e; 0x17;
    0x0d; 0x31; 0x36; 0x31; 0x30; 0x32; 0x30; 0x30; 0x30; 0x34; 0x39; 0x33;
    0x36; 0x5a; 0x17; 0x0d; 0x32; 0x36; 0x31; 0x30; 0x31; 0x38; 0x30; 0x30;
    0x34; 0x39; 0x33; 0x36; 0x5a; 0x30; 0x00; 0x30; 0x82; 0x01; 0x22; 0x30;
    0x0d; 0x06; 0x09; 0x2a; 0x86; 0x48; 0x86; 0xf7; 0x0d; 0x01; 0x01; 0x01;
    0x05; 0x00; 0x03; 0x82; 0x01; 0x0f; 0x00; 0x30; 0x82; 0x01; 0x0a; 0x02;
    0x82; 0x01; 0x01; 0x00; 0xae; 0x3f; 0x7e; 0x66; 0x78; 0x26; 0x7a; 0x38;
    0x93; 0xaf; 0x9c; 0xe4; 0x2c; 0x3c; 0x9e; 0x11; 0xb7; 0xae; 0x2f; 0x71;
    0x8d; 0x4f; 0x2e; 0x3f; 0xd2; 0x35; 0x18; 0xb0; 0x27; 0x04; 0x4e; 0x04;
    0x66; 0xb2; 0x16; 0xd4; 0xa8; 0xfc; 0x51; 0x60; 0x1b; 0x05; 0x1c; 0x02;
    0xb5; 0x77; 0x1b; 0xf6; 0x40; 0xc4; 0x0e; 0x01; 0xbf; 0x70; 0xc1; 0x68;
    0x53; 0x8b; 0x20; 0x4c; 0xa3; 0x39; 0x09; 0xd4; 0x4e; 0x28; 0x7c; 0x1d;
    0xda; 0x57; 0x5c; 0x41; 0xae; 0x9b; 0xf3; 0xd5; 0xd3; 0x46; 0x12; 0x3d;
    0x43; 0xcc; 0x39; 0x29; 0x79; 0x9d; 0xe5; 0x87; 0x84; 0x22; 0x85; 0x4b;
    0x49; 0x35; 0x16; 0x4f; 0x3b; 0xdd; 0xd8; 0xaf; 0xe3; 0x99; 0xfa; 0x37;
    0xaf; 0xbd; 0xa9; 0x38; 0xb4; 0x47; 0x58; 0x1e; 0x71; 0xb2; 0x46; 0xf2;
    0x14; 0x85; 0x43; 0x12; 0x55; 0x8b; 0xc3; 0x5b; 0x78; 0x86; 0xd0; 0x0b;
    0x08; 0x87; 0x1d; 0xf7; 0x4c; 0x69; 0x47; 0x91; 0xd1; 0x16; 0x5c; 0x0e;
    0xf7; 0x0d; 0xad; 0x4a; 0x2d; 0xd8; 0x74; 0xe2; 0x89; 0xe1; 0xaf; 0xd7;
    0x54; 0xb6; 0xe0; 0x36; 0x76; 0x7b; 0xd4; 0x6d; 0x50; 0x64; 0x13; 0x5b;
    0x86; 0xa8; 0xa7; 0xee; 0xed; 0xf9; 0x50; 0x4d; 0xac; 0x1d; 0x1f; 0x9c;
    0x1b; 0x58; 0x19; 0xa5; 0x20; 0x19; 0x75; 0xb7; 0xcf; 0xf6; 0x37; 0x59;
    0x2a; 0xc7; 0x5b; 0x14; 0x51; 0xe6; 0x64; 0x70; 0xcc; 0x0e; 0x90; 0x9f;
    0xe8; 0xf3; 0xc5; 0x95; 0x41; 0x74; 0x24; 0xb4; 0x6d; 0x37; 0x4a; 0x90;
    0x17; 0x0e; 0x11; 0xea; 0xde; 0x74; 0x0e; 0x05; 0x4d; 0x1f; 0x9c; 0x11;
    0xea; 0x06; 0xbd; 0x90; 0x9a; 0x9f; 0x44; 0x55; 0x0f; 0x93; 0x82; 0x96;
    0xfc; 0x29; 0xb7; 0x26; 0x5e; 0x01; 0x25; 0x55; 0x4b; 0x80; 0xda; 0xd6;
    0x2d; 0xe0; 0xd9; 0x65; 0xcf; 0xcb; 0x7a; 0x2b; 0x02; 0x03; 0x01; 0x00;
    0x01; 0xa3; 0x81; 0xdf; 0x30; 0x81; 0xdc; 0x30; 0x0e; 0x06; 0x03; 0x55;
    0x1d; 0x0f; 0x01; 0x01; 0xff; 0x04; 0x04; 0x03; 0x02; 0x00; 0x20; 0x30;
    0x51; 0x06; 0x03; 0x55; 0x1d; 0x11; 0x01; 0x01; 0xff; 0x04; 0x47; 0x30;
    0x45; 0xa4; 0x43; 0x30; 0x41; 0x31; 0x16; 0x30; 0x14; 0x06; 0x05; 0x67;
    0x81; 0x05; 0x02; 0x01; 0x0c; 0x0b; 0x69; 0x64; 0x3a; 0x34; 0x37; 0x34;
    0x46; 0x34; 0x46; 0x34; 0x37; 0x31; 0x0f; 0x30; 0x0d; 0x06; 0x05; 0x67;
    0x81; 0x05; 0x02; 0x02; 0x0c; 0x04; 0x48; 0x31; 0x42; 0x32; 0x31; 0x16;
    0x30; 0x14; 0x06; 0x05; 0x67; 0x81; 0x05; 0x02; 0x03; 0x0c; 0x0b; 0x69;
    0x64; 0x3a; 0x30; 0x30; 0x31; 0x33; 0x30; 0x30; 0x33; 0x37; 0x30; 0x0c;
    0x06; 0x03; 0x55; 0x1d; 0x13; 0x01; 0x01; 0xff; 0x04; 0x02; 0x30; 0x00;
    0x30; 0x13; 0x06; 0x03; 0x55; 0x1d; 0x20; 0x04; 0x0c; 0x30; 0x0a; 0x30;
    0x08; 0x06; 0x06; 0x67; 0x81; 0x0c; 0x01; 0x02; 0x02; 0x30; 0x1f; 0x06;
    0x03; 0x55; 0x1d; 0x23; 0x04; 0x18; 0x30; 0x16; 0x80; 0x14; 0xd5; 0xfd;
    0x4b; 0xf1; 0xbe; 0x05; 0xfb; 0x13; 0x28; 0xe2; 0x5f; 0x39; 0xd3; 0x9d;
    0x70; 0x4a; 0x48; 0x91; 0x6b; 0xb0; 0x30; 0x10; 0x06; 0x03; 0x55; 0x1d;
    0x25; 0x04; 0x09; 0x30; 0x07; 0x06; 0x05; 0x67; 0x81; 0x05; 0x08; 0x01;
    0x30; 0x21; 0x06; 0x03; 0x55; 0x1d; 0x09; 0x04; 0x1a; 0x30; 0x18; 0x30;
    0x16; 0x06; 0x05; 0x67; 0x81; 0x05; 0x02; 0x10; 0x31; 0x0d; 0x30; 0x0b;
    0x0c; 0x03; 0x32; 0x2e; 0x30; 0x02; 0x01; 0x00; 0x02; 0x01; 0x10; 0x30;
    0x0d; 0x06; 0x09; 0x2a; 0x86; 0x48; 0x86; 0xf7; 0x0d; 0x01; 0x01; 0x0b;
    0x05; 0x00; 0x03; 0x82; 0x01; 0x01; 0x00; 0x4c; 0x65; 0x3f; 0x58; 0x73;
    0xb6; 0x21; 0x72; 0xb3; 0x2c; 0xc3; 0x94; 0xf4; 0xb3; 0xe0; 0x74; 0xa3;
    0x2e; 0x47; 0xa7; 0x63; 0x12; 0xa3; 0x0f; 0xc5; 0x18; 0x45; 0x06; 0xab;
    0xa9; 0xba; 0x64; 0xf0; 0xeb; 0x18; 0x7c; 0xba; 0x57; 0x09; 0xd0; 0x11;
    0x60; 0x6f; 0xbd; 0x52; 0x73; 0xab; 0x39; 0x81; 0x29; 0xab; 0x78; 0x84;
    0xec; 0x00; 0xe3; 0x87; 0xec; 0xf1; 0x7d; 0x2e; 0x15; 0x3f; 0xad; 0x1b;
    0x3a; 0x3f; 0x03; 0x53; 0x91; 0xee; 0x72; 0x7a; 0x87; 0x74; 0xa8; 0x09;
    0x7d; 0x83; 0x37; 0x0d; 0x46; 0x22; 0x12; 0xf3; 0x79; 0x61; 0xaf; 0x80;
    0xf3; 0xf4; 0x76; 0x7d; 0xbd; 0xb3; 0x1f; 0x87; 0xb8; 0x66; 0xc9; 0x24;
    0x15; 0xe9; 0xc7; 0x5b; 0x19; 0xdf; 0x04; 0x0a; 0x47; 0xec; 0x88; 0x46;
    0x7f; 0x20; 0x6c; 0x4b; 0x23; 0xdb; 0x65; 0x67; 0x54; 0xde; 0x3a; 0xc3;
    0x64; 0xbb; 0x77; 0x4d; 0x6d; 0x4b; 0x1e; 0x43; 0x9a; 0x35; 0x20; 0x7e;
    0x28; 0xce; 0x4e; 0xe5; 0xb7; 0x0b; 0xae; 0xd0; 0x26; 0xc0; 0xac; 0x2f;
    0x79; 0x35; 0x71; 0xbd; 0x74; 0x68; 0x8d; 0x51; 0x6f; 0x84; 0x4d; 0xaa;
    0xca; 0x0d; 0xf0; 0xa8; 0x41; 0x5c; 0xa9; 0x6e; 0x3b; 0x70; 0x15; 0x73;
    0x8d; 0xf0; 0x70; 0xd3; 0xb3; 0x0e; 0xa7; 0x3a; 0x34; 0x12; 0xd2; 0x1e;
    0xa4; 0x18; 0x4c; 0x31; 0xee; 0x26; 0x44; 0x24; 0xe0; 0xa5; 0xca; 0x56;
    0x5d; 0x76; 0x9e; 0xf4; 0x9a; 0x6e; 0x2b; 0xd6; 0x4a; 0xe9; 0x47; 0xd9;
    0x29; 0x94; 0x2d; 0x23; 0xf7; 0xbb; 0x13; 0x0c; 0x48; 0x73; 0x93; 0xe3;
    0x49; 0xc7; 0xd8; 0xca; 0x5d; 0x63; 0xf5; 0x68; 0xb2; 0xe9; 0x1a; 0xe6;
    0x87; 0x39; 0xf8; 0x12; 0xa7; 0x5c; 0xb2; 0x6e; 0x04; 0xd0; 0x73; 0x3a;
    0x05; 0x77; 0xc0; 0x9f; 0x23; 0xa7; 0x1a; 0x71; 0x38; 0x55; 0x70
  ].

Definition FIXED_ECC_ENDORSEMENT_CERT : list Z :=
  [
    0x30; 0x82; 0x03; 0x20; 0x30; 0x82; 0x02; 0x08; 0xa0; 0x03; 0x02; 0x01;
    0x02; 0x02; 0x10; 0x67; 0x02; 0x3f; 0x35; 0xc3; 0x17; 0xad; 0xcf; 0x0a;
    0x76; 0xed; 0x50; 0x17; 0xd8; 0x4e; 0x50; 0x30; 0x0d; 0x06; 0x09; 0x2a;
    0x86; 0x48; 0x86; 0xf7; 0x0d; 0x01; 0x01; 0x0b; 0x05; 0x00; 0x30; 0x81;
    0x80; 0x31; 0x0b; 0x30; 0x09; 0x06; 0x03; 0x55; 0x04; 0x06; 0x13; 0x02;
    0x55; 0x53; 0x31; 0x13; 0x30; 0x11; 0x06; 0x03; 0x55; 0x04; 0x08; 0x0c;
    0x0a; 0x43; 0x61; 0x6c; 0x69; 0x66; 0x6f; 0x72; 0x6e; 0x69; 0x61; 0x31;
    0x14; 0x30; 0x12; 0x06; 0x03; 0x55; 0x04; 0x0a; 0x0c; 0x0b; 0x47; 0x6f;
    0x6f; 0x67; 0x6c; 0x65; 0x20; 0x49; 0x6e; 0x63; 0x2e; 0x31; 0x24; 0x30;
    0x22; 0x06; 0x03; 0x55; 0x04; 0x0b; 0x0c; 0x1b; 0x45; 0x6e; 0x67; 0x69;
    0x6e; 0x65; 0x65; 0x72; 0x69; 0x6e; 0x67; 0x20; 0x61; 0x6e; 0x64; 0x20;
    0x44; 0x65; 0x76; 0x65; 0x6c; 0x6f; 0x70; 0x6d; 0x65; 0x6e; 0x74; 0x31;
    0x20; 0x30; 0x1e; 0x06; 0x03; 0x55; 0x04; 0x03; 0x0c; 0x17; 0x43; 0x52;
    0x4f; 0x53; 0x20; 0x54; 0x50; 0x4d; 0x20; 0x44; 0x45; 0x56; 0x20; 0x45;
    0x4b; 0x20; 0x52; 0x4f; 0x4f; 0x54; 0x20; 0x43; 0x41; 0x30; 0x1e; 0x17;
    0x0d; 0x31; 0x36; 0x31; 0x30; 0x32; 0x30; 0x30; 0x30; 0x34; 0x39; 0x33;
    0x36; 0x5a; 0x17; 0x0d; 0x32; 0x36; 0x31; 0x30; 0x31; 0x38; 0x30; 0x30;
    0x34; 0x39; 0x33; 0x36; 0x5a; 0x30; 0x00; 0x30; 0x59; 0x30; 0x13; 0x06;
    0x07; 0x2a; 0x86; 0x48; 0xce; 0x3d; 0x02; 0x01; 0x06; 0x08; 0x2a; 0x86;
    0x48; 0xce; 0x3d; 0x03; 0x01; 0x07; 0x03; 0x42; 0x00; 0x04; 0x6e; 0xcc;
    0xf0; 0x96; 0x69; 0x9b; 0x3f; 0xea; 0x95; 0xb7; 0xd5; 0x00; 0x27; 0x20;
    0x81; 0x8e; 0x57; 0x00; 0x6f; 0x67; 0x98; 0xce; 0x8e; 0xdf; 0xc7; 0xda;
    0xae; 0xa8; 0xa3; 0xed; 0x3e; 0x7a; 0xb3; 0x27; 0xbf; 0x92; 0xee; 0xb2;
    0xa2; 0x76; 0x81; 0xc1; 0x71; 0x4d; 0x8c; 0xa8; 0x9d; 0xfd; 0x8e; 0xd0;
    0x29; 0xb5; 0x01; 0x20; 0xec; 0x78; 0xc0; 0x17; 0x8f; 0xf6; 0xf8; 0x67;
    0x5f; 0xe8; 0xa3; 0x81; 0xdf; 0x30; 0x81; 0xdc; 0x30; 0x0e; 0x06; 0x03;
    0x55; 0x1d; 0x0f; 0x01; 0x01; 0xff; 0x04; 0x04; 0x03; 0x02; 0x00; 0x20;
    0x30; 0x51; 0x06; 0x03; 0x55; 0x1d; 0x11; 0x01; 0x01; 0xff; 0x04; 0x47;
    0x30; 0x45; 0xa4; 0x43; 0x30; 0x41; 0x31; 0x16; 0x30; 0x14; 0x06; 0x05;
    0x67; 0x81; 0x05; 0x02; 0x01; 0x0c; 0x0b; 0x69; 0x64; 0x3a; 0x34; 0x37;
    0x34; 0x46; 0x34; 0x46; 0x34; 0x37; 0x31; 0x0f; 0x30; 0x0d; 0x06; 0x05;
    0x67; 0x81; 0x05; 0x02; 0x02; 0x0c; 0x04; 0x48; 0x31; 0x42; 0x32; 0x31;
    0x16; 0x30; 0x14; 0x06; 0x05; 0x67; 0x81; 0x05; 0x02; 0x03; 0x0c; 0x0b;
    0x69; 0x64; 0x3a; 0x30; 0x30; 0x31; 0x33; 0x30; 0x30; 0x33; 0x37; 0x30;
    0x0c; 0x06; 0x03; 0x55; 0x1d; 0x13; 0x01; 0x01; 0xff; 0x04; 0x02; 0x30;
    0x00; 0x30; 0x13; 0x06; 0x03; 0x55; 0x1d; 0x20; 0x04; 0x0c; 0x30; 0x0a;
    0x30; 0x08; 0x06; 0x06; 0x67; 0x81; 0x0c; 0x01; 0x02; 0x02; 0x30; 0x1f;
    0x06; 0x03; 0x55; 0x1d; 0x23; 0x04; 0x18; 0x30; 0x16; 0x80; 0x14; 0xd5;
    0xfd; 0x4b; 0xf1; 0xbe; 0x05; 0xfb; 0x13; 0x28; 0xe2; 0x5f; 0x39; 0xd3;
    0x9d; 0x70; 0x4a; 0x48; 0x91; 0x6b; 0xb0; 0x30; 0x10; 0x06; 0x03; 0x55;
    0x1d; 0x25; 0x04; 0x09; 0x30; 0x07; 0x06; 0x05; 0x67; 0x81; 0x05; 0x08;
    0x01; 0x30; 0x21; 0x06; 0x03; 0x55; 0x1d; 0x09; 0x04; 0x1a; 0x30; 0x18;
    0x30; 0x16; 0x06; 0x05; 0x67; 0x81; 0x05; 0x02; 0x10; 0x31; 0x0d; 0x30;
    0x0b; 0x0c; 0x03; 0x32; 0x2e; 0x30; 0x02; 0x01; 0x00; 0x02; 0x01; 0x10;
    0x30; 0x0d; 0x06; 0x09; 0x2a; 0x86; 0x48; 0x86; 0xf7; 0x0d; 0x01; 0x01;
    0x0b; 0x05; 0x00; 0x03; 0x82; 0x01; 0x01; 0x00; 0x21; 0xab; 0x9e; 0x92;
    0x4d; 0xb0; 0x50; 0x04; 0xeb; 0x2b; 0xb6; 0xcc; 0x87; 0x8c; 0xa8; 0x27;
    0xe3; 0x5a; 0xbf; 0x03; 0x5d; 0xb1; 0x4d; 0x24; 0xda; 0xdf; 0x44; 0xdb;
    0x4a; 0x37; 0x5c; 0x3e; 0x70; 0xf3; 0x35; 0x5d; 0x26; 0x2e; 0xaa; 0x85;
    0xc6; 0xbe; 0x1c; 0x9d; 0x1e; 0x5f; 0xf6; 0x6c; 0xb8; 0x94; 0x41; 0x25;
    0x20; 0x55; 0x28; 0x53; 0x55; 0x67; 0x9a; 0xb5; 0xfb; 0x6b; 0x57; 0x09;
    0xf0; 0x5b; 0xe2; 0x66; 0xc5; 0xe8; 0xd1; 0x9e; 0xb8; 0xb7; 0xed; 0xd8;
    0x41; 0xb5; 0xbd; 0x44; 0xd9; 0x53; 0xab; 0x2d; 0x17; 0x4c; 0x73; 0x05;
    0x19; 0x2c; 0x9d; 0x18; 0x98; 0xd8; 0x55; 0xbe; 0xbd; 0xb6; 0xa5; 0xf6;
    0x5f; 0x3d; 0x70; 0x98; 0xd6; 0xd0; 0xcf; 0x1c; 0x0d; 0xc6; 0x78; 0x6d;
    0x2e; 0x9c; 0x44; 0xf6; 0x9e; 0x0a; 0x80; 0x12; 0xcd; 0x9b; 0x4b; 0x1f;
    0xbc; 0xfe; 0xe7; 0x3f; 0x45; 0x81; 0x78; 0x43; 0x40; 0xf2; 0xb0; 0x6b;
    0x2c; 0x23; 0xc8; 0xc8; 0x57; 0xc6; 0x33; 0x08; 0x3e; 0x17; 0x43; 0x16;
    0xf0; 0x3f; 0xbf; 0x24; 0x54; 0xba; 0xe6; 0x85; 0x4c; 0xc8; 0x2e; 0x7f;
    0x88; 0x41; 0x6c; 0x4e; 0x03; 0xa6; 0x35; 0x00; 0x4d; 0xdb; 0x65; 0x68;
    0x78; 0x01; 0x40; 0xc6; 0xa0; 0x95; 0xd9; 0xe9; 0x27; 0xe1; 0x90; 0x20;
    0xc8; 0xe6; 0xa7; 0x7c; 0x4d; 0x9c; 0x1c; 0x44; 0x47; 0xfe; 0x9e; 0xc9;
    0x25; 0x7a; 0x07; 0xa9; 0x86; 0x60; 0x58; 0x18; 0x1c; 0x16; 0x18; 0x7e;
    0x04; 0xd6; 0x5a; 0xb6; 0xcb; 0xb6; 0xa6; 0x0f; 0xd9; 0x42; 0xf3; 0x19;
    0x8c; 0xbe; 0x26; 0x98; 0xdd; 0x07; 0x05; 0x76; 0xc0; 0xf9; 0xa4; 0xeb;
    0x53; 0xff; 0x13; 0x27; 0x61; 0x87; 0x66; 0x99; 0x76; 0x9c; 0x5f; 0x03;
    0x52; 0x95; 0x13; 0x6e; 0xb7; 0x33; 0x1f; 0x8d; 0xc6; 0x22; 0xd8; 0xe4
  ].

(** Test endorsement CA root. *)
Definition TEST_ENDORSEMENT_CA_RSA_N : list Z :=
  [
    0xfa3b34ed; 0x3c59ad05; 0x912d6623; 0x83302402;
    0xd43b6755; 0x5777021a; 0xaf37e9a1; 0x45c0e8ad;
    0x9728f946; 0x4391523d; 0xdf7a9164; 0x88f1a9ae;
    0x036c557e; 0x5d9df43e; 0x3e65de68; 0xe172008a;
    0x709dc81f; 0x27a75fe0; 0x3e77f89e; 0x4f400ecc;
    0x51a17dae; 0x2ff9c652; 0xd1d83cdb; 0x20d26349;
    0xbbad71dd; 0x30051b2b; 0x276b2459; 0x809bb8e1;
    0xb8737049; 0xdbe94466; 0x8287072b; 0x070ef311;
    0x6e2a26de; 0x29d69f11; 0x96463d95; 0xb4dc6950;
    0x097d4dfe; 0x1b4a88cc; 0xbd6b50c8; 0x9f7a5b34;
    0xda22c199; 0x9d1ac04b; 0x136af5e5; 0xb1a0e824;
    0x4a065b34; 0x1f67fb46; 0xa1f91ab1; 0x27bb769f;
    0xb704c992; 0xb669cbf4; 0x9299bb6c; 0xcb1b2208;
    0x2dc0d9db; 0xe1513e13; 0xc7f24923; 0xa74c6bcc;
    0xca1a9a69; 0x1b994244; 0x4f64b0d9; 0x78607fd6;
    0x486fb315; 0xa1098c31; 0x5dc50dd6; 0xcdc10874
  ].

(** Production endorsement CA root. *)
Definition PROD_ENDORSEMENT_CA_RSA_N : list Z :=
  [
    0xeb6a07bf; 0x6cf8eca6; 0x4756e85e; 0x2fc3874c;
    0xa4c23e87; 0xc364dffe; 0x2a2ddb95; 0x2f7f0e1e;
    0xdb485bd8; 0xce8aa808; 0xe062001b; 0x187811c3;
    0x0e400462; 0xb7097a01; 0xb988152b; 0xba9d058a;
    0x814b6691; 0xc70a694f; 0x8108c7f0; 0x4c7a1f33;
    0x5cfda48e; 0xef303dbc; 0x84f5a3ea; 0x14607435;
    0xc72f1e60; 0x345d0b38; 0x0ac16927; 0xbdf903c7;
    0x11b660ed; 0x21ebfe0e; 0x8c8b303c; 0xd6eff6cb;
    0x76156bf7; 0x57735ce4; 0x8b7a87ed; 0x7a757188;
    0xd4fb3eb0; 0xc67fa05d; 0x163f0cf5; 0x69d8abf3;
    0xec105749; 0x1de78f37; 0xb885a62f; 0x81344a82;
    0x390df2b7; 0x58a7c56a; 0xa938f471; 0x506ee7d4;
    0x2ca0f2a3; 0x2aa5392c; 0x39052797; 0x199e837c;
    0x0d367b81; 0xb7bbff6f; 0x0ea99f5f; 0xfbac0d2a;
    0x7bbe018d; 0x265fc995; 0x34f73008; 0x5e2cd747;
    0x42096e33; 0x0c15f816; 0xffa7f7d2; 0xbd6f0198
  ].

Definition TEST_ENDORSEMENT_CA_RSA_PUB : RSA :=
  {| rsa_e := RSA_F4; rsa_N := TEST_ENDORSEMENT_CA_RSA_N; rsa_d := [] |}.

Definition PROD_ENDORSEMENT_CA_RSA_PUB : RSA :=
  {| rsa_e := RSA_F4; rsa_N := PROD_ENDORSEMENT_CA_RSA_N; rsa_d := [] |}.

(** [sizeof] of the two fixed certificates, as declared in the C file. *)
Definition sizeof_FIXED_RSA_ENDORSEMENT_CERT : Z := 1007.
Definition sizeof_FIXED_ECC_ENDORSEMENT_CERT : Z := 804.

(** ** The outside world *)

Inductive register :=
| KEYMGR_SHA_ITOP
| KEYMGR_SHA_USE_CERT_INDEX
| KEYMGR_SHA_CFG_EN
| KEYMGR_SHA_TRIG
| KEYMGR_HKEY_ERR_FLAGS
| GLOBALSEC_FLASH_REGION6_BASE_ADDR
| GLOBALSEC_FLASH_REGION6_SIZE
| GLOBALSEC_FLASH_REGION6_CTRL
| GLOBALSEC_FLASH_REGION7_BASE_ADDR
| GLOBALSEC_FLASH_REGION7_SIZE
| GLOBALSEC_FLASH_REGION7_CTRL.

(** The attributes [store_cert] sets on an NV index. *)
Inductive TPMA_NV :=
| TPMA_NV_PPWRITE
| TPMA_NV_WRITEDEFINE
| TPMA_NV_PLATFORMCREATE
| TPMA_NV_AUTHREAD
| TPMA_NV_NO_DA.

(** One observable interaction of the firmware with its collaborators,
    together with what the collaborator answered. *)
Inductive event :=
| RegWrite (r : register) (v : Z)
| RegRead (r : register) (v : Z)
| Frr0Read (key : list Z)
| FlashInfoRead (offset : Z) (word : option Z)
| HmacSha256 (key msg digest : list Z)
| X509Verify (cert : list Z) (ca : RSA) (res : Z)
| HierarchyStartup
| NV_DefineSpace (nv_index : Z) (attrs : list TPMA_NV) (data_size rc : Z)
| NV_Write (nv_index : Z) (data : list Z) (rc : Z)
| NvWriteReserved (seed : list Z)
| NvCommitted (res : Z).

(** What the collaborators answer.  The n-th key-ladder step, the n-th
    [TPM2_NV_DefineSpace], [TPM2_NV_Write] and [NvCommit] call each have
    their own answer, so every behaviour of the hardware and of the TPM
    library during one run is some [environment]. *)
Record environment := {
  flash : memory;
  (** contents of the stack slots of the locals [eps] and [frk2] *)
  stack_eps : Z -> Z;
  stack_frk2 : Z -> Z;
  (** values of the successive reads of SHA_ITOP during the n-th step *)
  keymgr_itop : nat -> list Z;
  (** HKEY_ERR_FLAGS after the n-th step *)
  keymgr_err_flags : nat -> Z;
  (** bytes of the HKEY_FRR0.. registers *)
  keymgr_frr0 : Z -> Z;
  (** [flash_physical_info_read_word]: the word, or [None] on an error *)
  info_word : Z -> option Z;
  DCRYPTO_x509_verify : list Z -> RSA -> Z;
  HMAC_SHA256 : list Z -> list Z -> list Z;
  TPM2_NV_DefineSpace : nat -> Z;
  TPM2_NV_Write : nat -> Z;
  NvCommit : nat -> Z
}.

(** The state the firmware changes: the trace so far (oldest event first)
    and the TPM global [gp.EPSeed]. *)
Record world := {
  trace : list event;
  gp_EPSeed : list Z
}.

(** ** A state monad with divergence

    [Hang] is the outcome of a run whose busy-wait loop never sees the
    hardware complete. *)

Inductive outcome (A : Type) : Type :=
| Done (a : A)
| Hang.
Arguments Done {A} a.
Arguments Hang {A}.

Definition M (A : Type) : Type := world -> outcome A * world.

Definition ret {A : Type} (a : A) : M A := fun w => (Done a, w).

Definition bind {A B : Type} (m : M A) (k : A -> M B) : M B :=
  fun w =>
    match m w with
    | (Done a, w') => k a w'
    | (Hang, w') => (Hang, w')
    end.

Definition hang {A : Type} : M A := fun w => (Hang, w).

Definition emit (e : event) : M unit :=
  fun w => (Done tt, {| trace := trace w ++ [e]; gp_EPSeed := gp_EPSeed w |}).

Definition get_trace : M (list event) := fun w => (Done (trace w), w).

Definition set_gp_EPSeed (seed : list Z) : M unit :=
  fun w => (Done tt, {| trace := trace w; gp_EPSeed := seed |}).

Declare Scope fw_scope.
Delimit Scope fw_scope with fw.
Notation "x <- m ;; k" := (bind m (fun x => k))
  (at level 61, m at next level, right associativity) : fw_scope.
Notation "' pat <- m ;; k" := (bind m (fun x => match x with pat => k end))
  (at level 61, pat pattern, m at next level, right associativity) : fw_scope.
Notation "m ;; k" := (bind m (fun _ => k))
  (at level 61, right associativity) : fw_scope.
Local Open Scope fw_scope.

(** How many events of a kind the trace holds. *)
Definition count_events (p : event -> bool) (tr : list event) : nat :=
  length (filter p tr).

Definition is_use_cert_write (e : event) : bool :=
  match e with RegWrite KEYMGR_SHA_USE_CERT_INDEX _ => true | _ => false end.
Definition is_define (e : event) : bool :=
  match e with NV_DefineSpace _ _ _ _ => true | _ => false end.
Definition is_nv_write (e : event) : bool :=
  match e with NV_Write _ _ _ => true | _ => false end.
Definition is_commit (e : event) : bool :=
  match e with NvCommitted _ => true | _ => false end.

Definition calls_so_far (p : event -> bool) : M nat :=
  tr <- get_trace ;; ret (count_events p tr).

(** ** The firmware *)

Section Firmware.

Variable cfg : chip_config.
Variable env : environment.

(** [GREG32(...) = v] and [GREG32(...)] *)
Definition reg_write (r : register) (v : Z) : M unit :=
  emit (RegWrite r (wrap32 v)).

Definition reg_read (r : register) (v : Z) : M Z :=
  emit (RegRead r (wrap32 v)) ;; ret (wrap32 v).

(** [do { itop = GREG32(KEYMGR, SHA_ITOP); } while (!itop);] over the
    values the engine presents; when they run out without a non-zero one
    the loop never exits. *)
Fixpoint poll_itop (reads : list Z) : M Z :=
  match reads with
  | [] => hang
  | v :: rest =>
      itop <- reg_read KEYMGR_SHA_ITOP v ;;
      if itop =? 0 then poll_itop rest else ret itop
  end.

Definition hw_key_ladder_step (cert : Z) : M Z :=
  n <- calls_so_far is_use_cert_write ;;
  reg_write KEYMGR_SHA_ITOP 0 ;;  (* clear status *)
  reg_write KEYMGR_SHA_USE_CERT_INDEX
    (Z.lor (Z.shiftl cert (GC_KEYMGR_SHA_USE_CERT_INDEX_LSB cfg))
           (GC_KEYMGR_SHA_USE_CERT_ENABLE_MASK cfg)) ;;
  reg_write KEYMGR_SHA_CFG_EN (GC_KEYMGR_SHA_CFG_EN_INT_EN_DONE_MASK cfg) ;;
  reg_write KEYMGR_SHA_TRIG (GC_KEYMGR_SHA_TRIG_TRIG_GO_MASK cfg) ;;
  _ <- poll_itop (keymgr_itop env n) ;;
  reg_write KEYMGR_SHA_ITOP 0 ;;  (* clear status *)
  flags <- reg_read KEYMGR_HKEY_ERR_FLAGS (keymgr_err_flags env n) ;;
  ret (if flags =? 0 then 0 else 1).

(** [for (i = 0; i < k_cr50_max_fw_major_version -
    K_CROS_FW_MAJOR_VERSION; i++) if (hw_key_ladder_step(KEYMGR_CERT_25))
    return 0;] with [n] iterations left.  The result is 1 when the loop
    ran to its end and 0 when a step made the function return. *)
Fixpoint frk2_cert_25_loop (n : nat) : M Z :=
  match n with
  | O => ret 1
  | S n' =>
      fault <- hw_key_ladder_step KEYMGR_CERT_25 ;;
      if fault =? 0 then frk2_cert_25_loop n' else ret 0
  end.

(** [memcpy] of the 32 bytes at [GREG32_ADDR(KEYMGR, HKEY_FRR0)] into
    [frk2]. *)
Definition read_frr0 : M (list Z) :=
  let key := map (fun i => wrap8 (keymgr_frr0 env i))
                 (upto AES256_BLOCK_CIPHER_KEY_SIZE) in
  emit (Frr0Read key) ;; ret key.

(** The result pairs the C return value with the contents of the caller's
    [frk2] buffer when the function returns. *)
Definition compute_frk2 (frk2 : list Z) : M (Z * list Z) :=
  reg_write KEYMGR_SHA_TRIG (GC_KEYMGR_SHA_TRIG_TRIG_RESET_MASK cfg) ;;
  fault <- hw_key_ladder_step KEYMGR_CERT_0 ;;
  if negb (fault =? 0) then ret (0, frk2) else
  fault <- hw_key_ladder_step KEYMGR_CERT_3 ;;
  if negb (fault =? 0) then ret (0, frk2) else
  fault <- hw_key_ladder_step KEYMGR_CERT_4 ;;
  if negb (fault =? 0) then ret (0, frk2) else
  fault <- hw_key_ladder_step KEYMGR_CERT_5 ;;
  if negb (fault =? 0) then ret (0, frk2) else
  fault <- hw_key_ladder_step KEYMGR_CERT_7 ;;
  if negb (fault =? 0) then ret (0, frk2) else
  fault <- hw_key_ladder_step KEYMGR_CERT_15 ;;
  if negb (fault =? 0) then ret (0, frk2) else
  fault <- hw_key_ladder_step KEYMGR_CERT_20 ;;
  if negb (fault =? 0) then ret (0, frk2) else
  completed <- frk2_cert_25_loop
    (Z.to_nat (k_cr50_max_fw_major_version - K_CROS_FW_MAJOR_VERSION)) ;;
  if completed =? 0 then ret (0, frk2) else
  fault <- hw_key_ladder_step KEYMGR_CERT_26 ;;
  if negb (fault =? 0) then ret (0, frk2) else
  key <- read_frr0 ;;
  ret (1, key).

Definition flash_info_read_enable : M unit :=
  reg_write GLOBALSEC_FLASH_REGION7_BASE_ADDR
    (FLASH_INFO_MEMORY_BASE cfg + FLASH_INFO_MANUFACTURE_STATE_OFFSET cfg) ;;
  reg_write GLOBALSEC_FLASH_REGION7_SIZE
    (FLASH_INFO_MANUFACTURE_STATE_SIZE cfg - 1) ;;
  reg_write GLOBALSEC_FLASH_REGION7_CTRL
    (Z.lor (GC_GLOBALSEC_FLASH_REGION7_CTRL_EN_MASK cfg)
           (GC_GLOBALSEC_FLASH_REGION7_CTRL_RD_EN_MASK cfg)).

Definition flash_info_read_disable : M unit :=
  reg_write GLOBALSEC_FLASH_REGION7_CTRL 0.

Definition flash_cert_region_enable : M unit :=
  reg_write GLOBALSEC_FLASH_REGION6_BASE_ADDR RO_CERTS_START_ADDR ;;
  reg_write GLOBALSEC_FLASH_REGION6_SIZE (RO_CERTS_REGION_SIZE - 1) ;;
  reg_write GLOBALSEC_FLASH_REGION6_CTRL
    (Z.lor (GC_GLOBALSEC_FLASH_REGION6_CTRL_EN_MASK cfg)
           (GC_GLOBALSEC_FLASH_REGION6_CTRL_RD_EN_MASK cfg)).

Definition flash_physical_info_read_word (offset : Z) : M (option Z) :=
  let r := option_map wrap32 (info_word env offset) in
  emit (FlashInfoRead offset r) ;; ret r.

(** The read loop of [get_decrypted_eps] over the remaining values of [i].
    The result is 1 when every word was read, 0 when a read failed and the
    function has to return; the second component is [eps] at that point. *)
Fixpoint read_eps_words (offsets : list Z) (eps : list Z) : M (Z * list Z) :=
  match offsets with
  | [] => ret (1, eps)
  | i :: rest =>
      r <- flash_physical_info_read_word (INFO1_EPS_OFFSET cfg + i) ;;
      match r with
      | None => ret (0, eps)   (* Flash read INFO1 failed. *)
      | Some word => read_eps_words rest (memcpy_at eps i (le_bytes word))
      end
  end.

(** The values [i] takes in [for (i = 0; i < INFO1_EPS_SIZE;
    i += sizeof(uint32_t))]. *)
Definition eps_word_offsets : list Z :=
  map (fun k => 4 * k) (upto (INFO1_EPS_SIZE / 4)).

(** The result is the C return value, the caller's [eps] buffer and the
    local [frk2] when the function returns. *)
Definition get_decrypted_eps (eps : list Z) : M (Z * list Z * list Z) :=
  let frk2 := map (fun i => wrap8 (stack_frk2 env i))
                  (upto AES256_BLOCK_CIPHER_KEY_SIZE) in
  ' (ok, frk2) <- compute_frk2 frk2 ;;
  if ok =? 0 then ret (0, eps, frk2) else
  (* Setup flash region mapping. *)
  flash_info_read_enable ;;
  ' (all_read, eps) <- read_eps_words eps_word_offsets eps ;;
  if all_read =? 0 then ret (0, eps, memset0 frk2) else
  (* Remove flash region mapping. *)
  flash_info_read_disable ;;
  (* One-time-pad decrypt EPS. *)
  let eps := xor_bytes eps frk2 in
  ret (1, eps, memset0 frk2).

Definition validate_cert
    (cert_info : cros_perso_response_component_info_v0)
    (cert_rsp : cros_perso_certificate_response_v0)
    (eps : list Z) : M Z :=
  if negb (component_type cert_info =? CROS_PERSO_COMPONENT_TYPE_RSA_CERT)
     && negb (component_type cert_info =? CROS_PERSO_COMPONENT_TYPE_P256_CERT)
  then ret 0  (* Invalid component type. *)
  else
  if cert_len cert_rsp >? MAX_NV_BUFFER_SIZE cfg then ret 0 else
  (* Verify certificate signature; accept either root CA. *)
  let der := bytes_at (cert cert_rsp) (cert_len cert_rsp) in
  let prod := DCRYPTO_x509_verify env der PROD_ENDORSEMENT_CA_RSA_PUB in
  emit (X509Verify der PROD_ENDORSEMENT_CA_RSA_PUB prod) ;;
  if negb (prod =? 0) then ret 1 else
  let test := DCRYPTO_x509_verify env der TEST_ENDORSEMENT_CA_RSA_PUB in
  emit (X509Verify der TEST_ENDORSEMENT_CA_RSA_PUB test) ;;
  ret (if test =? 0 then 0 else 1).

Definition store_cert (component_type : Z) (cert : Z -> Z) (cert_len : Z)
  : M Z :=
  let rsa_ek_nv_index := EK_CERT_NV_START_INDEX in
  let ecc_ek_nv_index := EK_CERT_NV_START_INDEX + 1 in
  (* Indicate that a system reset has occurred, and currently
     running with Platform auth. *)
  emit HierarchyStartup ;;
  let nv_index :=
    if component_type =? CROS_PERSO_COMPONENT_TYPE_RSA_CERT
    then rsa_ek_nv_index
    else ecc_ek_nv_index in
  let space_attributes :=
    [ TPMA_NV_PPWRITE; TPMA_NV_WRITEDEFINE; TPMA_NV_PLATFORMCREATE;
      TPMA_NV_AUTHREAD; TPMA_NV_NO_DA ] in
  (* Define the required space first. *)
  n <- calls_so_far is_define ;;
  let rc := TPM2_NV_DefineSpace env n in
  emit (NV_DefineSpace nv_index space_attributes cert_len rc) ;;
  if negb (rc =? TPM_RC_SUCCESS) then ret 0 else
  n <- calls_so_far is_nv_write ;;
  let rc := TPM2_NV_Write env n in
  emit (NV_Write nv_index (bytes_at cert cert_len) rc) ;;
  if negb (rc =? TPM_RC_SUCCESS) then ret 0 else
  n <- calls_so_far is_commit ;;
  let committed := NvCommit env n in
  emit (NvCommitted committed) ;;
  if negb (committed =? 0) then ret 1 else ret 0.

Definition store_eps (eps : list Z) : M Z :=
  (* gp is a TPM global state structure, declared in Global.h. *)
  set_gp_EPSeed (firstn (Z.to_nat PRIMARY_SEED_SIZE) eps) ;;
  (* Persist the seed to flash. *)
  emit (NvWriteReserved (firstn (Z.to_nat PRIMARY_SEED_SIZE) eps)) ;;
  n <- calls_so_far is_commit ;;
  let committed := NvCommit env n in
  emit (NvCommitted committed) ;;
  ret committed.

Definition install_fixed_certs : M Z :=
  stored <- store_eps FIXED_ENDORSEMENT_SEED ;;
  if stored =? 0 then ret 0 else
  stored <- store_cert CROS_PERSO_COMPONENT_TYPE_RSA_CERT
              (array_ptr FIXED_RSA_ENDORSEMENT_CERT)
              sizeof_FIXED_RSA_ENDORSEMENT_CERT ;;
  if stored =? 0 then ret 0 else
  stored <- store_cert CROS_PERSO_COMPONENT_TYPE_P256_CERT
              (array_ptr FIXED_ECC_ENDORSEMENT_CERT)
              sizeof_FIXED_ECC_ENDORSEMENT_CERT ;;
  if stored =? 0 then ret 0 else
  ret 1.

Definition handle_cert
    (cert_info : cros_perso_response_component_info_v0)
    (cert_rsp : cros_perso_certificate_response_v0)
    (eps : list Z) : M Z :=
  (* Write RSA / P256 endorsement certificate. *)
  valid <- validate_cert cert_info cert_rsp eps ;;
  if valid =? 0 then ret 0 else
  stored <- store_cert (component_type cert_info) (cert cert_rsp)
              (cert_len cert_rsp) ;;
  if stored =? 0 then ret 0  (* Internal failure. *) else
  ret 1.

(** [DCRYPTO_HMAC_SHA256_init (&hmac, key, ..); HASH_update (&hmac.hash,
    msg, ..); DCRYPTO_HMAC_final (&hmac)] *)
Definition hmac_sha256 (key msg : list Z) : M (list Z) :=
  let digest := HMAC_SHA256 env key msg in
  emit (HmacSha256 key msg digest) ;; ret digest.

(** The four bytes of the C string literal ["RSA"], terminator included,
    that [HASH_update (&hmac.hash, "RSA", 4)] hashes. *)
Definition RSA_label : list Z := [82; 83; 65; 0].

(** "Check cert region hmac": the two keyed hashes at the head of the
    [do { } while (0)] block of [tpm_endorse] and the [memcmp] of the
    region's last 32 bytes with the second digest.  The result is what
    [memcmp] returns. *)
Definition cert_region_memcmp (eps : list Z) : M Z :=
  let p := RO_CERTS_START_ADDR in
  key <- hmac_sha256 eps RSA_label ;;
  digest <- hmac_sha256 key (load_bytes (flash env) p
                               (RO_CERTS_REGION_SIZE - 32)) ;;
  ret (memcmp (load_bytes (flash env) (p + RO_CERTS_REGION_SIZE - 32) 32)
              digest).

(** The [do { } while (0)] block of [tpm_endorse]; a [break] leaves it
    with the value [result] has at that point, which is the value of the
    block. *)
Definition tpm_endorse_block (rsa_cert ecc_cert : ro_cert) (eps : list Z)
  : M Z :=
  (* Check cert region hmac. *)
  cmp <- cert_region_memcmp eps ;;
  if negb (cmp =? 0)
  then
    (* fall back to a fixed endorsement seed *)
    _ <- install_fixed_certs ;;
    ret 0
  else
  handled <- handle_cert (cert_info rsa_cert) (cert_response rsa_cert) eps ;;
  if handled =? 0 then ret 0 else
  handled <- handle_cert (cert_info ecc_cert) (cert_response ecc_cert) eps ;;
  if handled =? 0 then ret 0 else
  (* Copy EPS from INFO1 to flash data region. *)
  stored <- store_eps eps ;;
  if stored =? 0 then ret 0 else
  (* Chip has been marked as manufactured. *)
  ret 1.

(** What the stack slot of the local [eps] holds before it is written. *)
Definition uninitialised_eps : list Z :=
  map (fun i => wrap8 (stack_eps env i)) (upto PRIMARY_SEED_SIZE).

(** The result pairs the C return value with the contents of the local
    [eps] buffer at the moment the function returns. *)
Definition tpm_endorse : M (Z * list Z) :=
  let p := RO_CERTS_START_ADDR in
  let eps := uninitialised_eps in
  flash_cert_region_enable ;;
  (* First boot, certs not yet installed. *)
  if load32 (flash env) p =? 0xFFFFFFFF then ret (0, eps) else
  ' (ok, eps, _) <- get_decrypted_eps eps ;;
  if ok =? 0 then ret (0, eps) else
  (* Unpack rsa cert struct. *)
  let rsa_cert := ro_cert_at (flash env) p in
  (* Sanity check cert region contents. *)
  if wrap32 (2 * sizeof_ro_cert + cert_len (cert_response rsa_cert))
       >? RO_CERTS_REGION_SIZE
  then ret (0, eps) else
  (* Unpack ecc cert struct. *)
  let ecc_cert :=
    ro_cert_at (flash env)
      (wrap32 (p + sizeof_ro_cert + cert_len (cert_response rsa_cert))) in
  (* Sanity check cert region contents. *)
  if wrap32 (wrap32 (2 * sizeof_ro_cert + cert_len (cert_response rsa_cert))
             + cert_len (cert_response ecc_cert))
       >? RO_CERTS_REGION_SIZE
  then ret (0, eps) else
  (* Verify expected component types. *)
  if negb (component_type (cert_info rsa_cert)
           =? CROS_PERSO_COMPONENT_TYPE_RSA_CERT)
  then ret (0, eps) else
  if negb (component_type (cert_info ecc_cert)
           =? CROS_PERSO_COMPONENT_TYPE_P256_CERT)
  then ret (0, eps) else
  result <- tpm_endorse_block rsa_cert ecc_cert eps ;;
  ret (result, memset0 eps).

End Firmware.

(** ** A reference HMAC-SHA256

    The firmware obtains its HMAC from the crypto engine, whose code is in
    another directory; the model above takes it from the environment.  To
    run the model on concrete regions, the standard function (FIPS 180-4,
    RFC 2104) is written out here. *)

Module Sha256.

Definition add32 (a b : Z) : Z := wrap32 (a + b).
Definition rotr (n x : Z) : Z :=
  Z.lor (Z.shiftr x n) (wrap32 (Z.shiftl x (32 - n))).
Definition not32 (x : Z) : Z := Z.lxor x (2 ^ 32 - 1).

Definition Ch (x y z : Z) : Z := Z.lxor (Z.land x y) (Z.land (not32 x) z).
Definition Maj (x y z : Z) : Z :=
  Z.lxor (Z.lxor (Z.land x y) (Z.land x z)) (Z.land y z).
Definition bsig0 (x : Z) : Z :=
  Z.lxor (Z.lxor (rotr 2 x) (rotr 13 x)) (rotr 22 x).
Definition bsig1 (x : Z) : Z :=
  Z.lxor (Z.lxor (rotr 6 x) (rotr 11 x)) (rotr 25 x).
Definition ssig0 (x : Z) : Z :=
  Z.lxor (Z.lxor (rotr 7 x) (rotr 18 x)) (Z.shiftr x 3).
Definition ssig1 (x : Z) : Z :=
  Z.lxor (Z.lxor (rotr 17 x) (rotr 19 x)) (Z.shiftr x 10).

(** The round constants are the first 32 fractional bits of the cube roots
    of the first 64 primes, the initial state those of the square roots of
    the first 8; both are computed rather than tabulated. *)
Definition is_prime (n : Z) : bool :=
  (2 <=? n) && forallb (fun d => (d <? 2) || negb (n mod d =? 0)) (upto n).

Definition primes64 : list Z :=
  Eval vm_compute in firstn 64 (filter is_prime (upto 312)).

(** Largest [r] below [2 ^ bits] with [r ^ 3 <= n], bit by bit. *)
Fixpoint cube_root (bits : nat) (n r : Z) : Z :=
  match bits with
  | O => r
  | S b =>
      let r' := r + 2 ^ Z.of_nat b in
      cube_root b n (if r' * r' * r' <=? n then r' else r)
  end.

Definition K256 : list Z :=
  Eval vm_compute in
    map (fun p => wrap32 (cube_root 36 (p * 2 ^ 96) 0)) primes64.

Definition H256 : list Z :=
  Eval vm_compute in
    map (fun p => wrap32 (Z.sqrt (p * 2 ^ 64))) (firstn 8 primes64).

(** Big-endian words and bytes. *)
Definition be_bytes (n : nat) (x : Z) : list Z :=
  map (fun k => wrap8 (Z.shiftr x (8 * Z.of_nat k))) (rev (seq 0 n)).

Fixpoint be_words (bs : list Z) (n : nat) : list Z :=
  match n, bs with
  | S n', b0 :: b1 :: b2 :: b3 :: rest =>
      (b0 * 2 ^ 24 + b1 * 2 ^ 16 + b2 * 2 ^ 8 + b3) :: be_words rest n'
  | _, _ => []
  end.

(** Padding of a message of [length msg] bytes to whole 64-byte blocks. *)
Definition pad (msg : list Z) : list Z :=
  let l := Z.of_nat (length msg) in
  let zeros := Z.to_nat ((55 - l) mod 64) in
  msg ++ [0x80] ++ repeat 0 zeros ++ be_bytes 8 (8 * l).

(** The message schedule, from the last sixteen words (newest first). *)
Fixpoint schedule (n : nat) (recent : list Z) : list Z :=
  match n with
  | O => []
  | S n' =>
      let w := add32 (add32 (ssig1 (nth 1 recent 0)) (nth 6 recent 0))
                     (add32 (ssig0 (nth 14 recent 0)) (nth 15 recent 0)) in
      w :: schedule n' (w :: firstn 15 recent)
  end.

Definition round (st : list Z) (kw : Z * Z) : list Z :=
  match st with
  | [a; b; c; d; e; f; g; h] =>
      let t1 := add32 (add32 (add32 h (bsig1 e)) (add32 (Ch e f g) (fst kw)))
                      (snd kw) in
      let t2 := add32 (bsig0 a) (Maj a b c) in
      [add32 t1 t2; a; b; c; add32 d t1; e; f; g]
  | _ => st
  end.

Definition compress (st : list Z) (block : list Z) : list Z :=
  let w16 := be_words block 16 in
  let w := w16 ++ schedule 48 (rev w16) in
  let st' := fold_left round (combine K256 w) st in
  map (fun p => add32 (fst p) (snd p)) (combine st st').

Fixpoint blocks (n : nat) (bs : list Z) (st : list Z) : list Z :=
  match n with
  | O => st
  | S n' => blocks n' (skipn 64 bs) (compress st (firstn 64 bs))
  end.

Definition sha256 (msg : list Z) : list Z :=
  let padded := pad msg in
  flat_map (be_bytes 4) (blocks (length padded / 64) padded H256).

(** Modelled from the spec: the crypto engine's
    [HMAC-SHA256(key, data) -> 32 bytes], which the C file reaches through
    [DCRYPTO_HMAC_SHA256_init], [HASH_update] and [DCRYPTO_HMAC_final]. *)
Definition hmac (key msg : list Z) : list Z :=
  let k := if (64 <? Z.of_nat (length key))%Z then sha256 key else key in
  let k := k ++ repeat 0 (64 - length k) in
  sha256 (map (Z.lxor 0x5c) k ++ sha256 (map (Z.lxor 0x36) k ++ msg)).

End Sha256.


(** ** Concrete chips and regions to run the model on *)

(** A register layout to run the model with; the theorems below hold for
    every [chip_config]. *)
Definition bench_config : chip_config :=
  {| GC_KEYMGR_SHA_USE_CERT_INDEX_LSB := 0;
     GC_KEYMGR_SHA_USE_CERT_ENABLE_MASK := 0x40;
     GC_KEYMGR_SHA_CFG_EN_INT_EN_DONE_MASK := 0x1;
     GC_KEYMGR_SHA_TRIG_TRIG_GO_MASK := 0x1;
     GC_KEYMGR_SHA_TRIG_TRIG_RESET_MASK := 0x2;
     FLASH_INFO_MEMORY_BASE := 0x28000;
     FLASH_INFO_MANUFACTURE_STATE_OFFSET := 0x0;
     FLASH_INFO_MANUFACTURE_STATE_SIZE := 0x800;
     GC_GLOBALSEC_FLASH_REGION6_CTRL_EN_MASK := 0x1;
     GC_GLOBALSEC_FLASH_REGION6_CTRL_RD_EN_MASK := 0x2;
     GC_GLOBALSEC_FLASH_REGION7_CTRL_EN_MASK := 0x1;
     GC_GLOBALSEC_FLASH_REGION7_CTRL_RD_EN_MASK := 0x2;
     MAX_NV_BUFFER_SIZE := 1024 |}.

(** Flash holding [region] at [RO_CERTS_START_ADDR] and erased elsewhere. *)
Definition region_flash (region : list Z) : memory :=
  fun a =>
    if (RO_CERTS_START_ADDR <=? a)
       && (a <? RO_CERTS_START_ADDR + RO_CERTS_REGION_SIZE)
    then nth (Z.to_nat (a - RO_CERTS_START_ADDR)) region 0xFF
    else 0xFF.

(** A chip on which everything works: each ladder step completes on the
    second poll without a fault, every information word is readable, every
    NV call succeeds, the certificate verifier accepts under the
    production root exactly the certificates that open with a DER
    SEQUENCE tag, and the HMAC is the reference one. *)
Definition bench_env (region : list Z) : environment :=
  {| flash := region_flash region;
     stack_eps := fun i => 0xA0 + i;
     stack_frk2 := fun i => 0x50 + i;
     keymgr_itop := fun _ => [0; 1];
     keymgr_err_flags := fun _ => 0;
     keymgr_frr0 := fun i => 7 * i + 3;
     info_word := fun off => Some (0x04030201 + 0x01010101 * off);
     DCRYPTO_x509_verify :=
       fun der ca =>
         match der, rsa_N ca with
         | 0x30 :: _, 0xeb6a07bf :: _ => 1
         | _, _ => 0
         end;
     HMAC_SHA256 := Sha256.hmac;
     TPM2_NV_DefineSpace := fun _ => 0;
     TPM2_NV_Write := fun _ => 0;
     NvCommit := fun _ => 1 |}.

(** The same chip with other answers from the key ladder, the
    information flash or [NvCommit]. *)
Definition with_err_flags (f : nat -> Z) (e : environment) : environment :=
  {| flash := flash e; stack_eps := stack_eps e; stack_frk2 := stack_frk2 e;
     keymgr_itop := keymgr_itop e; keymgr_err_flags := f;
     keymgr_frr0 := keymgr_frr0 e; info_word := info_word e;
     DCRYPTO_x509_verify := DCRYPTO_x509_verify e;
     HMAC_SHA256 := HMAC_SHA256 e;
     TPM2_NV_DefineSpace := TPM2_NV_DefineSpace e;
     TPM2_NV_Write := TPM2_NV_Write e; NvCommit := NvCommit e |}.

Definition with_info_word (f : Z -> option Z) (e : environment)
  : environment :=
  {| flash := flash e; stack_eps := stack_eps e; stack_frk2 := stack_frk2 e;
     keymgr_itop := keymgr_itop e; keymgr_err_flags := keymgr_err_flags e;
     keymgr_frr0 := keymgr_frr0 e; info_word := f;
     DCRYPTO_x509_verify := DCRYPTO_x509_verify e;
     HMAC_SHA256 := HMAC_SHA256 e;
     TPM2_NV_DefineSpace := TPM2_NV_DefineSpace e;
     TPM2_NV_Write := TPM2_NV_Write e; NvCommit := NvCommit e |}.

Definition with_NvCommit (f : nat -> Z) (e : environment) : environment :=
  {| flash := flash e; stack_eps := stack_eps e; stack_frk2 := stack_frk2 e;
     keymgr_itop := keymgr_itop e; keymgr_err_flags := keymgr_err_flags e;
     keymgr_frr0 := keymgr_frr0 e; info_word := info_word e;
     DCRYPTO_x509_verify := DCRYPTO_x509_verify e;
     HMAC_SHA256 := HMAC_SHA256 e;
     TPM2_NV_DefineSpace := TPM2_NV_DefineSpace e;
     TPM2_NV_Write := TPM2_NV_Write e; NvCommit := f |}.

Definition with_flash (m : memory) (e : environment) : environment :=
  {| flash := m; stack_eps := stack_eps e; stack_frk2 := stack_frk2 e;
     keymgr_itop := keymgr_itop e; keymgr_err_flags := keymgr_err_flags e;
     keymgr_frr0 := keymgr_frr0 e; info_word := info_word e;
     DCRYPTO_x509_verify := DCRYPTO_x509_verify e;
     HMAC_SHA256 := HMAC_SHA256 e;
     TPM2_NV_DefineSpace := TPM2_NV_DefineSpace e;
     TPM2_NV_Write := TPM2_NV_Write e; NvCommit := NvCommit e |}.

(** The world at reset: nothing has happened, [gp.EPSeed] is clear. *)
Definition boot : world :=
  {| trace := []; gp_EPSeed := repeat 0 (Z.to_nat PRIMARY_SEED_SIZE) |}.

(** A packed [struct ro_cert] followed by its certificate. *)
Definition ro_cert_bytes (type len : Z) (der : list Z) : list Z :=
  [wrap8 (len + 8); wrap8 (Z.shiftr (len + 8) 8); type; 0; 0; 0; 0; 0]
    ++ [0x11; 0x22; 0x33; 0x44] ++ le_bytes len ++ der.

(** The covered part of a region: the given records, then zeros up to the
    tag. *)
Definition region_body (records : list Z) : list Z :=
  records ++ repeat 0 (Z.to_nat (RO_CERTS_REGION_SIZE - 32) - length records).

(** The seed the bench chip recovers: information words masked with FRR0. *)
Definition bench_seed : list Z :=
  Eval vm_compute in
    match fst (get_decrypted_eps bench_config (bench_env []) (repeat 0 32)
                  boot) with
    | Done (_, eps, _) => eps
    | Hang => []
    end.

Definition erased_region : list Z :=
  repeat 0xFF (Z.to_nat RO_CERTS_REGION_SIZE).

Definition small_rsa_der : list Z := [0x30; 0x03; 0x02; 0x01; 0x05].
Definition small_ecc_der : list Z := [0x30; 0x03; 0x02; 0x01; 0x07].

Definition factory_body : list Z :=
  region_body (ro_cert_bytes CROS_PERSO_COMPONENT_TYPE_RSA_CERT 5 small_rsa_der
               ++ ro_cert_bytes CROS_PERSO_COMPONENT_TYPE_P256_CERT 5
                    small_ecc_der).

(** A region whose tag is keyed with the four bytes of [RSA_label]. *)
Definition factory_region : list Z :=
  Eval vm_compute in
    factory_body
      ++ Sha256.hmac (Sha256.hmac bench_seed RSA_label) factory_body.

(** A region whose tag is keyed with the three letters R, S, A alone. *)
Definition three_letter_region : list Z :=
  Eval vm_compute in
    factory_body
      ++ Sha256.hmac (Sha256.hmac bench_seed [82; 83; 65]) factory_body.

(** The factory region with the lowest bit of its last tag byte flipped. *)
Definition tampered_region : list Z :=
  Eval vm_compute in
    firstn 2047 factory_region ++ [Z.lxor (nth 2047 factory_region 0) 1].

(** A region whose RSA record declares a 3000-byte certificate. *)
Definition oversize_region : list Z :=
  Eval vm_compute in
    region_body (ro_cert_bytes CROS_PERSO_COMPONENT_TYPE_RSA_CERT 3000 [])
      ++ repeat 0 32.

(** A region whose RSA record declares [0xFFFFFFF4] bytes: the ECC record
    is then looked for at offset 4, where byte 6 holds the P256 type and
    bytes 16..19 the length 100. *)
Definition wrapping_region : list Z :=
  Eval vm_compute in
    region_body ([0; 0; 129; 0; 0; 0; 130; 0; 0; 0; 0; 0;
                  0xF4; 0xFF; 0xFF; 0xFF; 100; 0; 0; 0])
      ++ repeat 0 32.

(** The factory region with the ECC record's type overwritten by the
    seed's component type. *)
Definition mistyped_region : list Z :=
  Eval vm_compute in
    firstn 23 factory_region ++ [CROS_PERSO_COMPONENT_TYPE_EPS]
      ++ skipn 24 factory_region.

(** The world of the bench chip once [tpm_endorse] has recovered the
    seed. *)
Definition bench_seed_recovered (region : list Z) : world :=
  snd (get_decrypted_eps bench_config (bench_env region)
         (uninitialised_eps (bench_env region))
         (snd (flash_cert_region_enable bench_config boot))).

(** An information flash whose word at offset 8 cannot be read. *)
Definition faulty_info_env : environment :=
  with_info_word (fun off => if off =? 8 then None else Some 0x04030201)
    (bench_env erased_region).

(** Descriptors and records to call [validate_cert] on. *)
Definition sample_info (size : Z) (rsv : list Z)
  : cros_perso_response_component_info_v0 :=
  {| component_size := size;
     component_type := CROS_PERSO_COMPONENT_TYPE_RSA_CERT;
     reserved := rsv |}.

Definition sample_record (kid : list Z)
  : cros_perso_certificate_response_v0 :=
  {| key_id := kid; cert_len := 5; cert := array_ptr small_rsa_der |}.

Definition oversize_record : cros_perso_certificate_response_v0 :=
  {| key_id := [0; 0; 0; 0]; cert_len := 1025;
     cert := array_ptr FIXED_RSA_ENDORSEMENT_CERT |}.

(** ** Vocabulary for statements about traces *)

Scheme Equality for register.

(** Accesses to the key ladder, to the flash controller and to the
    information flash: everything the firmware does before it first calls
    the HMAC engine, the certificate verifier or the NV store. *)
Definition is_hw_access (e : event) : bool :=
  match e with
  | RegWrite _ _ | RegRead _ _ | Frr0Read _ | FlashInfoRead _ _ => true
  | _ => false
  end.

Definition is_keymgr_access (e : event) : bool :=
  match e with
  | RegWrite (KEYMGR_SHA_ITOP | KEYMGR_SHA_USE_CERT_INDEX | KEYMGR_SHA_CFG_EN
              | KEYMGR_SHA_TRIG) _
  | RegRead (KEYMGR_SHA_ITOP | KEYMGR_HKEY_ERR_FLAGS) _
  | Frr0Read _ => true
  | _ => false
  end.

(** What seed recovery may touch: the key ladder, the registers of flash
    region 7 and the information flash. *)
Definition is_eps_recovery_access (e : event) : bool :=
  match e with
  | RegWrite (GLOBALSEC_FLASH_REGION7_BASE_ADDR | GLOBALSEC_FLASH_REGION7_SIZE
              | GLOBALSEC_FLASH_REGION7_CTRL) _
  | FlashInfoRead _ _ => true
  | _ => is_keymgr_access e
  end.

Definition is_info_read (e : event) : bool :=
  match e with FlashInfoRead _ _ => true | _ => false end.

Definition is_hmac (e : event) : bool :=
  match e with HmacSha256 _ _ _ => true | _ => false end.

Definition is_x509 (e : event) : bool :=
  match e with X509Verify _ _ _ => true | _ => false end.

(** Calls into the NV store: define, write, reserved write and commit. *)
Definition is_nv (e : event) : bool :=
  match e with
  | NV_DefineSpace _ _ _ _ | NV_Write _ _ _ | NvWriteReserved _
  | NvCommitted _ => true
  | _ => false
  end.

Definition is_failed_info_read (e : event) : bool :=
  match e with FlashInfoRead _ None => true | _ => false end.

Definition writes_register (r : register) (e : event) : bool :=
  match e with RegWrite r' _ => register_beq r r' | _ => false end.

(** The values written to SHA_USE_CERT_INDEX, in order: one per ladder
    step started. *)
Definition use_cert_writes (tr : list event) : list Z :=
  flat_map
    (fun e =>
       match e with
       | RegWrite KEYMGR_SHA_USE_CERT_INDEX v => [v]
       | _ => []
       end)
    tr.

(** The value a register was last written with, if the trace writes it. *)
Fixpoint last_write (r : register) (tr : list event) : option Z :=
  match tr with
  | [] => None
  | e :: tr' =>
      match last_write r tr' with
      | Some v => Some v
      | None =>
          match e with
          | RegWrite r' v => if register_beq r r' then Some v else None
          | _ => None
          end
      end
  end.

(** [m] only adds events that satisfy [P] to the trace, whatever its
    outcome. *)
Definition emits {A : Type} (P : event -> Prop) (m : M A) : Prop :=
  forall w, exists seg, trace (snd (m w)) = trace w ++ seg /\ Forall P seg.

(** [m] returns from every world. *)
Definition returns {A : Type} (m : M A) : Prop :=
  forall w, exists a, fst (m w) = Done a.

(** The key ladder completes every step: among the values it presents on
    SHA_ITOP during any step there is a non-zero one. *)
Definition ladder_responsive (env : environment) : Prop :=
  forall n, Exists (fun v => wrap32 v <> 0) (keymgr_itop env n).

(** *** The key-ladder sequence in the words of the specification

    "reset, then steps 0,3,4,5,7,15,20, then step 25 repeated a fixed count
    of times tied to a firmware-version constant, then step 26; any fault
    aborts the sequence immediately". *)
Definition frk2_cert_sequence : list Z :=
  [0; 3; 4; 5; 7; 15; 20] ++ repeat 25 (Z.to_nat (254 - 0)) ++ [26].

(** Run the steps in order and stop at the first fault; 1 when every step
    ran without a fault, 0 when one faulted. *)
Fixpoint run_ladder (cfg : chip_config) (env : environment) (certs : list Z)
  : M Z :=
  match certs with
  | [] => ret 1
  | c :: rest =>
      fault <- hw_key_ladder_step cfg env c ;;
      if fault =? 0 then run_ladder cfg env rest else ret 0
  end.

Definition full_derivation (cfg : chip_config) (env : environment)
    (frk2 : list Z) : M (Z * list Z) :=
  reg_write KEYMGR_SHA_TRIG (GC_KEYMGR_SHA_TRIG_TRIG_RESET_MASK cfg) ;;
  ok <- run_ladder cfg env frk2_cert_sequence ;;
  if ok =? 0 then ret (0, frk2) else
  key <- read_frr0 env ;;
  ret (1, key).

(** What one completed ladder step adds to the trace: status cleared, the
    certificate selected and the engine triggered, the polls of SHA_ITOP,
    status cleared again, the fault flags read. *)
Definition ladder_step_events (cfg : chip_config) (cert : Z)
    (polls : list Z) (flags : Z) : list event :=
  [ RegWrite KEYMGR_SHA_ITOP 0;
    RegWrite KEYMGR_SHA_USE_CERT_INDEX
      (wrap32 (Z.lor (Z.shiftl cert (GC_KEYMGR_SHA_USE_CERT_INDEX_LSB cfg))
                     (GC_KEYMGR_SHA_USE_CERT_ENABLE_MASK cfg)));
    RegWrite KEYMGR_SHA_CFG_EN
      (wrap32 (GC_KEYMGR_SHA_CFG_EN_INT_EN_DONE_MASK cfg));
    RegWrite KEYMGR_SHA_TRIG (wrap32 (GC_KEYMGR_SHA_TRIG_TRIG_GO_MASK cfg)) ]
    ++ map (RegRead KEYMGR_SHA_ITOP) polls
    ++ [ RegWrite KEYMGR_SHA_ITOP 0; RegRead KEYMGR_HKEY_ERR_FLAGS flags ].

(** A completed step is recorded as its certificate number, the values it
    polled and the fault flags it read. *)
Definition ladder_step_record : Type := Z * list Z * Z.

Definition step_cert (s : ladder_step_record) : Z := fst (fst s).
Definition step_polls (s : ladder_step_record) : list Z := snd (fst s).
Definition step_flags (s : ladder_step_record) : Z := snd s.

Definition executed_events (cfg : chip_config)
    (steps : list ladder_step_record) : list event :=
  flat_map
    (fun s => ladder_step_events cfg (step_cert s) (step_polls s)
                (step_flags s))
    steps.

(** A step whose polling never ends: everything up to the trigger, then
    polls that all read zero. *)
Definition stuck_step_events (cfg : chip_config) (cert : Z)
    (polls : list Z) : list event :=
  [ RegWrite KEYMGR_SHA_ITOP 0;
    RegWrite KEYMGR_SHA_USE_CERT_INDEX
      (wrap32 (Z.lor (Z.shiftl cert (GC_KEYMGR_SHA_USE_CERT_INDEX_LSB cfg))
                     (GC_KEYMGR_SHA_USE_CERT_ENABLE_MASK cfg)));
    RegWrite KEYMGR_SHA_CFG_EN
      (wrap32 (GC_KEYMGR_SHA_CFG_EN_INT_EN_DONE_MASK cfg));
    RegWrite KEYMGR_SHA_TRIG (wrap32 (GC_KEYMGR_SHA_TRIG_TRIG_GO_MASK cfg)) ]
    ++ map (RegRead KEYMGR_SHA_ITOP) polls.

Arguments ladder_step_events : simpl never.
Arguments stuck_step_events : simpl never.

(** The polls of a completed step: zeros, then one non-zero value. *)
Definition completed_polls (polls : list Z) : Prop :=
  exists zeros v,
    polls = zeros ++ [v] /\ Forall (fun x => x = 0) zeros /\ v <> 0.

(** *** What the stores add to the trace *)

Definition ek_cert_attributes : list TPMA_NV :=
  [ TPMA_NV_PPWRITE; TPMA_NV_WRITEDEFINE; TPMA_NV_PLATFORMCREATE;
    TPMA_NV_AUTHREAD; TPMA_NV_NO_DA ].

(** A seed store: reserved write, then commit with result [committed]. *)
Definition store_eps_events (seed : list Z) (committed : Z) : list event :=
  [ NvWriteReserved seed; NvCommitted committed ].

(** A certificate store whose define, write and commit answer
    [define_rc], [write_rc] and [committed]: each call is made only when
    the one before succeeded. *)
Definition store_cert_events (nv_index : Z) (data : list Z) (data_size : Z)
    (define_rc write_rc committed : Z) : list event :=
  [ HierarchyStartup;
    NV_DefineSpace nv_index ek_cert_attributes data_size define_rc ]
    ++ (if define_rc =? 0
        then NV_Write nv_index data write_rc
               :: (if write_rc =? 0 then [NvCommitted committed] else [])
        else []).

Definition store_cert_ok (define_rc write_rc committed : Z) : bool :=
  (define_rc =? 0) && (write_rc =? 0) && negb (committed =? 0).

(** The fallback installation, given the answers of the NV store: the
    fixed seed; then, if that commit succeeded, the fixed RSA certificate;
    then, if that store succeeded, the fixed ECC certificate. *)
Definition fallback_events (c0 d1 w1 c1 d2 w2 c2 : Z) : list event :=
  store_eps_events FIXED_ENDORSEMENT_SEED c0
    ++ (if c0 =? 0 then [] else
        store_cert_events EK_CERT_NV_START_INDEX FIXED_RSA_ENDORSEMENT_CERT
          sizeof_FIXED_RSA_ENDORSEMENT_CERT d1 w1 c1
        ++ (if store_cert_ok d1 w1 c1
            then store_cert_events (EK_CERT_NV_START_INDEX + 1)
                   FIXED_ECC_ENDORSEMENT_CERT
                   sizeof_FIXED_ECC_ENDORSEMENT_CERT d2 w2 c2
            else [])).

Definition fallback_ok (c0 d1 w1 c1 d2 w2 c2 : Z) : bool :=
  negb (c0 =? 0) && store_cert_ok d1 w1 c1 && store_cert_ok d2 w2 c2.

(** The stores of the fallback identity: the fixed seed in the reserved
    slot, the fixed RSA certificate at the first EK index, the fixed ECC
    certificate at the second. *)
Definition stores_fixed_identity (e : event) : Prop :=
  match e with
  | NvWriteReserved seed => seed = FIXED_ENDORSEMENT_SEED
  | NV_DefineSpace nv_index _ size _ =>
      (nv_index = EK_CERT_NV_START_INDEX
       /\ size = sizeof_FIXED_RSA_ENDORSEMENT_CERT)
      \/ (nv_index = EK_CERT_NV_START_INDEX + 1
          /\ size = sizeof_FIXED_ECC_ENDORSEMENT_CERT)
  | NV_Write nv_index data _ =>
      (nv_index = EK_CERT_NV_START_INDEX
       /\ data = FIXED_RSA_ENDORSEMENT_CERT)
      \/ (nv_index = EK_CERT_NV_START_INDEX + 1
          /\ data = FIXED_ECC_ENDORSEMENT_CERT)
  | _ => True
  end.

(** *** Runs of [tpm_endorse] that get as far as the region check

    The region is provisioned, the seed is recovered as [eps] leaving the
    world [w1], both sanity checks pass and both component types are the
    expected ones. *)
Definition rsa_record (env : environment) : ro_cert :=
  ro_cert_at (flash env) RO_CERTS_START_ADDR.

Definition ecc_record (env : environment) : ro_cert :=
  ro_cert_at (flash env)
    (wrap32 (RO_CERTS_START_ADDR + sizeof_ro_cert
             + cert_len (cert_response (rsa_record env)))).

Definition reaches_region_check (cfg : chip_config) (env : environment)
    (w : world) (eps : list Z) (w1 : world) : Prop :=
  load32 (flash env) RO_CERTS_START_ADDR <> 0xFFFFFFFF
  /\ (exists frk2,
        get_decrypted_eps cfg env (uninitialised_eps env)
          (snd (flash_cert_region_enable cfg w))
        = (Done (1, eps, frk2), w1))
  /\ wrap32 (2 * sizeof_ro_cert + cert_len (cert_response (rsa_record env)))
     <= RO_CERTS_REGION_SIZE
  /\ wrap32 (wrap32 (2 * sizeof_ro_cert
                     + cert_len (cert_response (rsa_record env)))
             + cert_len (cert_response (ecc_record env)))
     <= RO_CERTS_REGION_SIZE
  /\ component_type (cert_info (rsa_record env))
     = CROS_PERSO_COMPONENT_TYPE_RSA_CERT
  /\ component_type (cert_info (ecc_record env))
     = CROS_PERSO_COMPONENT_TYPE_P256_CERT.

(** *** Flipping one bit of flash *)

Definition flip_bit (m : memory) (addr bit : Z) : memory :=
  fun a => if a =? addr then Z.lxor (wrap8 (m a)) (2 ^ bit) else m a.

(** The covered bytes and the trailing tag of the certificate region. *)
Definition region_covered (env : environment) : list Z :=
  load_bytes (flash env) RO_CERTS_START_ADDR (RO_CERTS_REGION_SIZE - 32).

Definition region_tag (env : environment) : list Z :=
  load_bytes (flash env) (RO_CERTS_START_ADDR + RO_CERTS_REGION_SIZE - 32) 32.

(** ** Vocabulary for the remaining properties *)

(** The 32 bytes [compute_frk2] copies out of HKEY_FRR0. *)
Definition frr0_key (env : environment) : list Z :=
  map (fun i => wrap8 (keymgr_frr0 env i)) (upto AES256_BLOCK_CIPHER_KEY_SIZE).

(** The bytes of the encrypted seed as the information flash returns
    them, word by word in memory order. *)
Definition info_ciphertext (cfg : chip_config) (env : environment) : list Z :=
  flat_map
    (fun k =>
       match info_word env (INFO1_EPS_OFFSET cfg + 4 * k) with
       | Some word => le_bytes (wrap32 word)
       | None => []
       end)
    (upto (INFO1_EPS_SIZE / 4)).

(** Every word of the encrypted seed can be read. *)
Definition info_readable (cfg : chip_config) (env : environment) : Prop :=
  forall k, 0 <= k < INFO1_EPS_SIZE / 4 ->
            info_word env (INFO1_EPS_OFFSET cfg + 4 * k) <> None.

(** No ladder step raises a fault flag. *)
Definition ladder_faultless (env : environment) : Prop :=
  forall n, wrap32 (keymgr_err_flags env n) = 0.

Definition is_frr0_read (e : event) : bool :=
  match e with Frr0Read _ => true | _ => false end.

Definition is_nv_reserved (e : event) : bool :=
  match e with NvWriteReserved _ => true | _ => false end.

(** The NV index [store_cert] uses for a component type. *)
Definition ek_nv_index (component_type : Z) : Z :=
  if component_type =? CROS_PERSO_COMPONENT_TYPE_RSA_CERT
  then EK_CERT_NV_START_INDEX
  else EK_CERT_NV_START_INDEX + 1.

(** The certificate bytes of a record: [cert_len] bytes behind [cert]. *)
Definition record_der (cr : cros_perso_certificate_response_v0) : list Z :=
  bytes_at (cert cr) (cert_len cr).

(** A 32-bit word from its bytes in memory order. *)
Definition le_word (bs : list Z) : Z :=
  nth 0 bs 0 + 2 ^ 8 * nth 1 bs 0 + 2 ^ 16 * nth 2 bs 0 + 2 ^ 24 * nth 3 bs 0.

(** An information flash provisioned with [seed] masked by [key]. *)
Definition padded_info (cfg : chip_config) (key seed : list Z)
  : Z -> option Z :=
  fun off =>
    Some (le_word (skipn (Z.to_nat (off - INFO1_EPS_OFFSET cfg))
                     (xor_bytes seed key))).

Definition planted_seed : list Z :=
  map (fun i => 3 * i + 1) (upto PRIMARY_SEED_SIZE).

(** The bench chip with [planted_seed] in its information flash. *)
Definition planted_env (region : list Z) : environment :=
  with_info_word
    (padded_info bench_config (frr0_key (bench_env region)) planted_seed)
    (bench_env region).

(** The read of word [k] of the encrypted seed, as it appears in the
    trace. *)
Definition info_read_event (cfg : chip_config) (env : environment) (k : Z)
  : event :=
  FlashInfoRead (INFO1_EPS_OFFSET cfg + 4 * k)
    (option_map wrap32 (info_word env (INFO1_EPS_OFFSET cfg + 4 * k))).

(** The bytes of the first [n] words of the encrypted seed. *)
Definition info_ciphertext_upto (cfg : chip_config) (env : environment)
    (n : Z) : list Z :=
  flat_map
    (fun k =>
       match info_word env (INFO1_EPS_OFFSET cfg + 4 * k) with
       | Some word => le_bytes (wrap32 word)
       | None => []
       end)
    (upto n).

(** Whether [validate_cert] gets as far as the signature check. *)
Definition cert_well_formed (cfg : chip_config)
    (ci : cros_perso_response_component_info_v0)
    (cr : cros_perso_certificate_response_v0) : bool :=
  ((component_type ci =? CROS_PERSO_COMPONENT_TYPE_RSA_CERT)
   || (component_type ci =? CROS_PERSO_COMPONENT_TYPE_P256_CERT))
  && (cert_len cr <=? MAX_NV_BUFFER_SIZE cfg).

(** The verdicts of the two roots on a record's certificate. *)
Definition prod_verdict (env : environment)
    (cr : cros_perso_certificate_response_v0) : Z :=
  DCRYPTO_x509_verify env (record_der cr) PROD_ENDORSEMENT_CA_RSA_PUB.

Definition test_verdict (env : environment)
    (cr : cros_perso_certificate_response_v0) : Z :=
  DCRYPTO_x509_verify env (record_der cr) TEST_ENDORSEMENT_CA_RSA_PUB.

(** The calls [validate_cert] makes to the verifier. *)
Definition verifier_calls (cfg : chip_config) (env : environment)
    (ci : cros_perso_response_component_info_v0)
    (cr : cros_perso_certificate_response_v0) : list event :=
  if cert_well_formed cfg ci cr
  then X509Verify (record_der cr) PROD_ENDORSEMENT_CA_RSA_PUB
         (prod_verdict env cr)
         :: (if prod_verdict env cr =? 0
             then [X509Verify (record_der cr) TEST_ENDORSEMENT_CA_RSA_PUB
                     (test_verdict env cr)]
             else [])
  else [].

(** A record [validate_cert] accepts. *)
Definition cert_accepted (cfg : chip_config) (env : environment)
    (ci : cros_perso_response_component_info_v0)
    (cr : cros_perso_certificate_response_v0) : bool :=
  cert_well_formed cfg ci cr
  && (negb (prod_verdict env cr =? 0) || negb (test_verdict env cr =? 0)).

(** What [handle_cert] adds to the trace for a record, given the answers
    of the NV store: the verifier calls, then the store if the record was
    accepted. *)
Definition handle_cert_events (cfg : chip_config) (env : environment)
    (rc : ro_cert) (d wr c : Z) : list event :=
  verifier_calls cfg env (cert_info rc) (cert_response rc)
    ++ (if cert_accepted cfg env (cert_info rc) (cert_response rc)
        then store_cert_events
               (ek_nv_index (component_type (cert_info rc)))
               (record_der (cert_response rc))
               (cert_len (cert_response rc)) d wr c
        else []).

Definition handle_cert_ok (cfg : chip_config) (env : environment)
    (rc : ro_cert) (d wr c : Z) : bool :=
  cert_accepted cfg env (cert_info rc) (cert_response rc)
  && store_cert_ok d wr c.

(** The two keyed hashes of the region check. *)
Definition region_check_events (env : environment) (eps : list Z)
  : list event :=
  let key := HMAC_SHA256 env eps RSA_label in
  [ HmacSha256 eps RSA_label key;
    HmacSha256 key (region_covered env)
      (HMAC_SHA256 env key (region_covered env)) ].

(** The tag the region check expects for a seed. *)
Definition expected_tag (env : environment) (eps : list Z) : list Z :=
  HMAC_SHA256 env (HMAC_SHA256 env eps RSA_label) (region_covered env).

(** A correctly tagged region whose second certificate does not open with
    a DER SEQUENCE tag, so that the bench verifier rejects it. *)
Definition unsigned_ecc_der : list Z := [0x31; 0x03; 0x02; 0x01; 0x07].

Definition half_valid_body : list Z :=
  region_body (ro_cert_bytes CROS_PERSO_COMPONENT_TYPE_RSA_CERT 5 small_rsa_der
               ++ ro_cert_bytes CROS_PERSO_COMPONENT_TYPE_P256_CERT 5
                    unsigned_ecc_der).

Definition half_valid_region : list Z :=
  Eval vm_compute in
    half_valid_body
      ++ Sha256.hmac (Sha256.hmac bench_seed RSA_label) half_valid_body.

(** The bench chip with the factory region, on which the third commit,
    the one of the recovered seed, fails. *)
Definition seed_commit_fails : environment :=
  with_NvCommit (fun n => if Nat.eqb n 2 then 0 else 1)
    (bench_env factory_region).

(** Calls to the certificate verifier and to the NV store: what
    [tpm_endorse] does once the region check is behind it. *)
Definition is_verify_or_store (e : event) : bool :=
  match e with
  | X509Verify _ _ _ | HierarchyStartup | NV_DefineSpace _ _ _ _
  | NV_Write _ _ _ | NvWriteReserved _ | NvCommitted _ => true
  | _ => false
  end.

(** The three register writes of [flash_cert_region_enable]. *)
Definition cert_region_enable_events (cfg : chip_config) : list event :=
  [ RegWrite GLOBALSEC_FLASH_REGION6_BASE_ADDR (wrap32 RO_CERTS_START_ADDR);
    RegWrite GLOBALSEC_FLASH_REGION6_SIZE (wrap32 (RO_CERTS_REGION_SIZE - 1));
    RegWrite GLOBALSEC_FLASH_REGION6_CTRL
      (wrap32 (Z.lor (GC_GLOBALSEC_FLASH_REGION6_CTRL_EN_MASK cfg)
                     (GC_GLOBALSEC_FLASH_REGION6_CTRL_RD_EN_MASK cfg))) ].

Definition is_err_flags_read (e : event) : bool :=
  match e with RegRead KEYMGR_HKEY_ERR_FLAGS _ => true | _ => false end.

(** * util/cbi-util.c: the Cros Board Info utility

    The command-line front end of the utility.  C strings are lists of
    bytes without their terminator.  What [getopt_long] delivers is the
    sequence of its return values, each with the [optarg] it set;
    [strtoul] is the C library's, taken as a parameter: it returns the
    number it read and the rest of the string, the one [e] points to. *)

Module CbiUtil.

Definition UINT8_MAX : Z := 0xff.
Definition UINT16_MAX : Z := 0xffff.
Definition UINT32_MAX : Z := 0xffffffff.

Definition REQUIRED_MASK_BOARD_VERSION : Z := Z.shiftl 1 0.
Definition REQUIRED_MASK_OEM_ID : Z := Z.shiftl 1 1.
Definition REQUIRED_MASK_SKU_ID : Z := Z.shiftl 1 2.
Definition REQUIRED_MASK_SIZE : Z := Z.shiftl 1 3.
Definition REQUIRED_MASK_FILENAME : Z := Z.shiftl 1 4.
Definition REQUIRED_MASK_CREATE : Z :=
  Z.lor (Z.lor (Z.lor (Z.lor REQUIRED_MASK_BOARD_VERSION REQUIRED_MASK_OEM_ID)
                      REQUIRED_MASK_SKU_ID)
               REQUIRED_MASK_SIZE)
        REQUIRED_MASK_FILENAME.
Definition REQUIRED_MASK_SHOW : Z := REQUIRED_MASK_FILENAME.

Record board_info := {
  version : Z;
  oem_id : Z;
  sku_id : Z
}.

(** Command line options *)
Definition OPT_MODE_NONE : Z := 0.
Definition OPT_MODE_CREATE : Z := 1.
Definition OPT_MODE_SHOW : Z := 2.
Definition OPT_BOARD_VERSION : Z := 3.
Definition OPT_OEM_ID : Z := 4.
Definition OPT_SKU_ID : Z := 5.
Definition OPT_SIZE : Z := 6.
Definition OPT_ERASE_BYTE : Z := 7.
Definition OPT_SHOW_ALL : Z := 8.
Definition OPT_HELP : Z := 9.

(** The character ['?'] that [getopt_long] returns for an unknown option
    or a missing value. *)
Definition OPT_UNKNOWN : Z := 63.

Definition get_field_size (value : Z) : Z :=
  if value <=? UINT8_MAX then 1
  else if value <=? UINT16_MAX then 2
  else 4.

(** The [switch (d->size)] of [print_integer] on a little-endian host:
    the value it prints for a field of [size] bytes stored at [value], or
    nothing when the size is not supported. *)
Definition print_integer_value (size : Z) (value : list Z) : option Z :=
  if size =? 1 then Some (nth 0 value 0)
  else if size =? 2 then Some (nth 0 value 0 + 2 ^ 8 * nth 1 value 0)
  else if size =? 4 then Some (le_word value)
  else None.

(** The [size] bytes at [&bi->field] that [do_create] hands to
    [cbi_set_data], on a little-endian host. *)
Definition field_bytes (field : Z) : list Z :=
  firstn (Z.to_nat (get_field_size field)) (le_bytes field).

(** The local variables of [main]. *)
Record main_locals := {
  mode : Z;
  cbi_filename : option (list Z);
  bi : board_info;
  size : Z;
  erase : Z;
  show_all : Z;
  parse_error : Z;
  required_mask : Z;
  set_mask : Z
}.

Definition set_parse_error (st : main_locals) : main_locals :=
  {| mode := mode st; cbi_filename := cbi_filename st; bi := bi st;
     size := size st; erase := erase st; show_all := show_all st;
     parse_error := 1;
     required_mask := required_mask st; set_mask := set_mask st |}.

Definition set_mode (st : main_locals) (i : Z) (optarg : list Z)
    (required : Z) : main_locals :=
  {| mode := i; cbi_filename := Some optarg; bi := bi st;
     size := size st; erase := erase st; show_all := show_all st;
     parse_error := parse_error st;
     required_mask := required;
     set_mask := Z.lor (set_mask st) REQUIRED_MASK_FILENAME |}.

Definition set_bi (st : main_locals) (b : board_info) (mask : Z)
  : main_locals :=
  {| mode := mode st; cbi_filename := cbi_filename st; bi := b;
     size := size st; erase := erase st; show_all := show_all st;
     parse_error := parse_error st;
     required_mask := required_mask st;
     set_mask := Z.lor (set_mask st) mask |}.

Definition set_size (st : main_locals) (v : Z) : main_locals :=
  {| mode := mode st; cbi_filename := cbi_filename st; bi := bi st;
     size := v; erase := erase st; show_all := show_all st;
     parse_error := parse_error st;
     required_mask := required_mask st;
     set_mask := Z.lor (set_mask st) REQUIRED_MASK_SIZE |}.

Definition set_erase (st : main_locals) (v : Z) : main_locals :=
  {| mode := mode st; cbi_filename := cbi_filename st; bi := bi st;
     size := size st; erase := v; show_all := show_all st;
     parse_error := parse_error st;
     required_mask := required_mask st; set_mask := set_mask st |}.

Definition set_show_all (st : main_locals) : main_locals :=
  {| mode := mode st; cbi_filename := cbi_filename st; bi := bi st;
     size := size st; erase := erase st; show_all := 1;
     parse_error := parse_error st;
     required_mask := required_mask st; set_mask := set_mask st |}.

(** How [main] ends: with a return of its own, or with the call whose
    result it returns. *)
Inductive main_exit :=
| Return (code : Z)
| Return_do_create (filename : option (list Z)) (size erase : Z)
    (bi : board_info)
| Return_do_show (filename : option (list Z)) (show_all : Z).

Definition is_empty (s : list Z) : bool :=
  match s with [] => true | _ => false end.

Section Main.

Variable strtoul : list Z -> Z * list Z.

(** [val > limit || !*optarg || (e && *e)] after
    [val = strtoul (optarg, &e, 0)] *)
Definition invalid_number (limit : Z) (optarg : list Z) : bool :=
  let (val, e) := strtoul optarg in
  (val >? limit) || is_empty optarg || negb (is_empty e).

(** One turn of the [while] loop: the [switch (i)].  The result is the
    locals after it, or the value [main] returns from inside the loop. *)
Definition option_case (i : Z) (optarg : list Z) (st : main_locals)
  : main_locals + Z :=
  if i =? OPT_UNKNOWN then
    (* Unhandled option *)
    inl (set_parse_error st)
  else if i =? OPT_HELP then
    inr (if parse_error st =? 0 then 0 else 1)
  else if i =? OPT_MODE_CREATE then
    inl (set_mode st i optarg REQUIRED_MASK_CREATE)
  else if i =? OPT_MODE_SHOW then
    inl (set_mode st i optarg REQUIRED_MASK_SHOW)
  else if i =? OPT_BOARD_VERSION then
    let val := fst (strtoul optarg) in
    let st := if invalid_number UINT32_MAX optarg
              then set_parse_error st else st in
    inl (set_bi st {| version := wrap32 val; oem_id := oem_id (bi st);
                      sku_id := sku_id (bi st) |}
           REQUIRED_MASK_BOARD_VERSION)
  else if i =? OPT_OEM_ID then
    let val := fst (strtoul optarg) in
    let st := if invalid_number UINT32_MAX optarg
              then set_parse_error st else st in
    inl (set_bi st {| version := version (bi st); oem_id := wrap32 val;
                      sku_id := sku_id (bi st) |}
           REQUIRED_MASK_OEM_ID)
  else if i =? OPT_SKU_ID then
    let val := fst (strtoul optarg) in
    let st := if invalid_number UINT32_MAX optarg
              then set_parse_error st else st in
    inl (set_bi st {| version := version (bi st); oem_id := oem_id (bi st);
                      sku_id := wrap32 val |}
           REQUIRED_MASK_SKU_ID)
  else if i =? OPT_SIZE then
    let val := fst (strtoul optarg) in
    let st := if invalid_number UINT16_MAX optarg
              then set_parse_error st else st in
    inl (set_size st (wrap32 val))
  else if i =? OPT_ERASE_BYTE then
    let (val, e) := strtoul optarg in
    let st := set_erase st (wrap8 val) in
    inl (if is_empty optarg || negb (is_empty e)
         then set_parse_error st else st)
  else if i =? OPT_SHOW_ALL then
    inl (set_show_all st)
  else inl st.

(** [while ((i = getopt_long (...)) != -1) switch (i) ...] over what
    [getopt_long] still has to deliver. *)
Fixpoint option_loop (opts : list (Z * list Z)) (st : main_locals)
  : main_locals + Z :=
  match opts with
  | [] => inl st
  | (i, optarg) :: rest =>
      match option_case i optarg st with
      | inl st' => option_loop rest st'
      | inr code => inr code
      end
  end.

Definition main_initial : main_locals :=
  {| mode := OPT_MODE_NONE; cbi_filename := None;
     bi := {| version := 0; oem_id := 0; sku_id := 0 |};
     size := 0; erase := 0xff; show_all := 0; parse_error := 0;
     required_mask := 0; set_mask := 0 |}.

Definition main (opts : list (Z * list Z)) : main_exit :=
  match option_loop opts main_initial with
  | inr code => Return code
  | inl st =>
      if negb (parse_error st =? 0) then Return 1 else
      if negb (set_mask st =? required_mask st)
      then Return 1  (* Missing required arguments *)
      else
      if mode st =? OPT_MODE_CREATE
      then Return_do_create (cbi_filename st) (size st) (erase st) (bi st)
      else if mode st =? OPT_MODE_SHOW
      then Return_do_show (cbi_filename st) (show_all st)
      else Return 1  (* Must specify a mode. *)
  end.

End Main.

End CbiUtil.

(** ** Vocabulary for the command line *)

(** The last option among [codes] on the command line. *)
Fixpoint last_opt (codes : list Z) (opts : list (Z * list Z))
  : option (Z * list Z) :=
  match opts with
  | [] => None
  | o :: rest =>
      match last_opt codes rest with
      | Some o' => Some o'
      | None => if existsb (Z.eqb (fst o)) codes then Some o else None
      end
  end.

Definition has_opt (code : Z) (opts : list (Z * list Z)) : bool :=
  existsb (fun o => fst o =? code) opts.

(** An option that makes [main] set [parse_error]. *)
Definition bad_opt (strtoul : list Z -> Z * list Z) (o : Z * list Z) : bool :=
  let (i, optarg) := o in
  (i =? CbiUtil.OPT_UNKNOWN)
  || (((i =? CbiUtil.OPT_BOARD_VERSION) || (i =? CbiUtil.OPT_OEM_ID)
       || (i =? CbiUtil.OPT_SKU_ID))
      && CbiUtil.invalid_number strtoul CbiUtil.UINT32_MAX optarg)
  || ((i =? CbiUtil.OPT_SIZE)
      && CbiUtil.invalid_number strtoul CbiUtil.UINT16_MAX optarg)
  || ((i =? CbiUtil.OPT_ERASE_BYTE)
      && (CbiUtil.is_empty optarg
          || negb (CbiUtil.is_empty (snd (strtoul optarg))))).

(** The bit an option sets in [set_mask]. *)
Definition opt_mask (o : Z * list Z) : Z :=
  let i := fst o in
  if (i =? CbiUtil.OPT_MODE_CREATE) || (i =? CbiUtil.OPT_MODE_SHOW)
  then CbiUtil.REQUIRED_MASK_FILENAME
  else if i =? CbiUtil.OPT_BOARD_VERSION
  then CbiUtil.REQUIRED_MASK_BOARD_VERSION
  else if i =? CbiUtil.OPT_OEM_ID then CbiUtil.REQUIRED_MASK_OEM_ID
  else if i =? CbiUtil.OPT_SKU_ID then CbiUtil.REQUIRED_MASK_SKU_ID
  else if i =? CbiUtil.OPT_SIZE then CbiUtil.REQUIRED_MASK_SIZE
  else 0.

Definition opts_mask (opts : list (Z * list Z)) : Z :=
  fold_right (fun o m => Z.lor (opt_mask o) m) 0 opts.

(** [set_mask] as the five flags it consists of. *)
Definition mask_bits (board_version oem_id sku_id size filename : bool) : Z :=
  Z.b2z board_version + 2 * Z.b2z oem_id + 4 * Z.b2z sku_id
  + 8 * Z.b2z size + 16 * Z.b2z filename.

(** A [strtoul] for arguments written as plain decimal digits, to run
    the model with: on those it returns what the C library's returns;
    prefixes ([0x], [0]), signs and leading blanks are not handled. *)
Fixpoint decimal_digits (acc : Z) (s : list Z) : Z * list Z :=
  match s with
  | c :: rest =>
      if (48 <=? c) && (c <=? 57)
      then decimal_digits (10 * acc + (c - 48)) rest
      else (acc, s)
  | [] => (acc, [])
  end.

Definition decimal_strtoul (s : list Z) : Z * list Z := decimal_digits 0 s.

(** The command line [--create f --board_version 1 --oem_id 2 --sku_id 3
    --size 256] as [getopt_long] delivers it. *)
Definition create_command_line : list (Z * list Z) :=
  [ (CbiUtil.OPT_MODE_CREATE, [102]);
    (CbiUtil.OPT_BOARD_VERSION, [49]);
    (CbiUtil.OPT_OEM_ID, [50]);
    (CbiUtil.OPT_SKU_ID, [51]);
    (CbiUtil.OPT_SIZE, [50; 53; 54]) ].

(** The command line [--show f --all]. *)
Definition show_command_line : list (Z * list Z) :=
  [ (CbiUtil.OPT_MODE_SHOW, [102]); (CbiUtil.OPT_SHOW_ALL, []) ].

(** The bench chip with another HMAC engine. *)
Definition with_HMAC_SHA256 (h : list Z -> list Z -> list Z)
    (e : environment) : environment :=
  {| flash := flash e; stack_eps := stack_eps e; stack_frk2 := stack_frk2 e;
     keymgr_itop := keymgr_itop e; keymgr_err_flags := keymgr_err_flags e;
     keymgr_frr0 := keymgr_frr0 e; info_word := info_word e;
     DCRYPTO_x509_verify := DCRYPTO_x509_verify e;
     HMAC_SHA256 := h;
     TPM2_NV_DefineSpace := TPM2_NV_DefineSpace e;
     TPM2_NV_Write := TPM2_NV_Write e; NvCommit := NvCommit e |}.

(** An HMAC engine whose digest depends on the first 64-byte block of the
    message only. *)
Definition first_block_hmac (key msg : list Z) : list Z :=
  Sha256.hmac key (firstn 64 msg).

(** The factory region tagged by that engine, and the chip that has
    both. *)
Definition first_block_region : list Z :=
  Eval vm_compute in
    factory_body
      ++ first_block_hmac (first_block_hmac bench_seed RSA_label) factory_body.

Definition first_block_env : environment :=
  with_HMAC_SHA256 first_block_hmac (bench_env first_block_region).

(** * Properties *)

(** ** The reference hash agrees with the published test vectors *)

Example sha256_abc :
  Sha256.sha256 [97; 98; 99]
  = [0xba; 0x78; 0x16; 0xbf; 0x8f; 0x01; 0xcf; 0xea;
     0x41; 0x41; 0x40; 0xde; 0x5d; 0xae; 0x22; 0x23;
     0xb0; 0x03; 0x61; 0xa3; 0x96; 0x17; 0x7a; 0x9c;
     0xb4; 0x10; 0xff; 0x61; 0xf2; 0x00; 0x15; 0xad].
Proof. vm_compute. reflexivity. Qed.

(** RFC 4231, test case 2: key "Jefe", data "what do ya want for
    nothing?". *)
Example hmac_rfc4231_case2 :
  Sha256.hmac [74; 101; 102; 101]
    [119; 104; 97; 116; 32; 100; 111; 32; 121; 97; 32; 119; 97; 110; 116;
     32; 102; 111; 114; 32; 110; 111; 116; 104; 105; 110; 103; 63]
  = [0x5b; 0xdc; 0xc1; 0x46; 0xbf; 0x60; 0x75; 0x4e;
     0x6a; 0x04; 0x24; 0x26; 0x08; 0x95; 0x75; 0xc7;
     0x5a; 0x00; 0x3f; 0x08; 0x9d; 0x27; 0x39; 0x83;
     0x9d; 0xec; 0x58; 0xb9; 0x64; 0xec; 0x38; 0x43].
Proof. vm_compute. reflexivity. Qed.

(** ** Basic facts *)

Lemma bytes_eqb_eq (a b : list Z) : bytes_eqb a b = true <-> a = b.
Proof.
  revert b; induction a as [|x a IH]; intros [|y b]; simpl;
    try (split; [discriminate | congruence]); try tauto.
  rewrite andb_true_iff, Z.eqb_eq, IH. split.
  - intros [-> ->]; reflexivity.
  - intros E; injection E; auto.
Qed.

Lemma memcmp_zero_iff (a b : list Z) : memcmp a b = 0 <-> a = b.
Proof.
  unfold memcmp. destruct (bytes_eqb a b) eqn:E.
  - apply bytes_eqb_eq in E. tauto.
  - split; [discriminate |].
    intros ->. assert (bytes_eqb b b = true) by (apply bytes_eqb_eq; auto).
    congruence.
Qed.

Lemma memset0_zero (buf : list Z) : Forall (fun b => b = 0) (memset0 buf).
Proof.
  unfold memset0. induction buf; simpl; constructor; auto.
Qed.

Lemma last_write_app (r : register) (a b : list event) :
  last_write r (a ++ b)
  = match last_write r b with
    | Some v => Some v
    | None => last_write r a
    end.
Proof.
  induction a as [|e a IH]; simpl.
  - destruct (last_write r b); reflexivity.
  - rewrite IH. destruct (last_write r b); reflexivity.
Qed.

Lemma last_write_none (r : register) (tr : list event) :
  Forall (fun e => writes_register r e = false) tr -> last_write r tr = None.
Proof.
  induction 1 as [|e tr He _ IH]; simpl; [reflexivity|].
  rewrite IH. destruct e; try reflexivity. simpl in He. rewrite He.
  reflexivity.
Qed.

(** ** Reasoning about what a computation adds to the trace *)

Lemma emits_ret {A} (P : event -> Prop) (a : A) : emits P (ret a).
Proof. intros w. exists []. simpl. rewrite app_nil_r. auto. Qed.

Lemma emits_hang {A} (P : event -> Prop) : emits P (@hang A).
Proof. intros w. exists []. simpl. rewrite app_nil_r. auto. Qed.

Lemma emits_emit (P : event -> Prop) (e : event) : P e -> emits P (emit e).
Proof. intros H w. exists [e]. simpl. auto. Qed.

Lemma emits_get_trace (P : event -> Prop) : emits P get_trace.
Proof. intros w. exists []. simpl. rewrite app_nil_r. auto. Qed.

Lemma emits_set_gp_EPSeed (P : event -> Prop) (seed : list Z) :
  emits P (set_gp_EPSeed seed).
Proof. intros w. exists []. simpl. rewrite app_nil_r. auto. Qed.

Lemma emits_bind {A B} (P : event -> Prop) (m : M A) (k : A -> M B) :
  emits P m -> (forall a, emits P (k a)) -> emits P (bind m k).
Proof.
  intros Hm Hk w. unfold bind. destruct (Hm w) as [s1 [E1 F1]].
  destruct (m w) as [[a|] w1]; simpl in *.
  - destruct (Hk a w1) as [s2 [E2 F2]]. exists (s1 ++ s2).
    rewrite E2, E1, app_assoc. split; [reflexivity|].
    apply Forall_app; auto.
  - exists s1; auto.
Qed.

Lemma emits_weaken {A} (P Q : event -> Prop) (m : M A) :
  (forall e, P e -> Q e) -> emits P m -> emits Q m.
Proof.
  intros H Hm w. destruct (Hm w) as [s [E F]]. exists s. split; auto.
  eapply Forall_impl; eauto.
Qed.

Lemma returns_ret {A} (a : A) : returns (ret a).
Proof. intros w. exists a. reflexivity. Qed.

Lemma returns_emit (e : event) : returns (emit e).
Proof. intros w. exists tt. reflexivity. Qed.

Lemma returns_get_trace : returns get_trace.
Proof. intros w. eexists. reflexivity. Qed.

Lemma returns_set_gp_EPSeed (seed : list Z) : returns (set_gp_EPSeed seed).
Proof. intros w. exists tt. reflexivity. Qed.

Lemma returns_bind {A B} (m : M A) (k : A -> M B) :
  returns m -> (forall a, returns (k a)) -> returns (bind m k).
Proof.
  intros Hm Hk w. unfold bind. destruct (Hm w) as [a E].
  destruct (m w) as [[a'|] w1]; simpl in E; [|discriminate].
  apply Hk.
Qed.

(** Break a goal [emits P m] or [returns m] down along the binds and the
    branches of [m]. *)
Ltac step_emits :=
  lazymatch goal with
  | |- emits _ (ret _) => apply emits_ret
  | |- emits _ hang => apply emits_hang
  | |- emits _ get_trace => apply emits_get_trace
  | |- emits _ (set_gp_EPSeed _) => apply emits_set_gp_EPSeed
  | |- emits _ (emit _) => apply emits_emit; reflexivity
  | |- emits _ (bind _ _) => apply emits_bind; [| intro]
  | |- emits _ (if ?b then _ else _) => destruct b
  | |- emits _ (match ?x with _ => _ end) => destruct x
  | |- returns (ret _) => apply returns_ret
  | |- returns get_trace => apply returns_get_trace
  | |- returns (set_gp_EPSeed _) => apply returns_set_gp_EPSeed
  | |- returns (emit _) => apply returns_emit
  | |- returns (bind _ _) => apply returns_bind; [| intro]
  | |- returns (if ?b then _ else _) => destruct b
  | |- returns (match ?x with _ => _ end) => destruct x
  end.

Create HintDb fw discriminated.

Ltac solve_emits := repeat (step_emits || solve [eauto with fw]).

(** ** What each function adds to the trace *)

Section Alphabets.

Variable cfg : chip_config.
Variable env : environment.

Let keymgr (e : event) : Prop := is_keymgr_access e = true.
Let hw (e : event) : Prop := is_hw_access e = true.

Lemma poll_itop_emits (reads : list Z) : emits keymgr (poll_itop reads).
Proof.
  induction reads as [|v reads IH]; simpl; unfold reg_read; solve_emits.
Qed.

Lemma hw_key_ladder_step_emits (cert : Z) :
  emits keymgr (hw_key_ladder_step cfg env cert).
Proof.
  pose proof poll_itop_emits.
  unfold hw_key_ladder_step, calls_so_far, reg_write, reg_read.
  solve_emits.
Qed.

Lemma frk2_cert_25_loop_emits (n : nat) :
  emits keymgr (frk2_cert_25_loop cfg env n).
Proof.
  pose proof hw_key_ladder_step_emits.
  induction n as [|n IH]; simpl; solve_emits.
Qed.

Lemma compute_frk2_emits (frk2 : list Z) :
  emits keymgr (compute_frk2 cfg env frk2).
Proof.
  pose proof hw_key_ladder_step_emits. pose proof frk2_cert_25_loop_emits.
  unfold compute_frk2, read_frr0, reg_write.
  solve_emits.
Qed.

Lemma keymgr_is_hw (e : event) : keymgr e -> hw e.
Proof. unfold keymgr, hw. destruct e as [[]|[]| | | | | | | | |]; simpl; congruence. Qed.

Lemma read_eps_words_emits (offsets eps : list Z) :
  emits hw (read_eps_words cfg env offsets eps).
Proof.
  revert eps. induction offsets as [|i rest IH]; intros eps; simpl;
    unfold flash_physical_info_read_word; solve_emits.
Qed.

Lemma get_decrypted_eps_emits (eps : list Z) :
  emits hw (get_decrypted_eps cfg env eps).
Proof.
  pose proof read_eps_words_emits.
  assert (forall frk2, emits hw (compute_frk2 cfg env frk2))
    by (intro; eapply emits_weaken;
        [apply keymgr_is_hw | apply compute_frk2_emits]).
  unfold get_decrypted_eps, flash_info_read_enable, flash_info_read_disable,
    reg_write.
  solve_emits.
Qed.

End Alphabets.

(** ** The key ladder *)

Section KeyLadder.

Variable cfg : chip_config.
Variable env : environment.

Lemma poll_itop_run (reads : list Z) (w : world) :
  exists polls,
    trace (snd (poll_itop reads w))
    = trace w ++ map (RegRead KEYMGR_SHA_ITOP) polls
    /\ gp_EPSeed (snd (poll_itop reads w)) = gp_EPSeed w
    /\ match fst (poll_itop reads w) with
       | Done _ => completed_polls polls
       | Hang => Forall (fun x => x = 0) polls
       end.
Proof.
  revert w. induction reads as [|v reads IH]; intros w; simpl.
  - exists []. simpl. rewrite app_nil_r. auto.
  - unfold bind, reg_read, emit, ret; simpl.
    destruct (wrap32 v =? 0) eqn:E.
    + apply Z.eqb_eq in E.
      destruct (IH {| trace := trace w ++ [RegRead KEYMGR_SHA_ITOP (wrap32 v)];
                      gp_EPSeed := gp_EPSeed w |}) as [polls [Et [Eg Ho]]].
      exists (wrap32 v :: polls). simpl in *.
      rewrite Et, <- app_assoc. repeat split; auto.
      destruct (fst (poll_itop reads _)).
      * destruct Ho as [zeros [x [-> [Hz Hx]]]].
        exists (wrap32 v :: zeros), x. repeat split; auto.
      * constructor; auto.
    + apply Z.eqb_neq in E. exists [wrap32 v]. simpl. repeat split; auto.
      exists [], (wrap32 v). repeat split; auto.
Qed.

(** One step, as a trace: a completed step adds [ladder_step_events] and
    returns whether the flags were set; a step that never completes adds
    [stuck_step_events]. *)
Lemma hw_key_ladder_step_run (cert : Z) (w : world) :
  exists polls,
    gp_EPSeed (snd (hw_key_ladder_step cfg env cert w)) = gp_EPSeed w
    /\ match fst (hw_key_ladder_step cfg env cert w) with
       | Done fault =>
           exists flags,
             trace (snd (hw_key_ladder_step cfg env cert w))
             = trace w ++ ladder_step_events cfg cert polls flags
             /\ completed_polls polls
             /\ fault = (if flags =? 0 then 0 else 1)
       | Hang =>
           trace (snd (hw_key_ladder_step cfg env cert w))
           = trace w ++ stuck_step_events cfg cert polls
           /\ Forall (fun x => x = 0) polls
       end.
Proof.
  unfold hw_key_ladder_step, calls_so_far, reg_write, reg_read,
    bind, get_trace, emit, ret. simpl.
  set (n := count_events is_use_cert_write (trace w)).
  match goal with
  | |- context [poll_itop ?r ?w0] =>
      destruct (poll_itop_run r w0) as [polls [Et [Eg Ho]]];
      destruct (poll_itop r w0) as [[v|] w1]
  end; simpl in *; exists polls.
  - split; [assumption|].
    eexists. split; [| split; [exact Ho | reflexivity]].
    rewrite Et. unfold ladder_step_events.
    repeat rewrite <- app_assoc. simpl. reflexivity.
  - split; [assumption|]. split; [| exact Ho].
    rewrite Et. unfold stuck_step_events.
    repeat rewrite <- app_assoc. simpl. reflexivity.
Qed.

End KeyLadder.

Section LadderRuns.

Variable cfg : chip_config.
Variable env : environment.

Lemma executed_events_cons (s : ladder_step_record)
    (steps : list ladder_step_record) :
  executed_events cfg (s :: steps)
  = ladder_step_events cfg (step_cert s) (step_polls s) (step_flags s)
      ++ executed_events cfg steps.
Proof. reflexivity. Qed.

(** A run of the ladder over [certs], as a trace. *)
Lemma run_ladder_run (certs : list Z) (w : world) :
  exists steps tail,
    trace (snd (run_ladder cfg env certs w))
    = trace w ++ executed_events cfg steps ++ tail
    /\ gp_EPSeed (snd (run_ladder cfg env certs w)) = gp_EPSeed w
    /\ map step_cert steps = firstn (length steps) certs
    /\ Forall (fun s => completed_polls (step_polls s)) steps
    /\ match fst (run_ladder cfg env certs w) with
       | Done ok =>
           tail = []
           /\ ((ok = 1 /\ map step_cert steps = certs
                /\ Forall (fun s => step_flags s = 0) steps)
               \/ (ok = 0
                   /\ exists before last,
                        steps = before ++ [last]
                        /\ Forall (fun s => step_flags s = 0) before
                        /\ step_flags last <> 0))
       | Hang =>
           Forall (fun s => step_flags s = 0) steps
           /\ exists cert polls,
                nth_error certs (length steps) = Some cert
                /\ tail = stuck_step_events cfg cert polls
                /\ Forall (fun x => x = 0) polls
       end.
Proof.
  revert w. induction certs as [|c certs IH]; intros w.
  - exists [], []. simpl. rewrite app_nil_r. repeat split; auto.
  - cbn [run_ladder]. unfold bind at 1 2 3.
    destruct (hw_key_ladder_step_run cfg env c w) as [polls [Eg Ho]].
    destruct (hw_key_ladder_step cfg env c w) as [[fault|] w1];
      cbn [fst snd] in *.
    + destruct Ho as [flags [Et [Hp Hf]]].
      destruct (flags =? 0) eqn:E; subst fault; cbn [Z.eqb].
      * apply Z.eqb_eq in E.
        destruct (IH w1) as [steps [tail [Et' [Eg' [Hc [Hall Ho']]]]]].
        exists ((c, polls, flags) :: steps), tail.
        rewrite Et', Et, Eg', Eg, executed_events_cons.
        cbn [map length firstn step_cert step_polls step_flags fst snd].
        repeat rewrite <- app_assoc. split; [reflexivity|].
        split; [reflexivity|]. split; [congruence|].
        split; [constructor; auto|].
        destruct (fst (run_ladder cfg env certs w1)).
        -- destruct Ho' as [-> [[-> [Hm Hz]] | [-> [before [last [-> [Hz Hl]]]]]]];
             (split; [reflexivity|]).
           ++ left. repeat split; [congruence | constructor; auto].
           ++ right. split; [reflexivity|].
              exists ((c, polls, flags) :: before), last.
              repeat split; auto.
        -- destruct Ho' as [Hz [cert [polls' [Hn [-> Hp']]]]].
           split; [constructor; auto|].
           exists cert, polls'. auto.
      * apply Z.eqb_neq in E.
        exists [(c, polls, flags)], []. unfold ret; cbn [fst snd].
        rewrite Et, executed_events_cons.
        cbn [map length firstn step_cert step_polls step_flags fst snd
             executed_events flat_map].
        rewrite !app_nil_r. repeat split; auto.
        right. split; [reflexivity|].
        exists [], (c, polls, flags). repeat split; auto.
    + destruct Ho as [Et Hz].
      exists [], (stuck_step_events cfg c polls).
      cbn [executed_events flat_map app map length firstn nth_error].
      repeat split; auto.
      exists c, polls. auto.
Qed.

Lemma run_ladder_repeat_25 (n : nat) (rest : list Z) (w : world) :
  run_ladder cfg env (repeat KEYMGR_CERT_25 n ++ rest) w
  = match frk2_cert_25_loop cfg env n w with
    | (Done completed, w') =>
        if completed =? 0 then (Done 0, w') else run_ladder cfg env rest w'
    | (Hang, w') => (Hang, w')
    end.
Proof.
  revert w. induction n as [|n IH]; intros w; simpl.
  - reflexivity.
  - unfold bind.
    destruct (hw_key_ladder_step cfg env KEYMGR_CERT_25 w) as [[fault|] w1];
      [|reflexivity].
    destruct (fault =? 0); [apply IH | reflexivity].
Qed.

(** [compute_frk2] runs the ladder over [frk2_cert_sequence]. *)
Lemma compute_frk2_full_derivation (frk2 : list Z) (w : world) :
  compute_frk2 cfg env frk2 w = full_derivation cfg env frk2 w.
Proof.
  unfold compute_frk2, full_derivation, frk2_cert_sequence.
  change (Z.to_nat (k_cr50_max_fw_major_version - K_CROS_FW_MAJOR_VERSION))
    with (Z.to_nat (254 - 0)).
  set (n := Z.to_nat (254 - 0)).
  cbn [app run_ladder].
  unfold KEYMGR_CERT_0, KEYMGR_CERT_3, KEYMGR_CERT_4, KEYMGR_CERT_5,
    KEYMGR_CERT_7, KEYMGR_CERT_15, KEYMGR_CERT_20, KEYMGR_CERT_26.
  unfold bind, reg_write, emit. cbv beta iota.
  repeat
    match goal with
    | |- context [hw_key_ladder_step cfg env ?c ?w0] =>
        let fault := fresh "fault" in
        destruct (hw_key_ladder_step cfg env c w0) as [[fault|] ?];
        [destruct (fault =? 0); cbn [negb]; cbv beta iota |];
        try reflexivity
    end.
  rewrite (run_ladder_repeat_25 n [26]).
  destruct (frk2_cert_25_loop cfg env n _) as [[completed|] ?];
    [|reflexivity].
  destruct (completed =? 0); [reflexivity|].
  cbn [run_ladder]. unfold bind.
  match goal with
  | |- context [hw_key_ladder_step cfg env ?c ?w0] =>
      let fault := fresh "fault" in
      destruct (hw_key_ladder_step cfg env c w0) as [[fault|] ?];
      [destruct (fault =? 0) |]; reflexivity
  end.
Qed.

End LadderRuns.

(** ** Termination on a responsive key ladder *)

Section Responsive.

Variable cfg : chip_config.
Variable env : environment.
Hypothesis responsive : ladder_responsive env.

Lemma poll_itop_returns (reads : list Z) :
  Exists (fun v => wrap32 v <> 0) reads -> returns (poll_itop reads).
Proof.
  induction reads as [|v reads IH]; intros H; [inversion H|].
  intros w. simpl. unfold bind, reg_read, emit, ret. simpl.
  destruct (wrap32 v =? 0) eqn:E; [|eexists; reflexivity].
  apply IH. inversion H; subst; [|assumption].
  apply Z.eqb_eq in E. contradiction.
Qed.

Lemma hw_key_ladder_step_returns (cert : Z) :
  returns (hw_key_ladder_step cfg env cert).
Proof.
  assert (forall n, returns (poll_itop (keymgr_itop env n)))
    by (intro; apply poll_itop_returns, responsive).
  unfold hw_key_ladder_step, calls_so_far, reg_write, reg_read.
  solve_emits.
Qed.

Lemma frk2_cert_25_loop_returns (n : nat) :
  returns (frk2_cert_25_loop cfg env n).
Proof.
  pose proof hw_key_ladder_step_returns.
  induction n as [|n IH]; simpl; solve_emits.
Qed.

Lemma compute_frk2_returns (frk2 : list Z) :
  returns (compute_frk2 cfg env frk2).
Proof.
  pose proof hw_key_ladder_step_returns.
  pose proof frk2_cert_25_loop_returns.
  unfold compute_frk2, read_frr0, reg_write. solve_emits.
Qed.

Lemma read_eps_words_returns (offsets eps : list Z) :
  returns (read_eps_words cfg env offsets eps).
Proof.
  revert eps. induction offsets as [|i rest IH]; intros eps; simpl;
    unfold flash_physical_info_read_word; solve_emits.
Qed.

Lemma get_decrypted_eps_returns (eps : list Z) :
  returns (get_decrypted_eps cfg env eps).
Proof.
  pose proof compute_frk2_returns. pose proof read_eps_words_returns.
  unfold get_decrypted_eps, flash_info_read_enable, flash_info_read_disable,
    reg_write.
  solve_emits.
Qed.

End Responsive.


(** On the bench chip the ladder runs all 262 steps; with the fault flags
    raised by the fourth step it stops after the certificates 0, 3, 4
    and 5. *)
Example ladder_runs_to_completion :
  let r := compute_frk2 bench_config (bench_env erased_region) (repeat 0 32)
             boot in
  (exists key, fst r = Done (1, key))
  /\ length (use_cert_writes (trace (snd r))) = 262%nat.
Proof. vm_compute. split; [eexists|]; reflexivity. Qed.

Example ladder_stops_at_fault :
  let env := with_err_flags (fun n => if (n =? 3)%nat then 0x10 else 0)
               (bench_env erased_region) in
  let r := compute_frk2 bench_config env (repeat 0 32) boot in
  fst r = Done (0, repeat 0 32)
  /\ use_cert_writes (trace (snd r)) = [0x40; 0x43; 0x44; 0x45].
Proof. vm_compute. split; reflexivity. Qed.

(** ** Runs of [tpm_endorse] that end before the region check *)

Lemma hw_access_not_other (e : event) :
  is_hw_access e = true ->
  is_hw_access e = true /\ is_hmac e = false /\ is_x509 e = false
  /\ is_nv e = false.
Proof. destruct e; simpl; auto; discriminate. Qed.

(** Every run of [tpm_endorse] that ends before the [do { } while (0)]
    block returns 0 or polls for ever, and has only touched registers and
    the information flash. *)
Lemma tpm_endorse_type_mismatch_run (cfg : chip_config) (env : environment)
    (w : world) :
  component_type (cert_info (rsa_record env))
    <> CROS_PERSO_COMPONENT_TYPE_RSA_CERT
  \/ component_type (cert_info (ecc_record env))
    <> CROS_PERSO_COMPONENT_TYPE_P256_CERT ->
  exists seg,
    trace (snd (tpm_endorse cfg env w)) = trace w ++ seg
    /\ Forall (fun e => is_hw_access e = true) seg
    /\ ((exists eps, fst (tpm_endorse cfg env w) = Done (0, eps))
        \/ (fst (tpm_endorse cfg env w) = Hang
            /\ exists w0,
                 fst (get_decrypted_eps cfg env (uninitialised_eps env) w0)
                 = Hang)).
Proof.
  intros Htype. unfold tpm_endorse.
  fold (rsa_record env). fold (ecc_record env).
  unfold flash_cert_region_enable, reg_write, bind, emit.
  cbv beta iota.
  set (w0 := {| trace := _; gp_EPSeed := _ |}).
  assert (Ew0 : exists seg0, trace w0 = trace w ++ seg0
                  /\ Forall (fun e => is_hw_access e = true) seg0).
  { eexists. subst w0. cbn [trace]. repeat rewrite <- app_assoc.
    split; [reflexivity|]. repeat constructor. }
  destruct Ew0 as [seg0 [E0 F0]].
  destruct (load32 (flash env) RO_CERTS_START_ADDR =? 0xFFFFFFFF).
  { exists seg0. cbn [fst snd ret]. unfold ret; cbn [fst snd]. eauto. }
  destruct (get_decrypted_eps_emits cfg env (uninitialised_eps env) w0)
    as [seg1 [E1 F1]].
  destruct (get_decrypted_eps cfg env (uninitialised_eps env) w0)
    as [[[[ok eps] frk2]|] w1] eqn:Eg; cbn [fst snd] in *.
  2:{ exists (seg0 ++ seg1). rewrite E1, E0, app_assoc.
      split; [reflexivity|]. split; [apply Forall_app; auto|].
      right. split; [reflexivity|]. exists w0. rewrite Eg. reflexivity. }
  assert (Hw1 : exists seg,
             trace w1 = trace w ++ seg
             /\ Forall (fun e => is_hw_access e = true) seg).
  { exists (seg0 ++ seg1). rewrite E1, E0, app_assoc.
    split; [reflexivity|]. apply Forall_app; auto. }
  destruct Hw1 as [seg [Es Fs]].
  assert (Hret : exists seg',
             trace (snd (@ret (Z * list Z) (0, eps) w1)) = trace w ++ seg'
             /\ Forall (fun e => is_hw_access e = true) seg'
             /\ ((exists eps', fst (@ret (Z * list Z) (0, eps) w1)
                               = Done (0, eps'))
                 \/ (fst (@ret (Z * list Z) (0, eps) w1) = Hang
                     /\ exists w0 : world,
                          fst (get_decrypted_eps cfg env
                                 (uninitialised_eps env) w0) = Hang))).
  { exists seg. cbn [fst snd ret]. unfold ret; cbn [fst snd]. eauto. }
  repeat match goal with
         | |- context [if ?b then ret (0, eps) else _] =>
             destruct b eqn:?; [exact Hret|]
         end.
  exfalso.
  repeat match goal with
         | H : negb _ = false |- _ =>
             apply negb_false_iff, Z.eqb_eq in H
         end.
  tauto.
Qed.

Lemma bench_ladder_responsive (region : list Z) :
  ladder_responsive (bench_env region).
Proof.
  intros n. simpl. apply Exists_cons_tl, Exists_cons_hd.
  vm_compute. discriminate.
Qed.

(** C8.  When the first record of the region is not typed as an RSA
    certificate, or the record [tpm_endorse] takes for the second one is
    not typed as a P256 certificate, [tpm_endorse] only touches registers
    and the information flash: no HMAC is computed, no certificate is
    verified, and the NV store is neither defined, written nor committed
    (so no fallback identity is installed).  It can only return 0, and on
    a key ladder that completes its steps it does return 0. *)
Theorem tpm_endorse_type_mismatch (cfg : chip_config) (env : environment)
    (w : world) :
  component_type (cert_info (rsa_record env))
    <> CROS_PERSO_COMPONENT_TYPE_RSA_CERT
  \/ component_type (cert_info (ecc_record env))
    <> CROS_PERSO_COMPONENT_TYPE_P256_CERT ->
  (exists seg,
     trace (snd (tpm_endorse cfg env w)) = trace w ++ seg
     /\ Forall (fun e => is_hw_access e = true /\ is_hmac e = false
                         /\ is_x509 e = false /\ is_nv e = false) seg)
  /\ (forall v eps, fst (tpm_endorse cfg env w) = Done (v, eps) -> v = 0)
  /\ (ladder_responsive env ->
      exists eps, fst (tpm_endorse cfg env w) = Done (0, eps)).
Proof.
  intros Htype.
  destruct (tpm_endorse_type_mismatch_run cfg env w Htype)
    as [seg [Et [Fs Ho]]].
  split; [| split].
  - exists seg. split; [assumption|].
    eapply Forall_impl; [|exact Fs]. apply hw_access_not_other.
  - intros v eps E. destruct Ho as [[eps' E'] | [E' _]]; congruence.
  - intros Hr. destruct Ho as [Hd | [_ [w0 Hh]]]; [assumption|].
    destruct (get_decrypted_eps_returns cfg env Hr (uninitialised_eps env) w0)
      as [a Ea].
    congruence.
Qed.

Lemma tpm_endorse_type_mismatch_witness :
  component_type (cert_info (ecc_record (bench_env mistyped_region)))
    <> CROS_PERSO_COMPONENT_TYPE_P256_CERT
  /\ exists eps,
       fst (tpm_endorse bench_config (bench_env mistyped_region) boot)
       = Done (0, eps).
Proof.
  assert (H : component_type
                (cert_info (ecc_record (bench_env mistyped_region)))
              <> CROS_PERSO_COMPONENT_TYPE_P256_CERT)
    by (vm_compute; discriminate).
  split; [exact H|].
  apply (tpm_endorse_type_mismatch bench_config (bench_env mistyped_region)
           boot (or_intror H)).
  apply bench_ladder_responsive.
Defined.

(** On a key ladder that completes its steps, [tpm_endorse] returns: the
    busy-wait of [hw_key_ladder_step] is its only loop without a bound. *)
Lemma tpm_endorse_returns (cfg : chip_config) (env : environment) :
  ladder_responsive env -> returns (tpm_endorse cfg env).
Proof.
  intros Hr.
  pose proof (get_decrypted_eps_returns cfg env Hr).
  assert (forall rsa_cert ecc_cert eps,
             returns (tpm_endorse_block cfg env rsa_cert ecc_cert eps)).
  { intros. unfold tpm_endorse_block, cert_region_memcmp, hmac_sha256,
      install_fixed_certs, handle_cert, validate_cert, store_cert, store_eps,
      calls_so_far.
    solve_emits. }
  unfold tpm_endorse, flash_cert_region_enable, reg_write.
  solve_emits.
Qed.

Example bench_tpm_endorse_returns :
  exists res, fst (tpm_endorse bench_config (bench_env oversize_region) boot)
              = Done res.
Proof. apply tpm_endorse_returns, bench_ladder_responsive. Qed.

(** ** Certificate validation *)

Section ValidateCert.

Variable cfg : chip_config.
Variable env : environment.

(** The value [validate_cert] returns, as one boolean expression. *)
Lemma validate_cert_value
    (ci : cros_perso_response_component_info_v0)
    (cr : cros_perso_certificate_response_v0) (eps : list Z) (w : world) :
  let der := bytes_at (cert cr) (cert_len cr) in
  fst (validate_cert cfg env ci cr eps w)
  = Done (if ((component_type ci =? CROS_PERSO_COMPONENT_TYPE_RSA_CERT)
              || (component_type ci =? CROS_PERSO_COMPONENT_TYPE_P256_CERT))
             && (cert_len cr <=? MAX_NV_BUFFER_SIZE cfg)
             && (negb (DCRYPTO_x509_verify env der
                         PROD_ENDORSEMENT_CA_RSA_PUB =? 0)
                 || negb (DCRYPTO_x509_verify env der
                            TEST_ENDORSEMENT_CA_RSA_PUB =? 0))
          then 1 else 0).
Proof.
  intros der. unfold validate_cert, bind, emit, ret. fold der.
  rewrite Z.gtb_ltb, Z.ltb_antisym.
  destruct (component_type ci =? CROS_PERSO_COMPONENT_TYPE_RSA_CERT);
    destruct (component_type ci =? CROS_PERSO_COMPONENT_TYPE_P256_CERT);
    cbn [negb andb orb]; try reflexivity;
    destruct (cert_len cr <=? MAX_NV_BUFFER_SIZE cfg);
    cbn [negb andb orb]; try reflexivity;
    destruct (DCRYPTO_x509_verify env der PROD_ENDORSEMENT_CA_RSA_PUB =? 0);
    cbn [negb andb orb fst]; try reflexivity;
    destruct (DCRYPTO_x509_verify env der TEST_ENDORSEMENT_CA_RSA_PUB =? 0);
    reflexivity.
Qed.

(** An oversize record is turned down before any verification. *)
Lemma validate_cert_oversize
    (ci : cros_perso_response_component_info_v0)
    (cr : cros_perso_certificate_response_v0) (eps : list Z) (w : world) :
  cert_len cr > MAX_NV_BUFFER_SIZE cfg ->
  validate_cert cfg env ci cr eps w = (Done 0, w).
Proof.
  intros H. apply Z.gtb_gt in H. unfold validate_cert. rewrite H.
  destruct (_ && _); reflexivity.
Qed.

End ValidateCert.

(** C4.  [validate_cert] accepts exactly when the component type is the
    RSA or the P256 certificate type, the declared length does not exceed
    [MAX_NV_BUFFER_SIZE], and the certificate verifies under the
    production root or under the test root.  An oversize record is
    rejected with the world untouched: no signature verification takes
    place. *)
Theorem validate_cert_accepts_iff (cfg : chip_config) (env : environment)
    (ci : cros_perso_response_component_info_v0)
    (cr : cros_perso_certificate_response_v0) (eps : list Z) (w : world) :
  exists v,
    fst (validate_cert cfg env ci cr eps w) = Done v
    /\ (v <> 0 <->
        (component_type ci = CROS_PERSO_COMPONENT_TYPE_RSA_CERT
         \/ component_type ci = CROS_PERSO_COMPONENT_TYPE_P256_CERT)
        /\ cert_len cr <= MAX_NV_BUFFER_SIZE cfg
        /\ (DCRYPTO_x509_verify env (bytes_at (cert cr) (cert_len cr))
              PROD_ENDORSEMENT_CA_RSA_PUB <> 0
            \/ DCRYPTO_x509_verify env (bytes_at (cert cr) (cert_len cr))
                 TEST_ENDORSEMENT_CA_RSA_PUB <> 0))
    /\ (cert_len cr > MAX_NV_BUFFER_SIZE cfg ->
        v = 0 /\ validate_cert cfg env ci cr eps w = (Done 0, w)).
Proof.
  eexists. split; [apply validate_cert_value|]. split.
  - match goal with |- (if ?b then _ else _) <> _ <-> ?P =>
      assert (Hb : b = true <-> P);
      [| destruct b; split; intros H; try tauto; try discriminate;
         apply Hb in H; discriminate]
    end.
    rewrite !andb_true_iff, !orb_true_iff, !negb_true_iff,
      !Z.eqb_eq, !Z.eqb_neq, Z.leb_le.
    tauto.
  - intros H. split; [| apply validate_cert_oversize; exact H].
    apply Z.gt_lt, Z.leb_gt in H. rewrite H, andb_false_r. reflexivity.
Qed.

Lemma validate_cert_accepts_iff_witness :
  cert_len oversize_record > MAX_NV_BUFFER_SIZE bench_config
  /\ validate_cert bench_config (bench_env [])
       (sample_info 1033 [0; 0; 0; 0; 0]) oversize_record bench_seed boot
     = (Done 0, boot).
Proof.
  assert (H : cert_len oversize_record > MAX_NV_BUFFER_SIZE bench_config)
    by reflexivity.
  split; [exact H|].
  destruct (validate_cert_accepts_iff bench_config (bench_env [])
              (sample_info 1033 [0; 0; 0; 0; 0]) oversize_record bench_seed
              boot) as [v [_ [_ Hover]]].
  apply Hover, H.
Defined.

(** C10.  [validate_cert] looks at the component type, the declared
    length and the certificate bytes only: two calls that agree on these
    give the same result and leave the same world, whatever the seed, the
    component size, the reserved bytes and the key identifier are. *)
Theorem validate_cert_ignores_unused (cfg : chip_config) (env : environment)
    (ci1 ci2 : cros_perso_response_component_info_v0)
    (cr1 cr2 : cros_perso_certificate_response_v0)
    (eps1 eps2 : list Z) (w : world) :
  component_type ci1 = component_type ci2 ->
  cert_len cr1 = cert_len cr2 ->
  bytes_at (cert cr1) (cert_len cr1) = bytes_at (cert cr2) (cert_len cr2) ->
  validate_cert cfg env ci1 cr1 eps1 w = validate_cert cfg env ci2 cr2 eps2 w.
Proof.
  intros Ht Hl Hb. unfold validate_cert. rewrite Ht, Hb, Hl. reflexivity.
Qed.

Lemma validate_cert_ignores_unused_witness :
  validate_cert bench_config (bench_env [])
    (sample_info 13 [0; 0; 0; 0; 0]) (sample_record [1; 2; 3; 4])
    bench_seed boot
  = validate_cert bench_config (bench_env [])
      (sample_info 999 [9; 9; 9; 9; 9]) (sample_record [5; 6; 7; 8])
      FIXED_ENDORSEMENT_SEED boot.
Proof.
  apply (validate_cert_ignores_unused bench_config (bench_env [])
           (sample_info 13 [0; 0; 0; 0; 0]) (sample_info 999 [9; 9; 9; 9; 9])
           (sample_record [1; 2; 3; 4]) (sample_record [5; 6; 7; 8])
           bench_seed FIXED_ENDORSEMENT_SEED boot);
    reflexivity.
Defined.

(** ** The NV store *)

Section Stores.

Variable env : environment.

Lemma store_eps_run (eps : list Z) (w : world) :
  exists c,
    store_eps env eps w
    = (Done c,
       {| trace := trace w
                   ++ store_eps_events
                        (firstn (Z.to_nat PRIMARY_SEED_SIZE) eps) c;
          gp_EPSeed := firstn (Z.to_nat PRIMARY_SEED_SIZE) eps |}).
Proof.
  unfold store_eps, calls_so_far, bind, set_gp_EPSeed, get_trace, emit, ret.
  cbv beta iota. cbn [trace gp_EPSeed].
  eexists. unfold store_eps_events. rewrite <- app_assoc. reflexivity.
Qed.

Lemma store_cert_run (type : Z) (cert : Z -> Z) (len : Z) (w : world) :
  exists d wr c,
    store_cert env type cert len w
    = (Done (if store_cert_ok d wr c then 1 else 0),
       {| trace := trace w
                   ++ store_cert_events
                        (if type =? CROS_PERSO_COMPONENT_TYPE_RSA_CERT
                         then EK_CERT_NV_START_INDEX
                         else EK_CERT_NV_START_INDEX + 1)
                        (bytes_at cert len) len d wr c;
          gp_EPSeed := gp_EPSeed w |}).
Proof.
  unfold store_cert, calls_so_far, bind, get_trace, emit, ret.
  cbv beta iota. cbn [trace gp_EPSeed]. unfold TPM_RC_SUCCESS.
  match goal with
  | |- context [TPM2_NV_DefineSpace env ?n] =>
      exists (TPM2_NV_DefineSpace env n);
      destruct (TPM2_NV_DefineSpace env n =? 0) eqn:Ed
  end; cbn [negb]; cbv beta iota; cbn [trace gp_EPSeed].
  - match goal with
    | |- context [TPM2_NV_Write env ?n] =>
        exists (TPM2_NV_Write env n);
        destruct (TPM2_NV_Write env n =? 0) eqn:Ew
    end; cbn [negb]; cbv beta iota; cbn [trace gp_EPSeed].
    + match goal with
      | |- context [NvCommit env ?n] =>
          exists (NvCommit env n); destruct (NvCommit env n =? 0) eqn:Ec
      end; cbn [negb]; cbv beta iota;
        unfold store_cert_events, store_cert_ok, ek_cert_attributes;
        rewrite Ed, Ew, Ec; cbn [andb negb app];
        repeat rewrite <- app_assoc; reflexivity.
    + exists 0. unfold store_cert_events, store_cert_ok, ek_cert_attributes.
      rewrite Ed, Ew. cbn [andb negb app].
      repeat rewrite <- app_assoc. reflexivity.
  - exists 0, 0. unfold store_cert_events, store_cert_ok, ek_cert_attributes.
    rewrite Ed. cbn [andb negb app].
    repeat rewrite <- app_assoc. reflexivity.
Qed.

Lemma fixed_rsa_cert_bytes :
  bytes_at (array_ptr FIXED_RSA_ENDORSEMENT_CERT)
    sizeof_FIXED_RSA_ENDORSEMENT_CERT
  = FIXED_RSA_ENDORSEMENT_CERT.
Proof. vm_compute. reflexivity. Qed.

Lemma fixed_ecc_cert_bytes :
  bytes_at (array_ptr FIXED_ECC_ENDORSEMENT_CERT)
    sizeof_FIXED_ECC_ENDORSEMENT_CERT
  = FIXED_ECC_ENDORSEMENT_CERT.
Proof. vm_compute. reflexivity. Qed.

Lemma fixed_seed_size :
  firstn (Z.to_nat PRIMARY_SEED_SIZE) FIXED_ENDORSEMENT_SEED
  = FIXED_ENDORSEMENT_SEED.
Proof. reflexivity. Qed.

(** The fallback installation in closed form. *)
Lemma install_fixed_certs_run (w : world) :
  exists c0 d1 w1 c1 d2 w2 c2,
    install_fixed_certs env w
    = (Done (if fallback_ok c0 d1 w1 c1 d2 w2 c2 then 1 else 0),
       {| trace := trace w ++ fallback_events c0 d1 w1 c1 d2 w2 c2;
          gp_EPSeed := FIXED_ENDORSEMENT_SEED |}).
Proof.
  unfold install_fixed_certs. unfold bind at 1.
  destruct (store_eps_run FIXED_ENDORSEMENT_SEED w) as [c0 ->].
  rewrite fixed_seed_size. exists c0. unfold fallback_events, fallback_ok.
  destruct (c0 =? 0) eqn:E0; cbn [negb andb].
  { exists 0, 0, 0, 0, 0, 0. rewrite app_nil_r. reflexivity. }
  unfold bind at 1.
  match goal with
  | |- context [store_cert env ?t ?p ?l ?w0] =>
      destruct (store_cert_run t p l w0) as [d1 [w1 [c1 ->]]]
  end.
  rewrite fixed_rsa_cert_bytes. exists d1, w1, c1.
  change (CROS_PERSO_COMPONENT_TYPE_RSA_CERT
          =? CROS_PERSO_COMPONENT_TYPE_RSA_CERT) with true.
  cbv iota. cbn [trace gp_EPSeed].
  destruct (store_cert_ok d1 w1 c1) eqn:E1; cbn [Z.eqb andb].
  2:{ exists 0, 0, 0. unfold ret. rewrite app_nil_r, <- app_assoc.
      reflexivity. }
  unfold bind at 1.
  match goal with
  | |- context [store_cert env ?t ?p ?l ?w0] =>
      destruct (store_cert_run t p l w0) as [d2 [w2 [c2 ->]]]
  end.
  rewrite fixed_ecc_cert_bytes. exists d2, w2, c2.
  change (CROS_PERSO_COMPONENT_TYPE_P256_CERT
          =? CROS_PERSO_COMPONENT_TYPE_RSA_CERT) with false.
  cbv iota. cbn [trace gp_EPSeed].
  destruct (store_cert_ok d2 w2 c2); cbn [Z.eqb]; unfold ret;
    repeat rewrite <- app_assoc; reflexivity.
Qed.

End Stores.

(** ** Runs of [tpm_endorse] that reach the region check *)

Section RegionCheck.

Variable cfg : chip_config.
Variable env : environment.

(** The check in closed form: two keyed hashes, then the comparison of
    the region's tag with the second digest. *)
Lemma cert_region_memcmp_run (eps : list Z) (w : world) :
  let key := HMAC_SHA256 env eps RSA_label in
  let digest := HMAC_SHA256 env key (region_covered env) in
  cert_region_memcmp env eps w
  = (Done (memcmp (region_tag env) digest),
     {| trace := trace w ++ [HmacSha256 eps RSA_label key;
                             HmacSha256 key (region_covered env) digest];
        gp_EPSeed := gp_EPSeed w |}).
Proof.
  unfold cert_region_memcmp, hmac_sha256, bind, emit, ret.
  cbv beta iota zeta. cbn [trace gp_EPSeed]. rewrite <- app_assoc.
  reflexivity.
Qed.

(** Past the sanity and type checks, [tpm_endorse] is its [do { } while
    (0)] block followed by the clearing of [eps]. *)
Lemma tpm_endorse_reaches_block (w : world) (eps : list Z) (w1 : world) :
  reaches_region_check cfg env w eps w1 ->
  tpm_endorse cfg env w
  = bind (tpm_endorse_block cfg env (rsa_record env) (ecc_record env) eps)
         (fun result => ret (result, memset0 eps)) w1.
Proof.
  intros [Hprov [[frk2 Hseed] [Hfit1 [Hfit2 [Hrsa Hecc]]]]].
  unfold tpm_endorse. fold (rsa_record env). fold (ecc_record env).
  unfold bind at 1.
  destruct (flash_cert_region_enable cfg w) as [[[]|] w0] eqn:Een;
    [| discriminate Een].
  cbn [snd] in Hseed.
  apply Z.eqb_neq in Hprov. rewrite Hprov.
  unfold bind at 1. rewrite Hseed. cbn [Z.eqb].
  apply Z.leb_le in Hfit1, Hfit2. rewrite Z.leb_antisym in Hfit1, Hfit2.
  apply negb_true_iff in Hfit1, Hfit2.
  rewrite Z.gtb_ltb, Hfit1, Z.gtb_ltb, Hfit2, Hrsa, Hecc.
  reflexivity.
Qed.

(** When the comparison fails, the block installs the fixed identity and
    its value is 0 whatever the installation returned. *)
Lemma tpm_endorse_block_fallback (rsa_cert ecc_cert : ro_cert)
    (eps : list Z) (w1 : world) (c : Z) (w2 : world) :
  cert_region_memcmp env eps w1 = (Done c, w2) ->
  c <> 0 ->
  tpm_endorse_block cfg env rsa_cert ecc_cert eps w1
  = (Done 0, snd (install_fixed_certs env w2)).
Proof.
  intros Hcmp Hc. unfold tpm_endorse_block. unfold bind at 1.
  rewrite Hcmp. apply Z.eqb_neq in Hc. rewrite Hc. cbn [negb].
  unfold bind.
  destruct (install_fixed_certs_run env w2)
    as [c0 [d1 [x1 [c1 [d2 [x2 [c2 ->]]]]]]].
  reflexivity.
Qed.

Lemma tpm_endorse_fallback_run (w : world) (eps : list Z) (w1 : world)
    (c : Z) (w2 : world) :
  reaches_region_check cfg env w eps w1 ->
  cert_region_memcmp env eps w1 = (Done c, w2) ->
  c <> 0 ->
  tpm_endorse cfg env w
  = (Done (0, memset0 eps), snd (install_fixed_certs env w2)).
Proof.
  intros Hreach Hcmp Hc.
  rewrite (tpm_endorse_reaches_block w eps w1 Hreach). unfold bind.
  rewrite (tpm_endorse_block_fallback _ _ eps w1 c w2 Hcmp Hc).
  reflexivity.
Qed.

(** Up to the region check only registers and the information flash are
    touched. *)
Lemma reaches_region_check_trace (w : world) (eps : list Z) (w1 : world) :
  reaches_region_check cfg env w eps w1 ->
  exists pre,
    trace w1 = trace w ++ pre
    /\ Forall (fun e => is_hw_access e = true) pre.
Proof.
  intros [_ [[frk2 Hseed] _]].
  destruct (get_decrypted_eps_emits cfg env (uninitialised_eps env)
              (snd (flash_cert_region_enable cfg w))) as [seg [Et Fs]].
  rewrite Hseed in Et. cbn [snd] in Et.
  exists ([RegWrite GLOBALSEC_FLASH_REGION6_BASE_ADDR
             (wrap32 RO_CERTS_START_ADDR);
           RegWrite GLOBALSEC_FLASH_REGION6_SIZE
             (wrap32 (RO_CERTS_REGION_SIZE - 1));
           RegWrite GLOBALSEC_FLASH_REGION6_CTRL
             (wrap32 (Z.lor (GC_GLOBALSEC_FLASH_REGION6_CTRL_EN_MASK cfg)
                            (GC_GLOBALSEC_FLASH_REGION6_CTRL_RD_EN_MASK cfg)))]
          ++ seg).
  split.
  - rewrite Et. unfold flash_cert_region_enable, reg_write, bind, emit.
    cbn [snd trace]. repeat rewrite <- app_assoc. reflexivity.
  - apply Forall_app. split; [repeat constructor | exact Fs].
Qed.

End RegionCheck.

(** ** The fallback identity *)

Lemma fallback_events_fixed (c0 d1 x1 c1 d2 x2 c2 : Z) :
  Forall stores_fixed_identity (fallback_events c0 d1 x1 c1 d2 x2 c2).
Proof.
  unfold fallback_events, store_eps_events, store_cert_events.
  destruct (c0 =? 0), (store_cert_ok d1 x1 c1), (d1 =? 0), (x1 =? 0),
    (d2 =? 0), (x2 =? 0);
    cbn [app]; repeat apply Forall_cons; try apply Forall_nil;
    cbn [stores_fixed_identity];
    lazymatch goal with
    | |- True => exact I
    | |- (EK_CERT_NV_START_INDEX = _ /\ _) \/ _ => left; split; reflexivity
    | |- (EK_CERT_NV_START_INDEX + 1 = _ /\ _) \/ _ =>
        right; split; reflexivity
    | |- _ = _ => reflexivity
    end.
Qed.

Lemma fallback_events_complete (c0 d1 x1 c1 d2 x2 c2 : Z) :
  fallback_ok c0 d1 x1 c1 d2 x2 c2 = true ->
  c0 <> 0 /\ c1 <> 0 /\ c2 <> 0
  /\ fallback_events c0 d1 x1 c1 d2 x2 c2
     = [ NvWriteReserved FIXED_ENDORSEMENT_SEED; NvCommitted c0;
         HierarchyStartup;
         NV_DefineSpace EK_CERT_NV_START_INDEX ek_cert_attributes
           sizeof_FIXED_RSA_ENDORSEMENT_CERT 0;
         NV_Write EK_CERT_NV_START_INDEX FIXED_RSA_ENDORSEMENT_CERT 0;
         NvCommitted c1;
         HierarchyStartup;
         NV_DefineSpace (EK_CERT_NV_START_INDEX + 1) ek_cert_attributes
           sizeof_FIXED_ECC_ENDORSEMENT_CERT 0;
         NV_Write (EK_CERT_NV_START_INDEX + 1) FIXED_ECC_ENDORSEMENT_CERT 0;
         NvCommitted c2 ].
Proof.
  unfold fallback_ok, fallback_events, store_cert_ok.
  rewrite !andb_true_iff, !negb_true_iff, !Z.eqb_eq, !Z.eqb_neq.
  intros [[H0 [[Hd1 Hx1] H1]] [[Hd2 Hx2] H2]]. subst d1 x1 d2 x2.
  repeat split; auto.
  apply Z.eqb_neq in H0, H1, H2.
  unfold store_cert_ok, store_cert_events, store_eps_events.
  rewrite H0, H1. reflexivity.
Qed.

(** The bench chip with a tampered region gets as far as the region
    check, whatever [NvCommit] answers, and the check fails there. *)
Lemma tampered_reaches_check (f : nat -> Z) :
  reaches_region_check bench_config
    (with_NvCommit f (bench_env tampered_region)) boot bench_seed
    (bench_seed_recovered tampered_region).
Proof.
  unfold reaches_region_check.
  split; [vm_compute; discriminate|].
  split; [exists (repeat 0 32); vm_compute; reflexivity|].
  split; [vm_compute; discriminate|].
  split; [vm_compute; discriminate|].
  split; vm_compute; reflexivity.
Qed.

Lemma tampered_check_fails (f : nat -> Z) :
  memcmp (region_tag (with_NvCommit f (bench_env tampered_region)))
    (HMAC_SHA256 (with_NvCommit f (bench_env tampered_region))
       (HMAC_SHA256 (with_NvCommit f (bench_env tampered_region))
          bench_seed RSA_label)
       (region_covered (with_NvCommit f (bench_env tampered_region))))
  <> 0.
Proof. vm_compute. discriminate. Qed.


(** C7, as amended.  When the region check fails, [tpm_endorse] has so
    far only touched registers, read the information flash and computed
    the two hashes; it then runs the fallback installation and returns 0
    with [eps] cleared.  Every store of that run carries the fixed seed or
    a fixed certificate, so neither a factory certificate nor the
    recovered seed is stored.  The fixed seed is always written; each
    fixed certificate is stored only if the stores before it succeeded,
    and when all three succeed the whole fixed identity is installed. *)
Theorem tpm_endorse_fallback (cfg : chip_config) (env : environment)
    (w : world) (eps : list Z) (w1 : world) (c : Z) (w2 : world) :
  reaches_region_check cfg env w eps w1 ->
  cert_region_memcmp env eps w1 = (Done c, w2) ->
  c <> 0 ->
  exists pre c0 d1 x1 c1 d2 x2 c2,
    tpm_endorse cfg env w
    = (Done (0, memset0 eps),
       {| trace := trace w ++ pre ++ fallback_events c0 d1 x1 c1 d2 x2 c2;
          gp_EPSeed := FIXED_ENDORSEMENT_SEED |})
    /\ Forall (fun e => is_nv e = false /\ is_x509 e = false) pre
    /\ Forall stores_fixed_identity (fallback_events c0 d1 x1 c1 d2 x2 c2)
    /\ In (NvWriteReserved FIXED_ENDORSEMENT_SEED)
          (fallback_events c0 d1 x1 c1 d2 x2 c2)
    /\ (fallback_ok c0 d1 x1 c1 d2 x2 c2 = true ->
        In (NV_Write EK_CERT_NV_START_INDEX FIXED_RSA_ENDORSEMENT_CERT 0)
           (fallback_events c0 d1 x1 c1 d2 x2 c2)
        /\ In (NV_Write (EK_CERT_NV_START_INDEX + 1)
                 FIXED_ECC_ENDORSEMENT_CERT 0)
              (fallback_events c0 d1 x1 c1 d2 x2 c2)
        /\ c0 <> 0 /\ c1 <> 0 /\ c2 <> 0).
Proof.
  intros Hreach Hcmp Hc.
  rewrite (tpm_endorse_fallback_run cfg env w eps w1 c w2 Hreach Hcmp Hc).
  destruct (reaches_region_check_trace cfg env w eps w1 Hreach)
    as [pre [E1 F1]].
  rewrite cert_region_memcmp_run in Hcmp. injection Hcmp as _ E2.
  destruct (install_fixed_certs_run env w2)
    as [c0 [d1 [x1 [c1 [d2 [x2 [c2 E]]]]]]].
  eexists (pre ++ [_; _]), c0, d1, x1, c1, d2, x2, c2.
  rewrite E. cbn [snd]. rewrite <- E2. cbn [trace]. rewrite E1.
  repeat rewrite <- app_assoc. split; [reflexivity|].
  split.
  { apply Forall_app. split.
    - eapply Forall_impl; [|exact F1].
      intros e He. destruct e; simpl in *; auto; discriminate.
    - repeat constructor. }
  split; [apply fallback_events_fixed|].
  split; [left; reflexivity|].
  intros Hok.
  destruct (fallback_events_complete _ _ _ _ _ _ _ Hok)
    as [H0 [H1 [H2 ->]]].
  cbn [In]. repeat split; auto 10.
Qed.

Lemma tpm_endorse_fallback_witness :
  reaches_region_check bench_config
    (with_NvCommit (fun _ => 1) (bench_env tampered_region)) boot bench_seed
    (bench_seed_recovered tampered_region)
  /\ fst (tpm_endorse bench_config
            (with_NvCommit (fun _ => 1) (bench_env tampered_region)) boot)
     = Done (0, memset0 bench_seed).
Proof.
  split; [apply tampered_reaches_check|].
  destruct (tpm_endorse_fallback bench_config
              (with_NvCommit (fun _ => 1) (bench_env tampered_region))
              boot bench_seed (bench_seed_recovered tampered_region) _ _
              (tampered_reaches_check (fun _ => 1))
              (cert_region_memcmp_run _ bench_seed _)
              (tampered_check_fails (fun _ => 1)))
    as [pre [c0 [d1 [x1 [c1 [d2 [x2 [c2 [E _]]]]]]]]].
  rewrite E. reflexivity.
Defined.

(** A run that refutes C7 as it is worded: the region check fails, the
    commit of the fixed seed fails, and [tpm_endorse] returns without any
    attempt to store the fixed certificates. *)
Lemma fallback_without_certificates :
  let r := tpm_endorse bench_config
             (with_NvCommit (fun _ => 0) (bench_env tampered_region)) boot in
  fst r = Done (0, memset0 bench_seed)
  /\ existsb is_hmac (trace (snd r)) = true
  /\ filter is_nv (trace (snd r))
     = [NvWriteReserved FIXED_ENDORSEMENT_SEED; NvCommitted 0]
  /\ existsb is_define (trace (snd r)) = false
  /\ existsb is_nv_write (trace (snd r)) = false.
Proof. vm_compute. repeat split. Qed.


(** ** The flash read windows *)

Section Windows.

Variable cfg : chip_config.
Variable env : environment.

Let region7_ctrl_open : Z :=
  wrap32 (Z.lor (GC_GLOBALSEC_FLASH_REGION7_CTRL_EN_MASK cfg)
                (GC_GLOBALSEC_FLASH_REGION7_CTRL_RD_EN_MASK cfg)).

Lemma read_eps_words_run (offsets eps : list Z) (w : world) :
  exists reads,
    trace (snd (read_eps_words cfg env offsets eps w)) = trace w ++ reads
    /\ Forall (fun e => is_info_read e = true) reads
    /\ exists res eps',
         fst (read_eps_words cfg env offsets eps w) = Done (res, eps')
         /\ ((res = 1 /\ existsb is_failed_info_read reads = false)
             \/ (res = 0 /\ existsb is_failed_info_read reads = true)).
Proof.
  revert eps w. induction offsets as [|i rest IH]; intros eps w.
  - exists []. cbn [read_eps_words ret fst snd]. rewrite app_nil_r.
    split; [reflexivity|]. split; [constructor|].
    exists 1, eps. auto.
  - cbn [read_eps_words].
    unfold flash_physical_info_read_word, bind, emit, ret.
    cbv beta iota zeta.
    destruct (info_word env (INFO1_EPS_OFFSET cfg + i)) as [word|];
      cbn [option_map].
    + match goal with
      | |- context [read_eps_words cfg env rest ?e ?w0] =>
          destruct (IH e w0) as [reads [Et [Fr [res [eps' [Er Hr]]]]]]
      end.
      cbn [trace] in Et.
      eexists (_ :: reads). rewrite Et, <- app_assoc.
      split; [reflexivity|]. split; [constructor; [reflexivity | exact Fr]|].
      exists res, eps'. split; [exact Er|]. cbn [existsb orb]. exact Hr.
    + eexists [_]. cbn [fst snd trace].
      split; [reflexivity|]. split; [repeat constructor|].
      exists 0, eps. split; [reflexivity|]. right. split; reflexivity.
Qed.

Lemma keymgr_not_region_write (e : event) :
  is_keymgr_access e = true ->
  writes_register GLOBALSEC_FLASH_REGION6_CTRL e = false
  /\ writes_register GLOBALSEC_FLASH_REGION7_CTRL e = false
  /\ is_failed_info_read e = false.
Proof. destruct e as [[]|[]| | | | | | | | |]; simpl; auto; discriminate. Qed.

(** The shape of a seed recovery: the ladder's events and then, unless the
    ladder failed, the opening of the window, the reads, and the closing
    of the window if no read failed. *)
Lemma get_decrypted_eps_run (eps : list Z) (w : world) :
  exists ladder reads,
    Forall (fun e => is_keymgr_access e = true) ladder
    /\ Forall (fun e => is_info_read e = true) reads
    /\ let enable :=
         [ RegWrite GLOBALSEC_FLASH_REGION7_BASE_ADDR
             (wrap32 (FLASH_INFO_MEMORY_BASE cfg
                      + FLASH_INFO_MANUFACTURE_STATE_OFFSET cfg));
           RegWrite GLOBALSEC_FLASH_REGION7_SIZE
             (wrap32 (FLASH_INFO_MANUFACTURE_STATE_SIZE cfg - 1));
           RegWrite GLOBALSEC_FLASH_REGION7_CTRL region7_ctrl_open ] in
       match fst (get_decrypted_eps cfg env eps w) with
       | Done (res, _, _) =>
           (res = 0
            /\ trace (snd (get_decrypted_eps cfg env eps w))
               = trace w ++ ladder)
           \/ (res = 0
               /\ existsb is_failed_info_read reads = true
               /\ trace (snd (get_decrypted_eps cfg env eps w))
                  = trace w ++ ladder ++ enable ++ reads)
           \/ (res = 1
               /\ existsb is_failed_info_read reads = false
               /\ trace (snd (get_decrypted_eps cfg env eps w))
                  = trace w ++ ladder ++ enable ++ reads
                    ++ [RegWrite GLOBALSEC_FLASH_REGION7_CTRL 0])
       | Hang =>
           trace (snd (get_decrypted_eps cfg env eps w)) = trace w ++ ladder
       end.
Proof.
  remember (get_decrypted_eps cfg env eps w) as r eqn:Er.
  unfold get_decrypted_eps in Er. unfold bind at 1 in Er.
  match type of Er with
  | context [compute_frk2 cfg env ?f w] =>
      destruct (compute_frk2_emits cfg env f w) as [ladder [El Fl]];
      destruct (compute_frk2 cfg env f w) as [[[ok frk2]|] w1]
  end; cbn [fst snd] in El.
  2:{ subst r. exists ladder, []. cbv zeta. cbn [fst snd]. auto. }
  destruct (ok =? 0) eqn:Eok.
  { apply Z.eqb_eq in Eok. subst r. exists ladder, []. cbv zeta.
    unfold ret; cbn [fst snd]. auto. }
  unfold flash_info_read_enable, flash_info_read_disable, reg_write, bind,
    emit, ret in Er. cbv beta iota in Er.
  match type of Er with
  | context [read_eps_words cfg env ?o ?e ?w0] =>
      destruct (read_eps_words_run o e w0)
        as [reads [Et [Fr [res [eps' [Eres Hres]]]]]];
      destruct (read_eps_words cfg env o e w0) as [[[res0 eps0]|] w2]
  end; cbn [fst snd trace] in *; [| discriminate Eres].
  injection Eres as -> ->.
  exists ladder, reads. split; [exact Fl|]. split; [exact Fr|].
  cbv zeta.
  destruct Hres as [[-> Hf] | [-> Hf]]; cbn [Z.eqb] in Er; subst r;
    cbn [fst snd trace].
  - right; right. split; [reflexivity|]. split; [exact Hf|].
    rewrite Et, El. unfold region7_ctrl_open.
    repeat rewrite <- app_assoc. reflexivity.
  - right; left. split; [reflexivity|]. split; [exact Hf|].
    rewrite Et, El. unfold region7_ctrl_open.
    repeat rewrite <- app_assoc. reflexivity.
Qed.

Lemma get_decrypted_eps_emits_recovery (eps : list Z) :
  emits (fun e => is_eps_recovery_access e = true)
    (get_decrypted_eps cfg env eps).
Proof.
  pose proof (read_eps_words_emits cfg env) as Hreads.
  assert (forall offsets eps,
             emits (fun e => is_eps_recovery_access e = true)
               (read_eps_words cfg env offsets eps)).
  { intros offsets eps0. revert eps0.
    induction offsets as [|i rest IH]; intros eps0; simpl;
      unfold flash_physical_info_read_word; solve_emits. }
  assert (forall frk2,
             emits (fun e => is_eps_recovery_access e = true)
               (compute_frk2 cfg env frk2)).
  { intro. eapply emits_weaken; [| apply compute_frk2_emits].
    intros e He. destruct e as [[]|[]| | | | | | | | |]; simpl in *;
      auto; discriminate. }
  unfold get_decrypted_eps, flash_info_read_enable, flash_info_read_disable,
    reg_write.
  solve_emits.
Qed.

(** From the region check on, [tpm_endorse] talks to the HMAC engine, the
    certificate verifier and the NV store only. *)
Lemma tpm_endorse_block_emits (rsa_cert ecc_cert : ro_cert) (eps : list Z) :
  emits (fun e => is_hw_access e = false)
    (tpm_endorse_block cfg env rsa_cert ecc_cert eps).
Proof.
  unfold tpm_endorse_block, cert_region_memcmp, hmac_sha256,
    install_fixed_certs, handle_cert, validate_cert, store_cert, store_eps,
    calls_so_far.
  solve_emits.
Qed.

(** [tpm_endorse] opens the certificate window first and never writes its
    control register again. *)
Lemma tpm_endorse_region6 (w : world) :
  exists rest,
    trace (snd (tpm_endorse cfg env w))
    = trace w
        ++ [ RegWrite GLOBALSEC_FLASH_REGION6_BASE_ADDR
               (wrap32 RO_CERTS_START_ADDR);
             RegWrite GLOBALSEC_FLASH_REGION6_SIZE
               (wrap32 (RO_CERTS_REGION_SIZE - 1));
             RegWrite GLOBALSEC_FLASH_REGION6_CTRL
               (wrap32 (Z.lor (GC_GLOBALSEC_FLASH_REGION6_CTRL_EN_MASK cfg)
                              (GC_GLOBALSEC_FLASH_REGION6_CTRL_RD_EN_MASK
                                 cfg))) ]
        ++ rest
    /\ Forall
         (fun e => writes_register GLOBALSEC_FLASH_REGION6_CTRL e = false)
         rest.
Proof.
  unfold tpm_endorse. unfold bind at 1.
  unfold flash_cert_region_enable, reg_write, bind at 1 2, emit.
  cbv beta iota.
  match goal with
  | |- context [snd (?m ?w0)] =>
      assert (Hrest : emits
                (fun e =>
                   writes_register GLOBALSEC_FLASH_REGION6_CTRL e = false) m);
      [| destruct (Hrest w0) as [rest [Et Fr]]; exists rest;
         rewrite Et; cbn [trace]; repeat rewrite <- app_assoc; auto]
  end.
  assert (forall eps,
             emits (fun e =>
                      writes_register GLOBALSEC_FLASH_REGION6_CTRL e = false)
               (get_decrypted_eps cfg env eps)).
  { intro. eapply emits_weaken; [| apply get_decrypted_eps_emits_recovery].
    intros e He. destruct e as [[]|[]| | | | | | | | |]; simpl in *;
      auto; discriminate. }
  assert (forall rsa_cert ecc_cert eps,
             emits (fun e =>
                      writes_register GLOBALSEC_FLASH_REGION6_CTRL e = false)
               (tpm_endorse_block cfg env rsa_cert ecc_cert eps)).
  { intros. eapply emits_weaken; [| apply tpm_endorse_block_emits].
    intros e He. destruct e; simpl in *; auto; discriminate. }
  solve_emits.
Qed.

End Windows.

(** C2, as amended.  A seed recovery that returns without a failed
    information-flash read has either never opened the information window
    (the key ladder failed) or has closed it again, and one that returns 1
    has closed it.  The certificate window that [tpm_endorse] opens first
    is not closed by [tpm_endorse]: its control register still holds the
    enabling value whenever [tpm_endorse] returns. *)
Theorem flash_windows (cfg : chip_config) (env : environment) :
  (forall eps w res eps' frk2,
     fst (get_decrypted_eps cfg env eps w) = Done (res, eps', frk2) ->
     exists seg,
       trace (snd (get_decrypted_eps cfg env eps w)) = trace w ++ seg
       /\ (existsb is_failed_info_read seg = false ->
           last_write GLOBALSEC_FLASH_REGION7_CTRL seg = None
           \/ last_write GLOBALSEC_FLASH_REGION7_CTRL seg = Some 0)
       /\ (res = 1 ->
           last_write GLOBALSEC_FLASH_REGION7_CTRL seg = Some 0))
  /\ (forall w res,
        fst (tpm_endorse cfg env w) = Done res ->
        exists seg,
          trace (snd (tpm_endorse cfg env w)) = trace w ++ seg
          /\ last_write GLOBALSEC_FLASH_REGION6_CTRL seg
             = Some (wrap32
                       (Z.lor (GC_GLOBALSEC_FLASH_REGION6_CTRL_EN_MASK cfg)
                              (GC_GLOBALSEC_FLASH_REGION6_CTRL_RD_EN_MASK
                                 cfg)))).
Proof.
  split.
  - intros eps w res eps' frk2 Hres.
    destruct (get_decrypted_eps_run cfg env eps w)
      as [ladder [reads [Fl [Fr Hshape]]]].
    cbv zeta in Hshape. rewrite Hres in Hshape.
    assert (Hl7 : last_write GLOBALSEC_FLASH_REGION7_CTRL ladder = None).
    { apply last_write_none. eapply Forall_impl; [| exact Fl].
      intros e He.
      apply (keymgr_not_region_write e He). }
    assert (Hlf : existsb is_failed_info_read ladder = false).
    { clear - Fl. induction Fl as [|e l He _ IH]; [reflexivity|].
      cbn [existsb]. rewrite IH.
      rewrite (proj2 (proj2 (keymgr_not_region_write e He))).
      reflexivity. }
    destruct Hshape as [[-> Et] | [[-> [Hf Et]] | [-> [Hf Et]]]].
    + exists ladder. split; [exact Et|]. split; [auto | discriminate].
    + eexists. split; [exact Et|]. split; [| discriminate].
      rewrite !existsb_app, Hf, Hlf. cbn [existsb orb].
      rewrite orb_true_r. discriminate.
    + eexists. split; [exact Et|].
      split; intros _; [right|]; rewrite !last_write_app; reflexivity.
  - intros w res _.
    destruct (tpm_endorse_region6 cfg env w) as [rest [Et Fr]].
    eexists. split; [exact Et|].
    rewrite last_write_app, (last_write_none _ _ Fr). reflexivity.
Qed.


Lemma flash_windows_witness :
  fst (tpm_endorse bench_config (bench_env erased_region) boot)
  = Done (0, uninitialised_eps (bench_env erased_region))
  /\ exists seg,
       trace (snd (tpm_endorse bench_config (bench_env erased_region) boot))
       = trace boot ++ seg
       /\ last_write GLOBALSEC_FLASH_REGION6_CTRL seg = Some 3.
Proof.
  assert (H : fst (tpm_endorse bench_config (bench_env erased_region) boot)
              = Done (0, uninitialised_eps (bench_env erased_region)))
    by (vm_compute; reflexivity).
  split; [exact H|].
  exact (proj2 (flash_windows bench_config (bench_env erased_region))
           boot _ H).
Defined.

(** Two runs that refute C2 as it is worded: [tpm_endorse] returns from an
    unprovisioned chip with the certificate window open, and a seed
    recovery whose third word cannot be read returns with the information
    window open. *)
Lemma flash_windows_left_open :
  (fst (tpm_endorse bench_config (bench_env erased_region) boot)
   = Done (0, uninitialised_eps (bench_env erased_region))
   /\ last_write GLOBALSEC_FLASH_REGION6_CTRL
        (trace (snd (tpm_endorse bench_config (bench_env erased_region)
                       boot)))
      = Some 3)
  /\ (fst (get_decrypted_eps bench_config faulty_info_env (repeat 0 32) boot)
      = Done (0, [1; 2; 3; 4; 1; 2; 3; 4] ++ repeat 0 24, repeat 0 32)
      /\ last_write GLOBALSEC_FLASH_REGION7_CTRL
           (trace (snd (get_decrypted_eps bench_config faulty_info_env
                          (repeat 0 32) boot)))
         = Some 3).
Proof. vm_compute. repeat split. Qed.

(** ** The integrity check of the certificate region *)

Lemma flip_changes_byte (x bit : Z) :
  0 <= bit < 8 -> wrap8 (Z.lxor (wrap8 x) (2 ^ bit)) <> wrap8 x.
Proof.
  intros Hb E.
  assert (Ht : Z.testbit (wrap8 (Z.lxor (wrap8 x) (2 ^ bit))) bit
               = Z.testbit (wrap8 x) bit) by (rewrite E; reflexivity).
  unfold wrap8 in Ht at 1.
  rewrite Z.mod_pow2_bits_low, Z.lxor_spec, Z.pow2_bits_eqb in Ht by lia.
  rewrite Z.eqb_refl in Ht. destruct (Z.testbit (wrap8 x) bit); discriminate.
Qed.

Lemma upto_in (n i : Z) : In i (upto n) <-> 0 <= i < n.
Proof.
  unfold upto. rewrite in_map_iff. split.
  - intros [k [<- Hk]]. apply in_seq in Hk. lia.
  - intros H. exists (Z.to_nat i). rewrite in_seq. lia.
Qed.

Lemma upto_nth (n i : Z) :
  0 <= i < n -> nth_error (upto n) (Z.to_nat i) = Some i.
Proof.
  intros H. unfold upto.
  rewrite nth_error_map, nth_error_seq.
  destruct (Nat.ltb_spec (Z.to_nat i) (Z.to_nat n)); [|lia].
  cbn. f_equal. lia.
Qed.

Lemma load_bytes_nth (m : memory) (addr n i : Z) :
  0 <= i < n ->
  nth_error (load_bytes m addr n) (Z.to_nat i) = Some (load8 m (addr + i)).
Proof.
  intros H. unfold load_bytes.
  rewrite nth_error_map, (upto_nth n i H). reflexivity.
Qed.

Lemma Some_eq {A} (a b : A) : Some a = Some b -> a = b.
Proof. intros E. injection E. auto. Qed.

Lemma Done_eq {A} (a b : A) : Done a = Done b -> a = b.
Proof. intros E. injection E. auto. Qed.

Lemma region_address (k : Z) :
  0 <= k < RO_CERTS_REGION_SIZE ->
  wrap32 (RO_CERTS_START_ADDR + k) = RO_CERTS_START_ADDR + k.
Proof.
  unfold RO_CERTS_REGION_SIZE, RO_CERTS_START_ADDR, wrap32. intros H.
  apply Z.mod_small. lia.
Qed.

(** Reading a region byte after a flip elsewhere in the region. *)
Lemma load8_flip_other (m : memory) (k j bit : Z) :
  0 <= k < RO_CERTS_REGION_SIZE -> 0 <= j < RO_CERTS_REGION_SIZE ->
  k <> j ->
  load8 (flip_bit m (RO_CERTS_START_ADDR + j) bit) (RO_CERTS_START_ADDR + k)
  = load8 m (RO_CERTS_START_ADDR + k).
Proof.
  intros Hk Hj Hne. unfold load8, flip_bit. rewrite (region_address k Hk).
  destruct (Z.eqb_spec (RO_CERTS_START_ADDR + k) (RO_CERTS_START_ADDR + j));
    [lia | reflexivity].
Qed.

Lemma load8_flip_same (m : memory) (j bit : Z) :
  0 <= j < RO_CERTS_REGION_SIZE -> 0 <= bit < 8 ->
  load8 (flip_bit m (RO_CERTS_START_ADDR + j) bit) (RO_CERTS_START_ADDR + j)
  <> load8 m (RO_CERTS_START_ADDR + j).
Proof.
  intros Hj Hb. unfold load8, flip_bit. rewrite (region_address j Hj).
  rewrite Z.eqb_refl. apply flip_changes_byte, Hb.
Qed.

Section Flips.

Variable env : environment.
Variables (j bit : Z).
Hypothesis bit_range : 0 <= bit < 8.

Let flipped : environment :=
  with_flash (flip_bit (flash env) (RO_CERTS_START_ADDR + j) bit) env.

Lemma flip_tag_keeps_covered :
  RO_CERTS_REGION_SIZE - 32 <= j < RO_CERTS_REGION_SIZE ->
  region_covered flipped = region_covered env.
Proof.
  intros Hj. unfold region_covered, load_bytes, flipped. cbn [flash with_flash].
  apply map_ext_in. intros k Hk. apply upto_in in Hk.
  apply load8_flip_other; unfold RO_CERTS_REGION_SIZE in *; lia.
Qed.

Lemma flip_tag_changes_tag :
  RO_CERTS_REGION_SIZE - 32 <= j < RO_CERTS_REGION_SIZE ->
  region_tag flipped <> region_tag env.
Proof.
  intros Hj E.
  assert (Hi : 0 <= j - (RO_CERTS_REGION_SIZE - 32) < 32)
    by (unfold RO_CERTS_REGION_SIZE in *; lia).
  apply (f_equal (fun l => nth_error l
                             (Z.to_nat (j - (RO_CERTS_REGION_SIZE - 32)))))
    in E.
  unfold region_tag in E. rewrite !load_bytes_nth in E by exact Hi.
  apply Some_eq in E. unfold flipped in E. cbn [flash with_flash] in E.
  replace (RO_CERTS_START_ADDR + RO_CERTS_REGION_SIZE - 32
           + (j - (RO_CERTS_REGION_SIZE - 32)))
    with (RO_CERTS_START_ADDR + j) in E by lia.
  revert E. apply load8_flip_same;
    [unfold RO_CERTS_REGION_SIZE in *; lia | exact bit_range].
Qed.

Lemma flip_covered_keeps_tag :
  0 <= j < RO_CERTS_REGION_SIZE - 32 ->
  region_tag flipped = region_tag env.
Proof.
  intros Hj. unfold region_tag, load_bytes, flipped. cbn [flash with_flash].
  apply map_ext_in. intros k Hk. apply upto_in in Hk.
  replace (RO_CERTS_START_ADDR + RO_CERTS_REGION_SIZE - 32 + k)
    with (RO_CERTS_START_ADDR + (RO_CERTS_REGION_SIZE - 32 + k)) by lia.
  apply load8_flip_other; unfold RO_CERTS_REGION_SIZE in *; lia.
Qed.

Lemma flip_covered_changes_covered :
  0 <= j < RO_CERTS_REGION_SIZE - 32 ->
  region_covered flipped <> region_covered env.
Proof.
  intros Hj E.
  apply (f_equal (fun l => nth_error l (Z.to_nat j))) in E.
  unfold region_covered in E. rewrite !load_bytes_nth in E by exact Hj.
  apply Some_eq in E. unfold flipped in E. cbn [flash with_flash] in E.
  revert E. apply load8_flip_same;
    [unfold RO_CERTS_REGION_SIZE in *; lia | exact bit_range].
Qed.

End Flips.




(** ** Runs that return with the seed still in memory *)

(** A run whose first sanity check fails returns 0 with [eps] as seed
    recovery left it. *)
Lemma tpm_endorse_sanity_exit (cfg : chip_config) (env : environment)
    (w : world) (eps frk2 : list Z) (w1 : world) :
  load32 (flash env) RO_CERTS_START_ADDR <> 0xFFFFFFFF ->
  get_decrypted_eps cfg env (uninitialised_eps env)
    (snd (flash_cert_region_enable cfg w))
  = (Done (1, eps, frk2), w1) ->
  wrap32 (2 * sizeof_ro_cert + cert_len (cert_response (rsa_record env)))
    > RO_CERTS_REGION_SIZE ->
  tpm_endorse cfg env w = (Done (0, eps), w1).
Proof.
  intros Hprov Hseed Hbig.
  unfold tpm_endorse. fold (rsa_record env). unfold bind at 1.
  destruct (flash_cert_region_enable cfg w) as [[[]|] w0] eqn:Een;
    [| discriminate Een].
  cbn [snd] in Hseed.
  apply Z.eqb_neq in Hprov. rewrite Hprov.
  unfold bind at 1. rewrite Hseed. cbn [Z.eqb].
  apply Z.gtb_gt in Hbig. rewrite Hbig. reflexivity.
Qed.

(** C1 (defect in the code).  On the bench chip the seed recovery succeeds;
    a region whose RSA record declares 3000 bytes fails the first sanity
    check, and a region whose second record has the wrong component type
    fails the type check.  In both runs [tpm_endorse] returns 0 with the
    recovered seed still in [eps]: the [memset] at the end of the function
    is not reached. *)
Theorem tpm_endorse_early_return_keeps_seed :
  fst (tpm_endorse bench_config (bench_env oversize_region) boot)
  = Done (0, bench_seed)
  /\ fst (tpm_endorse bench_config (bench_env mistyped_region) boot)
     = Done (0, bench_seed)
  /\ bench_seed <> memset0 bench_seed.
Proof. vm_compute. repeat split. discriminate. Qed.

(** ** Sanity checks that wrap around *)

(** C3 (defect in the code).  With a declared RSA length of 0xFFFFFFF4
    the 32-bit sums of both sanity checks wrap to 20 and 120, so both
    checks pass and [tpm_endorse] goes on to the region check, although
    the two headers and the two declared lengths add up to far more than
    the 2048 bytes of the region. *)
Theorem sanity_checks_wrap_around :
  let env := bench_env wrapping_region in
  let rsa_len := cert_len (cert_response (rsa_record env)) in
  let ecc_len := cert_len (cert_response (ecc_record env)) in
  rsa_len = 0xFFFFFFF4 /\ ecc_len = 100
  /\ wrap32 (2 * sizeof_ro_cert + rsa_len) = 20
  /\ wrap32 (wrap32 (2 * sizeof_ro_cert + rsa_len) + ecc_len) = 120
  /\ 2 * sizeof_ro_cert + rsa_len + ecc_len = 4294967416
  /\ 2 * sizeof_ro_cert + rsa_len + ecc_len > RO_CERTS_REGION_SIZE
  /\ reaches_region_check bench_config env boot bench_seed
       (bench_seed_recovered wrapping_region)
  /\ existsb is_hmac (trace (snd (tpm_endorse bench_config env boot)))
     = true.
Proof.
  intros env rsa_len ecc_len.
  split; [vm_compute; reflexivity|]. split; [vm_compute; reflexivity|].
  split; [vm_compute; reflexivity|]. split; [vm_compute; reflexivity|].
  split; [vm_compute; reflexivity|]. split; [vm_compute; reflexivity|].
  split; [| vm_compute; reflexivity].
  unfold reaches_region_check.
  split; [vm_compute; discriminate|].
  split; [exists (repeat 0 32); vm_compute; reflexivity|].
  split; [vm_compute; discriminate|].
  split; [vm_compute; discriminate|].
  split; vm_compute; reflexivity.
Qed.

(** ** The scenarios of the specification on the bench chip *)

(** An unprovisioned chip is not endorsed and the NV store is not
    touched. *)
Example scenario_unprovisioned :
  let r := tpm_endorse bench_config (bench_env erased_region) boot in
  (exists eps, fst r = Done (0, eps)) /\ filter is_nv (trace (snd r)) = [].
Proof. vm_compute. split; [eexists|]; reflexivity. Qed.

(** A correctly tagged region with certificates that verify is endorsed:
    both certificates and then the recovered seed are stored, and [eps] is
    cleared. *)
Example scenario_endorsed :
  let r := tpm_endorse bench_config (bench_env factory_region) boot in
  fst r = Done (1, memset0 bench_seed)
  /\ filter is_nv_write (trace (snd r))
     = [NV_Write EK_CERT_NV_START_INDEX small_rsa_der 0;
        NV_Write (EK_CERT_NV_START_INDEX + 1) small_ecc_der 0]
  /\ last (trace (snd r)) HierarchyStartup = NvCommitted 1
  /\ gp_EPSeed (snd r) = bench_seed.
Proof. vm_compute. repeat split. Qed.

(** ** Seed recovery as a one-time pad *)

Lemma xor_bytes_involutive (a b : list Z) :
  length a = length b -> xor_bytes (xor_bytes a b) b = a.
Proof.
  revert b. induction a as [|x a IH]; intros [|y b] H; simpl in *;
    try discriminate; [reflexivity|].
  rewrite IH by congruence.
  rewrite Z.lxor_assoc, Z.lxor_nilpotent, Z.lxor_0_r. reflexivity.
Qed.

Lemma memset0_length (buf : list Z) : length (memset0 buf) = length buf.
Proof. apply length_map. Qed.

Lemma upto_length (n : Z) : length (upto n) = Z.to_nat n.
Proof. unfold upto. rewrite length_map, length_seq. reflexivity. Qed.

Section SeedRecovery.

Variable cfg : chip_config.
Variable env : environment.

Hypothesis responsive : ladder_responsive env.
Hypothesis faultless : ladder_faultless env.

Lemma hw_key_ladder_step_faultless (cert : Z) (w : world) :
  fst (hw_key_ladder_step cfg env cert w) = Done 0.
Proof.
  unfold hw_key_ladder_step, calls_so_far, reg_write, reg_read, bind,
    get_trace, emit, ret. cbv beta iota. cbn [trace gp_EPSeed].
  match goal with
  | |- context [poll_itop ?r ?w0] =>
      destruct (poll_itop_returns r (responsive _) w0) as [v Ev];
      destruct (poll_itop r w0) as [[v0|] w1]
  end; [| discriminate Ev].
  cbn [fst]. rewrite faultless. reflexivity.
Qed.

Lemma run_ladder_faultless (certs : list Z) (w : world) :
  fst (run_ladder cfg env certs w) = Done 1.
Proof.
  revert w. induction certs as [|c rest IH]; intros w; [reflexivity|].
  cbn [run_ladder]. unfold bind.
  pose proof (hw_key_ladder_step_faultless c w) as Hs.
  destruct (hw_key_ladder_step cfg env c w) as [[fault|] w1];
    cbn [fst] in Hs; [| discriminate Hs].
  apply Done_eq in Hs. subst fault. cbn [Z.eqb]. apply IH.
Qed.

(** On a ladder that answers and raises no fault the derivation succeeds
    and delivers the bytes of HKEY_FRR0. *)
Lemma compute_frk2_faultless (frk2 : list Z) (w : world) :
  fst (compute_frk2 cfg env frk2 w) = Done (1, frr0_key env).
Proof.
  rewrite compute_frk2_full_derivation.
  unfold full_derivation. unfold bind at 1. unfold reg_write, emit.
  unfold bind at 1.
  match goal with
  | |- context [run_ladder cfg env ?c ?w0] =>
      pose proof (run_ladder_faultless c w0) as Hr;
      destruct (run_ladder cfg env c w0) as [[ok|] w1]
  end; cbn [fst] in Hr; [| discriminate Hr].
  apply Done_eq in Hr. subst ok. cbn [Z.eqb]. reflexivity.
Qed.


(** The bytes read for the words [j, j + n). *)
Let cipher (j n : nat) : list Z :=
  flat_map
    (fun k =>
       match info_word env (INFO1_EPS_OFFSET cfg + 4 * k) with
       | Some word => le_bytes (wrap32 word)
       | None => []
       end)
    (map Z.of_nat (seq j n)).

Lemma memcpy_at_middle (done rest src : list Z) (i : Z) :
  Z.to_nat i = length done ->
  memcpy_at (done ++ rest) i src = done ++ src ++ skipn (length src) rest.
Proof.
  intros Hi. unfold memcpy_at. rewrite Hi.
  rewrite firstn_app, firstn_all, Nat.sub_diag, firstn_O, app_nil_r.
  rewrite skipn_app.
  replace (length done + length src - length done)%nat
    with (length src) by lia.
  rewrite (skipn_all2 done) by lia. reflexivity.
Qed.

(** When the words [j, j + n) are readable, the loop replaces the bytes
    [4 j, 4 (j + n)) of the buffer by what it read. *)
Lemma read_eps_words_all (n j : nat) (done rest : list Z) (w : world) :
  length done = (4 * j)%nat ->
  (forall k, In k (seq j n) ->
             info_word env (INFO1_EPS_OFFSET cfg + 4 * Z.of_nat k) <> None) ->
  fst (read_eps_words cfg env
         (map (fun k => 4 * k) (map Z.of_nat (seq j n))) (done ++ rest) w)
  = Done (1, done ++ cipher j n ++ skipn (4 * n) rest).
Proof.
  revert j done rest w.
  induction n as [|n IH]; intros j done rest w Hlen Hread.
  - cbn. reflexivity.
  - cbn [seq map read_eps_words].
    unfold flash_physical_info_read_word, bind, emit, ret.
    cbv beta iota zeta.
    pose proof (Hread j (or_introl eq_refl)) as Hj.
    unfold cipher. cbn [seq map flat_map]. fold (cipher (S j) n).
    destruct (info_word env (INFO1_EPS_OFFSET cfg + 4 * Z.of_nat j))
      as [word|]; [| contradiction]. cbn [option_map].
    rewrite memcpy_at_middle by lia.
    rewrite (app_assoc done).
    rewrite IH.
    + rewrite <- !app_assoc. rewrite skipn_skipn.
      replace (4 * n + length (le_bytes (wrap32 word)))%nat
        with (4 * S n)%nat by (cbn [le_bytes length]; lia).
      reflexivity.
    + rewrite length_app, Hlen. cbn [le_bytes length]. lia.
    + intros k Hk. apply Hread. right. exact Hk.
Qed.


(** With a working ladder and readable words, the recovery returns the
    flash bytes XORed with the key, and the local key zeroed. *)
Lemma get_decrypted_eps_decrypts (eps : list Z) (w : world) :
  info_readable cfg env ->
  length eps = Z.to_nat INFO1_EPS_SIZE ->
  fst (get_decrypted_eps cfg env eps w)
  = Done (1, xor_bytes (info_ciphertext cfg env) (frr0_key env),
          memset0 (frr0_key env)).
Proof.
  intros Hread Hlen.
  unfold get_decrypted_eps. unfold bind at 1.
  match goal with
  | |- context [compute_frk2 cfg env ?f w] =>
      pose proof (compute_frk2_faultless f w) as Hk;
      destruct (compute_frk2 cfg env f w) as [[[ok frk2]|] w1]
  end; cbn [fst] in Hk; [| discriminate Hk].
  apply Done_eq in Hk. injection Hk as -> ->. cbn [Z.eqb].
  unfold flash_info_read_enable, flash_info_read_disable, reg_write.
  unfold bind at 1 2 3, emit. cbv beta iota. unfold bind at 1.
  match goal with
  | |- context [read_eps_words cfg env _ _ ?w0] =>
      pose proof (read_eps_words_all 8 0 [] eps w0 eq_refl) as Hw
  end.
  cbn [app] in Hw.
  change (map (fun k => 4 * k) (map Z.of_nat (seq 0 8)))
    with (eps_word_offsets) in Hw.
  rewrite skipn_all2 in Hw by (rewrite Hlen; vm_compute; lia).
  rewrite app_nil_r in Hw.
  change (cipher 0 8) with (info_ciphertext cfg env) in Hw.
  match type of Hw with
  | _ -> fst ?r = _ => destruct r as [[[res eps']|] w2]
  end; cbn [fst] in Hw.
  2:{ exfalso. 
      assert (E : @Hang (Z * list Z) = Done (1, info_ciphertext cfg env)).
      { apply Hw. intros k Hk. apply in_seq in Hk. apply Hread.
        change (INFO1_EPS_SIZE / 4) with 8. lia. }
      discriminate E. }
  assert (E : Done (res, eps') = Done (1, info_ciphertext cfg env)).
  { apply Hw. intros k Hk. apply in_seq in Hk. apply Hread.
    change (INFO1_EPS_SIZE / 4) with 8. lia. }
  apply Done_eq in E. injection E as -> ->.
  reflexivity.
Qed.

End SeedRecovery.

(** X1.  The seed is stored as a one-time pad: when the key ladder
    answers every step without a fault and the eight words of the
    information flash are readable and hold [seed XOR key], where [key]
    is what the ladder leaves in HKEY_FRR0, [get_decrypted_eps] returns 1
    with exactly [seed] in the caller's buffer, and its own copy of the
    key is zero when it returns. *)
Theorem get_decrypted_eps_recovers_seed
    (cfg : chip_config) (env : environment) (eps seed : list Z) (w : world) :
  ladder_responsive env ->
  ladder_faultless env ->
  info_readable cfg env ->
  length eps = Z.to_nat INFO1_EPS_SIZE ->
  length seed = Z.to_nat AES256_BLOCK_CIPHER_KEY_SIZE ->
  info_ciphertext cfg env = xor_bytes seed (frr0_key env) ->
  exists frk2,
    fst (get_decrypted_eps cfg env eps w) = Done (1, seed, frk2)
    /\ Forall (fun b => b = 0) frk2.
Proof.
  intros Hresp Hfault Hread Hlen Hseed Hpad.
  exists (memset0 (frr0_key env)). split.
  - rewrite (get_decrypted_eps_decrypts cfg env Hresp Hfault eps w Hread Hlen).
    rewrite Hpad, xor_bytes_involutive; [reflexivity|].
    rewrite Hseed. unfold frr0_key. rewrite length_map, upto_length.
    reflexivity.
  - unfold memset0. apply Forall_forall. intros b Hb.
    apply in_map_iff in Hb. destruct Hb as [x [Hx _]]. auto.
Qed.

Lemma get_decrypted_eps_recovers_seed_witness :
  exists frk2,
    fst (get_decrypted_eps bench_config (planted_env erased_region)
           (uninitialised_eps (planted_env erased_region)) boot)
    = Done (1, planted_seed, frk2)
    /\ Forall (fun b => b = 0) frk2.
Proof.
  apply get_decrypted_eps_recovers_seed.
  - apply (bench_ladder_responsive erased_region).
  - intro n. reflexivity.
  - intros k Hk. discriminate.
  - reflexivity.
  - reflexivity.
  - vm_compute. reflexivity.
Defined.

(** ** Seed recovery: the key copy and the failed read *)

Section KeyHygiene.

Variable cfg : chip_config.
Variable env : environment.

Let quiet (e : event) : Prop :=
  is_keymgr_access e = true /\ is_frr0_read e = false.

Lemma poll_itop_quiet (reads : list Z) : emits quiet (poll_itop reads).
Proof.
  induction reads as [|v reads IH]; simpl; unfold reg_read, quiet;
    solve_emits.
  apply emits_emit. split; reflexivity.
Qed.

Lemma hw_key_ladder_step_quiet (cert : Z) :
  emits quiet (hw_key_ladder_step cfg env cert).
Proof.
  pose proof poll_itop_quiet.
  assert (forall r v, is_keymgr_access (RegWrite r v) = true ->
                      emits quiet (emit (RegWrite r v))).
  { intros. apply emits_emit. split; auto. }
  assert (forall r v, is_keymgr_access (RegRead r v) = true ->
                      emits quiet (emit (RegRead r v))).
  { intros. apply emits_emit. split; auto. }
  unfold hw_key_ladder_step, calls_so_far, reg_write, reg_read.
  solve_emits.
Qed.

Lemma run_ladder_quiet (certs : list Z) :
  emits quiet (run_ladder cfg env certs).
Proof.
  pose proof hw_key_ladder_step_quiet.
  induction certs as [|c rest IH]; simpl; solve_emits.
Qed.

Lemma quiet_no_frr0 (seg : list event) :
  Forall quiet seg ->
  existsb is_frr0_read seg = false /\ existsb is_info_read seg = false
  /\ Forall (fun e => is_keymgr_access e = true) seg.
Proof.
  induction 1 as [|e seg [Hk Hf] _ [IH1 [IH2 IH3]]]; [repeat split; auto|].
  cbn [existsb]. rewrite Hf, IH1, IH2.
  repeat split; [| constructor; assumption].
  destruct e as [[]|[]| | | | | | | | |]; simpl in *; auto; discriminate.
Qed.

(** The derivation either fails without reading the key out of the
    engine, leaving the caller's buffer as it was, or ends with the read
    of HKEY_FRR0. *)
Lemma compute_frk2_outcome (frk2 : list Z) (w : world) :
  exists seg,
    trace (snd (compute_frk2 cfg env frk2 w)) = trace w ++ seg
    /\ match fst (compute_frk2 cfg env frk2 w) with
       | Done (ok, key) =>
           (ok = 0 /\ key = frk2 /\ Forall quiet seg)
           \/ (ok = 1 /\ key = frr0_key env
               /\ exists ladder, seg = ladder ++ [Frr0Read (frr0_key env)])
       | Hang => True
       end.
Proof.
  rewrite compute_frk2_full_derivation.
  remember (full_derivation cfg env frk2 w) as r eqn:Er.
  unfold full_derivation, reg_write, emit in Er. unfold bind at 1 2 in Er.
  cbv beta iota in Er.
  match type of Er with
  | context [run_ladder cfg env ?c ?w0] =>
      destruct (run_ladder_quiet c w0) as [seg [Et Fq]];
      destruct (run_ladder cfg env c w0) as [[ok|] w1]
  end; cbn [fst snd trace] in *.
  2:{ subst r. eexists. cbn [fst snd]. rewrite Et, <- app_assoc.
      split; [reflexivity | exact I]. }
  destruct (ok =? 0) eqn:Eok.
  - apply Z.eqb_eq in Eok. subst r. eexists. cbn [ret fst snd].
    rewrite Et, <- app_assoc. split; [reflexivity|].
    left. repeat split; auto.
    constructor; [split; reflexivity | exact Fq].
  - unfold read_frr0, bind, emit, ret in Er. cbv beta iota zeta in Er.
    subst r. cbn [fst snd trace]. eexists. rewrite Et.
    split; [rewrite <- !app_assoc; reflexivity|].
    right. repeat split. eexists.
    rewrite app_assoc. reflexivity.
Qed.

End KeyHygiene.

Lemma memset0_all_zero (buf : list Z) : Forall (fun b => b = 0) (memset0 buf).
Proof.
  unfold memset0. apply Forall_forall. intros b Hb.
  apply in_map_iff in Hb. destruct Hb as [x [Hx _]]. auto.
Qed.

(** X2.  [get_decrypted_eps] does not leave the derived key behind:
    whenever it returns after the key was read out of HKEY_FRR0, on
    success as well as after a failed flash read, its local copy [frk2]
    is all zero; when it returns without the key having been read out (a
    ladder step faulted), it returns 0, the caller's buffer is as it was
    and the information flash has not been accessed. *)
Theorem get_decrypted_eps_key_hygiene
    (cfg : chip_config) (env : environment) (eps : list Z) (w : world)
    (res : Z) (eps' frk2' : list Z) :
  fst (get_decrypted_eps cfg env eps w) = Done (res, eps', frk2') ->
  exists seg,
    trace (snd (get_decrypted_eps cfg env eps w)) = trace w ++ seg
    /\ if existsb is_frr0_read seg
       then Forall (fun b => b = 0) frk2'
            /\ length frk2' = Z.to_nat AES256_BLOCK_CIPHER_KEY_SIZE
       else res = 0 /\ eps' = eps /\ existsb is_info_read seg = false.
Proof.
  remember (get_decrypted_eps cfg env eps w) as r eqn:Er.
  intros Hres.
  unfold get_decrypted_eps in Er. unfold bind at 1 in Er.
  match type of Er with
  | context [compute_frk2 cfg env ?f w] =>
      destruct (compute_frk2_outcome cfg env f w) as [ladder [El Ho]];
      destruct (compute_frk2 cfg env f w) as [[[ok key]|] w1]
  end; cbn [fst snd] in El, Ho.
  2:{ subst r. discriminate Hres. }
  destruct Ho as [[-> [-> Fq]] | [-> [-> [steps ->]]]].
  - cbn [Z.eqb] in Er. subst r. cbn [ret fst snd] in *.
    apply Done_eq in Hres. injection Hres as <- <- <-.
    exists ladder. split; [exact El|].
    destruct (quiet_no_frr0 ladder Fq) as [-> [Hi _]]. auto.
  - cbn [Z.eqb] in Er.
    assert (Hzero : forall seg,
               existsb is_frr0_read
                 ((steps ++ [Frr0Read (frr0_key env)]) ++ seg) = true).
    { intro. rewrite !existsb_app. cbn [existsb is_frr0_read].
      rewrite orb_true_r. reflexivity. }
    assert (Hlen : length (memset0 (frr0_key env))
                   = Z.to_nat AES256_BLOCK_CIPHER_KEY_SIZE).
    { unfold memset0, frr0_key. rewrite !length_map. unfold upto.
      rewrite length_map, length_seq. reflexivity. }
    unfold flash_info_read_enable, flash_info_read_disable, reg_write, bind,
      emit, ret in Er. cbv beta iota in Er.
    match type of Er with
    | context [read_eps_words cfg env ?o ?e ?w0] =>
        destruct (read_eps_words_emits cfg env o e w0) as [reads [Et _]];
        destruct (read_eps_words cfg env o e w0) as [[[all_read eps0]|] w2]
    end; cbn [fst snd trace] in *.
    2:{ subst r. discriminate Hres. }
    destruct (all_read =? 0); subst r; cbn [fst snd trace] in *;
      apply Done_eq in Hres; injection Hres as <- <- <-;
      rewrite Et, El;
      eexists ((steps ++ [Frr0Read (frr0_key env)]) ++ _);
      (split; [repeat rewrite <- app_assoc; reflexivity|]);
      rewrite Hzero;
      (split; [exact (memset0_all_zero (frr0_key env)) | exact Hlen]).
Qed.

Lemma get_decrypted_eps_key_hygiene_witness :
  exists seg,
    trace (snd (get_decrypted_eps bench_config faulty_info_env
                  (uninitialised_eps faulty_info_env) boot))
    = trace boot ++ seg
    /\ if existsb is_frr0_read seg
       then Forall (fun b => b = 0) (repeat 0 32)
            /\ length (repeat 0 32) = Z.to_nat AES256_BLOCK_CIPHER_KEY_SIZE
       else 0 = 0
            /\ firstn 8 (flat_map le_bytes [0x04030201; 0x04030201])
                 ++ skipn 8 (uninitialised_eps faulty_info_env)
               = uninitialised_eps faulty_info_env
            /\ existsb is_info_read seg = false.
Proof.
  apply (get_decrypted_eps_key_hygiene bench_config faulty_info_env
           (uninitialised_eps faulty_info_env) boot 0
           (firstn 8 (flat_map le_bytes [0x04030201; 0x04030201])
              ++ skipn 8 (uninitialised_eps faulty_info_env))
           (repeat 0 32)).
  vm_compute. reflexivity.
Defined.

Section FailedRead.

Variable cfg : chip_config.
Variable env : environment.

Let word_bytes (k : Z) : list Z :=
  match info_word env (INFO1_EPS_OFFSET cfg + 4 * k) with
  | Some word => le_bytes (wrap32 word)
  | None => []
  end.

(** The loop over the words [j, j + n), all readable, followed by more
    offsets: the bytes [4 j, 4 (j + n)) are replaced and the loop goes on
    with the rest. *)
Lemma read_eps_words_through (n j : nat) (more done rest : list Z)
    (w : world) :
  length done = (4 * j)%nat ->
  (forall k, In k (seq j n) ->
             info_word env (INFO1_EPS_OFFSET cfg + 4 * Z.of_nat k) <> None) ->
  read_eps_words cfg env
    (map (fun k => 4 * k) (map Z.of_nat (seq j n)) ++ more) (done ++ rest) w
  = read_eps_words cfg env more
      (done ++ flat_map word_bytes (map Z.of_nat (seq j n))
         ++ skipn (4 * n) rest)
      {| trace := trace w
                  ++ map (info_read_event cfg env) (map Z.of_nat (seq j n));
         gp_EPSeed := gp_EPSeed w |}.
Proof.
  revert j done rest w.
  induction n as [|n IH]; intros j done rest w Hlen Hread.
  - cbn [seq map flat_map app skipn Nat.mul]. rewrite app_nil_r.
    destruct w; reflexivity.
  - cbn [seq map app read_eps_words flat_map].
    unfold flash_physical_info_read_word. unfold bind at 1 2.
    unfold emit, ret. cbv beta iota zeta.
    pose proof (Hread j (or_introl eq_refl)) as Hj.
    unfold info_read_event at 1. unfold word_bytes at 1.
    destruct (info_word env (INFO1_EPS_OFFSET cfg + 4 * Z.of_nat j))
      as [word|]; [| contradiction]. cbn [option_map].
    rewrite memcpy_at_middle by lia.
    rewrite (app_assoc done).
    rewrite IH.
    + cbn [trace gp_EPSeed]. rewrite <- !app_assoc. rewrite skipn_skipn.
      replace (4 * n + length (le_bytes (wrap32 word)))%nat
        with (4 * S n)%nat by (cbn [le_bytes length]; lia).
      reflexivity.
    + rewrite length_app, Hlen. cbn [le_bytes length]. lia.
    + intros k Hk. apply Hread. right. exact Hk.
Qed.

Lemma keymgr_not_info_read (seg : list event) :
  Forall (fun e => is_keymgr_access e = true) seg ->
  filter is_info_read seg = [].
Proof.
  induction 1 as [|e seg He _ IH]; [reflexivity|].
  cbn [filter]. rewrite IH.
  destruct e as [[]|[]| | | | | | | | |]; simpl in *; auto; discriminate.
Qed.

Lemma info_reads_filter (ks : list Z) :
  filter is_info_read (map (info_read_event cfg env) ks)
  = map (info_read_event cfg env) ks.
Proof. induction ks as [|k ks IH]; cbn; [|rewrite IH]; reflexivity. Qed.

End FailedRead.

(** X3.  The read loop of [get_decrypted_eps] stops at the first word
    that cannot be read.  On a ladder that answers without a fault, if
    word [m] (of the eight) is the first unreadable one, the function
    requests the words 0, ..., [m] in this order and no further word,
    returns 0 with its copy of the key zeroed, and leaves in the caller's
    buffer the [m] words read so far, not decrypted, followed by the bytes
    the buffer held before. *)
Theorem get_decrypted_eps_stops_at_failed_read
    (cfg : chip_config) (env : environment) (eps : list Z) (w : world)
    (m : nat) :
  ladder_responsive env ->
  ladder_faultless env ->
  (m < 8)%nat ->
  (forall k, (k < m)%nat ->
             info_word env (INFO1_EPS_OFFSET cfg + 4 * Z.of_nat k) <> None) ->
  info_word env (INFO1_EPS_OFFSET cfg + 4 * Z.of_nat m) = None ->
  length eps = Z.to_nat INFO1_EPS_SIZE ->
  let r := get_decrypted_eps cfg env eps w in
  fst r = Done (0,
                info_ciphertext_upto cfg env (Z.of_nat m)
                  ++ skipn (4 * m) eps,
                memset0 (frr0_key env))
  /\ exists seg,
       trace (snd r) = trace w ++ seg
       /\ filter is_info_read seg
          = map (info_read_event cfg env) (upto (Z.of_nat (S m))).
Proof.
  intros Hresp Hfault Hm Hread Hfail Hlen r. subst r.
  remember (get_decrypted_eps cfg env eps w) as r eqn:Er.
  unfold get_decrypted_eps in Er. unfold bind at 1 in Er.
  match type of Er with
  | context [compute_frk2 cfg env ?f w] =>
      pose proof (compute_frk2_faultless cfg env Hresp Hfault f w) as Hk;
      destruct (compute_frk2_emits cfg env f w) as [ladder [El Fl]];
      destruct (compute_frk2 cfg env f w) as [[[ok frk2]|] w1]
  end; cbn [fst snd] in Hk, El; [| discriminate Hk].
  apply Done_eq in Hk. injection Hk as -> ->. cbn [Z.eqb] in Er.
  unfold flash_info_read_enable, reg_write in Er.
  unfold bind at 1 2 3, emit in Er. cbv beta iota in Er.
  unfold bind at 1 in Er.
  unfold eps_word_offsets, upto in Er.
  change (Z.to_nat (INFO1_EPS_SIZE / 4)) with 8%nat in Er.
  replace 8%nat with (m + S (8 - S m))%nat in Er by lia.
  rewrite seq_app in Er. cbn [seq] in Er. rewrite !map_app in Er.
  rewrite (read_eps_words_through cfg env m 0 _ [] eps) in Er;
    [| reflexivity | intros k Hk; apply in_seq in Hk; apply Hread; lia].
  cbn [map read_eps_words Nat.add] in Er.
  unfold flash_physical_info_read_word in Er. unfold bind at 1 2 in Er.
  unfold emit, ret in Er. cbv beta iota zeta in Er.
  rewrite Hfail in Er. cbn [option_map Z.eqb trace gp_EPSeed app] in Er.
  subst r. cbn [fst snd trace]. split.
  - unfold info_ciphertext_upto, upto. rewrite Nat2Z.id. reflexivity.
  - eexists. rewrite El. split;
      [repeat rewrite <- app_assoc; reflexivity|].
    rewrite !filter_app, (keymgr_not_info_read ladder Fl).
    rewrite info_reads_filter. cbn [filter is_info_read app].
    unfold upto. rewrite Nat2Z.id.
    replace (S m) with (m + 1)%nat by lia.
    rewrite seq_app, !map_app. cbn [seq map Nat.add].
    unfold info_read_event at 3. rewrite Hfail. reflexivity.
Qed.

Lemma get_decrypted_eps_stops_at_failed_read_witness :
  let r := get_decrypted_eps bench_config faulty_info_env
             (uninitialised_eps faulty_info_env) boot in
  fst r = Done (0,
                info_ciphertext_upto bench_config faulty_info_env
                  (Z.of_nat 2)
                  ++ skipn (4 * 2) (uninitialised_eps faulty_info_env),
                memset0 (frr0_key faulty_info_env))
  /\ exists seg,
       trace (snd r) = trace boot ++ seg
       /\ filter is_info_read seg
          = map (info_read_event bench_config faulty_info_env)
              (upto (Z.of_nat 3)).
Proof.
  apply (get_decrypted_eps_stops_at_failed_read bench_config faulty_info_env
           (uninitialised_eps faulty_info_env) boot 2).
  - apply (bench_ladder_responsive erased_region).
  - intro n. reflexivity.
  - lia.
  - intros k Hk.
    destruct k as [|[|k]]; [discriminate | discriminate | lia].
  - reflexivity.
  - reflexivity.
Defined.

(** ** Validation and storage of one certificate *)

Section HandleCert.

Variable cfg : chip_config.
Variable env : environment.

Lemma validate_cert_run
    (ci : cros_perso_response_component_info_v0)
    (cr : cros_perso_certificate_response_v0) (eps : list Z) (w : world) :
  validate_cert cfg env ci cr eps w
  = (Done (if cert_accepted cfg env ci cr then 1 else 0),
     {| trace := trace w ++ verifier_calls cfg env ci cr;
        gp_EPSeed := gp_EPSeed w |}).
Proof.
  unfold validate_cert, cert_accepted, verifier_calls, cert_well_formed,
    prod_verdict, test_verdict, record_der, bind, emit, ret.
  rewrite Z.gtb_ltb, Z.ltb_antisym.
  destruct (component_type ci =? CROS_PERSO_COMPONENT_TYPE_RSA_CERT);
    destruct (component_type ci =? CROS_PERSO_COMPONENT_TYPE_P256_CERT);
    cbn [negb andb orb]; try (rewrite app_nil_r; destruct w; reflexivity);
    destruct (cert_len cr <=? MAX_NV_BUFFER_SIZE cfg);
    cbn [negb andb orb]; try (rewrite app_nil_r; destruct w; reflexivity);
    destruct (DCRYPTO_x509_verify env _ PROD_ENDORSEMENT_CA_RSA_PUB =? 0);
    cbn [negb andb orb trace gp_EPSeed];
    try reflexivity;
    destruct (DCRYPTO_x509_verify env _ TEST_ENDORSEMENT_CA_RSA_PUB =? 0);
    rewrite <- app_assoc; reflexivity.
Qed.

Lemma handle_cert_run
    (ci : cros_perso_response_component_info_v0)
    (cr : cros_perso_certificate_response_v0) (eps : list Z) (w : world) :
  exists d wr c,
    handle_cert cfg env ci cr eps w
    = (Done (if cert_accepted cfg env ci cr && store_cert_ok d wr c
             then 1 else 0),
       {| trace := trace w ++ verifier_calls cfg env ci cr
                   ++ (if cert_accepted cfg env ci cr
                       then store_cert_events
                              (ek_nv_index (component_type ci))
                              (record_der cr) (cert_len cr) d wr c
                       else []);
          gp_EPSeed := gp_EPSeed w |}).
Proof.
  unfold handle_cert. unfold bind at 1. rewrite validate_cert_run.
  destruct (cert_accepted cfg env ci cr); cbn [Z.eqb andb].
  - unfold bind at 1.
    match goal with
    | |- context [store_cert env ?t ?p ?l ?w0] =>
        destruct (store_cert_run env t p l w0) as [d [wr [c ->]]]
    end.
    exists d, wr, c. cbn [trace gp_EPSeed].
    unfold ek_nv_index, record_der.
    destruct (store_cert_ok d wr c); cbn [Z.eqb]; unfold ret;
      rewrite <- app_assoc; reflexivity.
  - exists 0, 0, 0. unfold ret. rewrite app_nil_r. reflexivity.
Qed.

End HandleCert.

(** X4.  [validate_cert] asks the production root first and the test root
    only when the production root has rejected the certificate; a record
    with a wrong component type or a length above [MAX_NV_BUFFER_SIZE] is
    turned down without any call to the verifier.  Both calls are given
    the [cert_len] bytes behind [cert], and nothing but the trace
    changes. *)
Theorem validate_cert_production_root_first
    (cfg : chip_config) (env : environment)
    (ci : cros_perso_response_component_info_v0)
    (cr : cros_perso_certificate_response_v0) (eps : list Z) (w : world) :
  let der := bytes_at (cert cr) (cert_len cr) in
  let prod := DCRYPTO_x509_verify env der PROD_ENDORSEMENT_CA_RSA_PUB in
  let test := DCRYPTO_x509_verify env der TEST_ENDORSEMENT_CA_RSA_PUB in
  snd (validate_cert cfg env ci cr eps w)
  = {| trace :=
         trace w
           ++ (if cert_well_formed cfg ci cr
               then if prod =? 0
                    then [X509Verify der PROD_ENDORSEMENT_CA_RSA_PUB 0;
                          X509Verify der TEST_ENDORSEMENT_CA_RSA_PUB test]
                    else [X509Verify der PROD_ENDORSEMENT_CA_RSA_PUB prod]
               else []);
       gp_EPSeed := gp_EPSeed w |}.
Proof.
  intros der prod test. rewrite validate_cert_run. cbn [snd].
  unfold verifier_calls, prod_verdict, test_verdict, record_der.
  fold der. fold prod. fold test.
  destruct (cert_well_formed cfg ci cr); [| reflexivity].
  destruct (prod =? 0) eqn:E; [| reflexivity].
  apply Z.eqb_eq in E. rewrite E. reflexivity.
Qed.

(** ** The endorsement proper *)

Section Endorsement.

Variable cfg : chip_config.
Variable env : environment.

(** The block past a successful region check, in closed form. *)
Lemma tpm_endorse_block_pass (rsa_cert ecc_cert : ro_cert) (eps : list Z)
    (w1 : world) :
  memcmp (region_tag env) (expected_tag env eps) = 0 ->
  exists d1 x1 c1 d2 x2 c2 c3,
    let ok1 := handle_cert_ok cfg env rsa_cert d1 x1 c1 in
    let ok2 := handle_cert_ok cfg env ecc_cert d2 x2 c2 in
    tpm_endorse_block cfg env rsa_cert ecc_cert eps w1
    = (Done (if ok1 && ok2 && negb (c3 =? 0) then 1 else 0),
       {| trace :=
            trace w1 ++ region_check_events env eps
              ++ handle_cert_events cfg env rsa_cert d1 x1 c1
              ++ (if ok1
                  then handle_cert_events cfg env ecc_cert d2 x2 c2
                       ++ (if ok2
                           then store_eps_events
                                  (firstn (Z.to_nat PRIMARY_SEED_SIZE) eps)
                                  c3
                           else [])
                  else []);
          gp_EPSeed :=
            if ok1 && ok2
            then firstn (Z.to_nat PRIMARY_SEED_SIZE) eps
            else gp_EPSeed w1 |}).
Proof.
  intros Hpass. unfold tpm_endorse_block. unfold bind at 1.
  rewrite cert_region_memcmp_run. fold (expected_tag env eps).
  rewrite Hpass. cbn [Z.eqb negb]. fold (region_check_events env eps).
  unfold bind at 1.
  match goal with
  | |- context [handle_cert cfg env ?ci ?cr eps ?w0] =>
      destruct (handle_cert_run cfg env ci cr eps w0) as [d1 [x1 [c1 ->]]]
  end.
  exists d1, x1, c1. fold (handle_cert_ok cfg env rsa_cert d1 x1 c1).
  cbn [trace gp_EPSeed].
  destruct (handle_cert_ok cfg env rsa_cert d1 x1 c1) eqn:E1;
    cbn [Z.eqb andb].
  2:{ exists 0, 0, 0, 0. cbv zeta. unfold ret, handle_cert_events.
      rewrite app_nil_r, <- !app_assoc. reflexivity. }
  unfold bind at 1.
  match goal with
  | |- context [handle_cert cfg env ?ci ?cr eps ?w0] =>
      destruct (handle_cert_run cfg env ci cr eps w0) as [d2 [x2 [c2 ->]]]
  end.
  exists d2, x2, c2. fold (handle_cert_ok cfg env ecc_cert d2 x2 c2).
  cbn [trace gp_EPSeed].
  destruct (handle_cert_ok cfg env ecc_cert d2 x2 c2) eqn:E2;
    cbn [Z.eqb andb].
  2:{ exists 0. cbv zeta. unfold ret, handle_cert_events.
      rewrite app_nil_r, <- !app_assoc. reflexivity. }
  unfold bind at 1.
  match goal with
  | |- context [store_eps env eps ?w0] =>
      destruct (store_eps_run env eps w0) as [c3 ->]
  end.
  exists c3. cbv zeta. cbn [trace gp_EPSeed].
  unfold handle_cert_events.
  destruct (c3 =? 0); cbn [negb]; unfold ret; rewrite <- !app_assoc;
    reflexivity.
Qed.

(** The block always returns, with 0 or 1. *)
Lemma tpm_endorse_block_returns (rsa_cert ecc_cert : ro_cert)
    (eps : list Z) (w1 : world) :
  exists r,
    fst (tpm_endorse_block cfg env rsa_cert ecc_cert eps w1) = Done r
    /\ (r = 0 \/ r = 1).
Proof.
  destruct (Z.eq_dec (memcmp (region_tag env) (expected_tag env eps)) 0)
    as [Hpass | Hfail].
  - destruct (tpm_endorse_block_pass rsa_cert ecc_cert eps w1 Hpass)
      as [d1 [x1 [c1 [d2 [x2 [c2 [c3 E]]]]]]].
    cbv zeta in E. rewrite E. cbn [fst].
    destruct (_ && _ && _); eauto.
  - rewrite (tpm_endorse_block_fallback cfg env rsa_cert ecc_cert eps w1 _ _
               (cert_region_memcmp_run env eps w1) Hfail).
    cbn [fst]. eauto.
Qed.

End Endorsement.

(** X6.  Past the sanity and type checks [tpm_endorse] always comes back,
    with 0 or 1, and with the recovered seed wiped from its local buffer:
    whichever way the [do { } while (0)] block is left (failed region
    check and fallback, rejected certificate, failed store, success), the
    [memset] after it runs. *)
Theorem tpm_endorse_clears_seed_after_block
    (cfg : chip_config) (env : environment) (w : world) (eps : list Z)
    (w1 : world) :
  reaches_region_check cfg env w eps w1 ->
  exists r,
    fst (tpm_endorse cfg env w) = Done (r, memset0 eps)
    /\ (r = 0 \/ r = 1)
    /\ Forall (fun b => b = 0) (memset0 eps)
    /\ length (memset0 eps) = length eps.
Proof.
  intros Hreach.
  rewrite (tpm_endorse_reaches_block cfg env w eps w1 Hreach).
  destruct (tpm_endorse_block_returns cfg env (rsa_record env)
              (ecc_record env) eps w1) as [r [Er Hr]].
  exists r. unfold bind.
  destruct (tpm_endorse_block cfg env (rsa_record env) (ecc_record env)
              eps w1) as [[r0|] w2]; cbn [fst] in Er; [| discriminate Er].
  apply Done_eq in Er. subst r0. cbn [ret fst].
  repeat split; [exact Hr | apply memset0_all_zero | apply memset0_length].
Qed.

Lemma tpm_endorse_clears_seed_after_block_witness :
  exists r,
    fst (tpm_endorse bench_config
           (with_NvCommit (fun _ => 0) (bench_env tampered_region)) boot)
    = Done (r, memset0 bench_seed)
    /\ (r = 0 \/ r = 1)
    /\ Forall (fun b => b = 0) (memset0 bench_seed)
    /\ length (memset0 bench_seed) = length bench_seed.
Proof.
  apply (tpm_endorse_clears_seed_after_block bench_config
           (with_NvCommit (fun _ => 0) (bench_env tampered_region)) boot
           bench_seed (bench_seed_recovered tampered_region)).
  apply tampered_reaches_check.
Defined.

(** ** What an endorsed chip has stored *)

Lemma xor_bytes_length (a b : list Z) :
  length (xor_bytes a b) = Nat.min (length a) (length b).
Proof.
  revert b. induction a as [|x a IH]; intros [|y b]; simpl; auto.
Qed.

Lemma memcpy_at_length (buf src : list Z) (i : Z) :
  (Z.to_nat i + length src <= length buf)%nat ->
  length (memcpy_at buf i src) = length buf.
Proof.
  intros H. unfold memcpy_at.
  rewrite !length_app, length_firstn, length_skipn. lia.
Qed.

Section RecoveredSeed.

Variable cfg : chip_config.
Variable env : environment.

Lemma read_eps_words_length (offsets eps : list Z) (w : world)
    (res : Z) (eps' : list Z) :
  Forall (fun i => (Z.to_nat i + 4 <= length eps)%nat) offsets ->
  fst (read_eps_words cfg env offsets eps w) = Done (res, eps') ->
  length eps' = length eps.
Proof.
  revert eps w. induction offsets as [|i rest IH]; intros eps w Hin E.
  - cbn in E. apply Done_eq in E. injection E as _ <-. reflexivity.
  - cbn [read_eps_words] in E.
    unfold flash_physical_info_read_word, bind, emit, ret in E.
    cbv beta iota zeta in E.
    inversion Hin as [|i0 rest0 Hi Hrest]; subst.
    destruct (info_word env (INFO1_EPS_OFFSET cfg + i)) as [word|];
      cbn [option_map] in E.
    + apply IH in E.
      * rewrite E. apply memcpy_at_length. exact Hi.
      * rewrite memcpy_at_length by exact Hi. exact Hrest.
    + cbn [fst] in E. apply Done_eq in E. injection E as _ <-. reflexivity.
Qed.

(** A recovered seed has the size of the caller's buffer. *)
Lemma get_decrypted_eps_length (eps : list Z) (w : world)
    (eps' frk2' : list Z) :
  length eps = Z.to_nat INFO1_EPS_SIZE ->
  fst (get_decrypted_eps cfg env eps w) = Done (1, eps', frk2') ->
  length eps' = Z.to_nat PRIMARY_SEED_SIZE.
Proof.
  intros Hlen E.
  unfold get_decrypted_eps in E. unfold bind at 1 in E.
  match type of E with
  | context [compute_frk2 cfg env ?f w] =>
      destruct (compute_frk2_outcome cfg env f w) as [ladder [_ Ho]];
      destruct (compute_frk2 cfg env f w) as [[[ok key]|] w1]
  end; cbn [fst snd] in Ho; [| discriminate E].
  destruct Ho as [[-> _] | [-> [-> _]]]; cbn [Z.eqb] in E.
  { cbn [ret fst] in E. apply Done_eq in E. discriminate E. }
  unfold flash_info_read_enable, flash_info_read_disable, reg_write, bind,
    emit, ret in E. cbv beta iota in E.
  match type of E with
  | context [read_eps_words cfg env ?o ?e ?w0] =>
      pose proof (read_eps_words_length o e w0) as Hl;
      destruct (read_eps_words cfg env o e w0) as [[[all_read eps0]|] w2]
  end; cbn [fst] in *; [| discriminate E].
  specialize (Hl all_read eps0).
  destruct (all_read =? 0); cbn [fst] in E; apply Done_eq in E;
    [discriminate E|].
  injection E as <- _.
  rewrite xor_bytes_length, Hl; [| | reflexivity].
  - rewrite Hlen. reflexivity.
  - rewrite Hlen. vm_compute. repeat constructor.
Qed.

(** A run that returns 1 went through every check on the way to the
    block. *)
Lemma tpm_endorse_endorsed_reaches (w : world) (out : list Z) :
  fst (tpm_endorse cfg env w) = Done (1, out) ->
  exists eps w1, reaches_region_check cfg env w eps w1.
Proof.
  intros E. unfold tpm_endorse in E.
  fold (rsa_record env) in E. fold (ecc_record env) in E.
  unfold bind at 1 in E.
  destruct (flash_cert_region_enable cfg w) as [[[]|] w0] eqn:Een;
    [| discriminate Een].
  assert (Hw0 : w0 = snd (flash_cert_region_enable cfg w))
    by (rewrite Een; reflexivity).
  destruct (load32 (flash env) RO_CERTS_START_ADDR =? 0xFFFFFFFF) eqn:Eprov.
  { cbn [ret fst] in E. apply Done_eq in E. discriminate E. }
  unfold bind at 1 in E.
  pose proof (get_decrypted_eps_run cfg env (uninitialised_eps env) w0)
    as [ladder [reads [_ [_ Hrun]]]].
  cbv zeta in Hrun.
  destruct (get_decrypted_eps cfg env (uninitialised_eps env) w0)
    as [[[[ok eps] frk2]|] w1] eqn:Eseed; cbn [fst snd] in Hrun;
    [| discriminate E].
  assert (Hok : ok = 0 \/ ok = 1) by tauto. clear Hrun.
  destruct Hok as [-> | ->]; cbn [Z.eqb] in E.
  { cbn [ret fst] in E. apply Done_eq in E. discriminate E. }
  exists eps, w1. unfold reaches_region_check.
  rewrite <- Hw0.
  split; [apply Z.eqb_neq; exact Eprov|].
  split; [exists frk2; exact Eseed|].
  rewrite Z.gtb_ltb in E.
  destruct (RO_CERTS_REGION_SIZE
            <? wrap32 (2 * sizeof_ro_cert
                       + cert_len (cert_response (rsa_record env))))
    eqn:Efit1.
  { cbn [ret fst] in E. apply Done_eq in E. discriminate E. }
  rewrite Z.gtb_ltb in E.
  destruct (RO_CERTS_REGION_SIZE
            <? wrap32 (wrap32 (2 * sizeof_ro_cert
                               + cert_len (cert_response (rsa_record env)))
                       + cert_len (cert_response (ecc_record env))))
    eqn:Efit2.
  { cbn [ret fst] in E. apply Done_eq in E. discriminate E. }
  apply Z.ltb_ge in Efit1, Efit2.
  split; [exact Efit1|]. split; [exact Efit2|].
  destruct (component_type (cert_info (rsa_record env))
            =? CROS_PERSO_COMPONENT_TYPE_RSA_CERT) eqn:Ersa; cbn [negb] in E.
  2:{ cbn [ret fst] in E. apply Done_eq in E. discriminate E. }
  destruct (component_type (cert_info (ecc_record env))
            =? CROS_PERSO_COMPONENT_TYPE_P256_CERT) eqn:Eecc; cbn [negb] in E.
  2:{ cbn [ret fst] in E. apply Done_eq in E. discriminate E. }
  apply Z.eqb_eq in Ersa, Eecc. split; assumption.
Qed.

End RecoveredSeed.

Lemma store_cert_ok_true (d wr c : Z) :
  store_cert_ok d wr c = true -> d = 0 /\ wr = 0 /\ c <> 0.
Proof.
  unfold store_cert_ok. intros H.
  apply andb_true_iff in H. destruct H as [H Hc].
  apply andb_true_iff in H. destruct H as [Hd Hw].
  apply Z.eqb_eq in Hd, Hw. apply negb_true_iff, Z.eqb_neq in Hc. auto.
Qed.

(** X7.  A chip is reported endorsed only after everything has been
    stored.  When [tpm_endorse] returns 1, the region was provisioned,
    the seed was recovered, the region's tag is the keyed hash of the
    covered bytes under that seed, both certificates were accepted by a
    root, and the run ends with: the RSA certificate defined, written and
    committed at the first EK index, then the ECC certificate at the
    second, then the recovered seed written to the reserved slot and
    committed, each call reporting success.  [gp.EPSeed] then holds the
    recovered seed, all 32 bytes of it, and the local buffer is wiped. *)
Theorem tpm_endorse_endorsed_means_stored
    (cfg : chip_config) (env : environment) (w : world) (out : list Z) :
  fst (tpm_endorse cfg env w) = Done (1, out) ->
  exists eps w1 c1 c2 c3,
    reaches_region_check cfg env w eps w1
    /\ out = memset0 eps
    /\ length eps = Z.to_nat PRIMARY_SEED_SIZE
    /\ region_tag env = expected_tag env eps
    /\ cert_accepted cfg env (cert_info (rsa_record env))
         (cert_response (rsa_record env)) = true
    /\ cert_accepted cfg env (cert_info (ecc_record env))
         (cert_response (ecc_record env)) = true
    /\ c1 <> 0 /\ c2 <> 0 /\ c3 <> 0
    /\ trace (snd (tpm_endorse cfg env w))
       = trace w1 ++ region_check_events env eps
           ++ verifier_calls cfg env (cert_info (rsa_record env))
                (cert_response (rsa_record env))
           ++ store_cert_events EK_CERT_NV_START_INDEX
                (record_der (cert_response (rsa_record env)))
                (cert_len (cert_response (rsa_record env))) 0 0 c1
           ++ verifier_calls cfg env (cert_info (ecc_record env))
                (cert_response (ecc_record env))
           ++ store_cert_events (EK_CERT_NV_START_INDEX + 1)
                (record_der (cert_response (ecc_record env)))
                (cert_len (cert_response (ecc_record env))) 0 0 c2
           ++ store_eps_events eps c3
    /\ gp_EPSeed (snd (tpm_endorse cfg env w)) = eps.
Proof.
  intros E.
  destruct (tpm_endorse_endorsed_reaches cfg env w out E)
    as [eps [w1 Hreach]].
  pose proof Hreach as [_ [[frk2 Hseed] [_ [_ [Hrsa Hecc]]]]].
  assert (Hlen : length eps = Z.to_nat PRIMARY_SEED_SIZE).
  { eapply (get_decrypted_eps_length cfg env (uninitialised_eps env)).
    - unfold uninitialised_eps. rewrite length_map, upto_length.
      reflexivity.
    - rewrite Hseed. reflexivity. }
  rewrite (tpm_endorse_reaches_block cfg env w eps w1 Hreach) in *.
  destruct (Z.eq_dec (memcmp (region_tag env) (expected_tag env eps)) 0)
    as [Hpass | Hfail].
  2:{ unfold bind in E.
      rewrite (tpm_endorse_block_fallback cfg env _ _ eps w1 _ _
                 (cert_region_memcmp_run env eps w1) Hfail) in E.
      cbn [ret fst] in E. apply Done_eq in E. discriminate E. }
  destruct (tpm_endorse_block_pass cfg env (rsa_record env) (ecc_record env)
              eps w1 Hpass) as [d1 [x1 [c1 [d2 [x2 [c2 [c3 Eb]]]]]]].
  cbv zeta in Eb. unfold bind in E |- *. rewrite Eb in E |- *.
  cbn [ret fst snd trace gp_EPSeed] in E |- *.
  destruct (handle_cert_ok cfg env (rsa_record env) d1 x1 c1) eqn:E1;
    cbn [andb] in E; [| apply Done_eq in E; discriminate E].
  destruct (handle_cert_ok cfg env (ecc_record env) d2 x2 c2) eqn:E2;
    cbn [andb] in E; [| apply Done_eq in E; discriminate E].
  destruct (c3 =? 0) eqn:E3; cbn [negb] in E;
    [apply Done_eq in E; discriminate E|].
  apply Done_eq in E. injection E as <-.
  unfold handle_cert_ok in E1, E2.
  apply andb_true_iff in E1, E2.
  destruct E1 as [A1 S1], E2 as [A2 S2].
  apply store_cert_ok_true in S1, S2.
  destruct S1 as [-> [-> Hc1]], S2 as [-> [-> Hc2]].
  apply Z.eqb_neq in E3.
  exists eps, w1, c1, c2, c3.
  split; [exact Hreach|]. split; [reflexivity|]. split; [exact Hlen|].
  split; [apply memcmp_zero_iff; exact Hpass|].
  split; [exact A1|]. split; [exact A2|].
  split; [exact Hc1|]. split; [exact Hc2|]. split; [exact E3|].
  cbn [andb]. unfold handle_cert_events. rewrite A1, A2.
  unfold ek_nv_index. rewrite Hrsa, Hecc.
  change (CROS_PERSO_COMPONENT_TYPE_RSA_CERT
          =? CROS_PERSO_COMPONENT_TYPE_RSA_CERT) with true.
  change (CROS_PERSO_COMPONENT_TYPE_P256_CERT
          =? CROS_PERSO_COMPONENT_TYPE_RSA_CERT) with false.
  cbv iota.
  rewrite <- Hlen, firstn_all. rewrite <- !app_assoc. split; reflexivity.
Qed.

Lemma tpm_endorse_endorsed_means_stored_witness :
  exists eps w1 c1 c2 c3,
    reaches_region_check bench_config (bench_env factory_region) boot eps w1
    /\ memset0 bench_seed = memset0 eps
    /\ length eps = Z.to_nat PRIMARY_SEED_SIZE
    /\ region_tag (bench_env factory_region)
       = expected_tag (bench_env factory_region) eps
    /\ cert_accepted bench_config (bench_env factory_region)
         (cert_info (rsa_record (bench_env factory_region)))
         (cert_response (rsa_record (bench_env factory_region))) = true
    /\ cert_accepted bench_config (bench_env factory_region)
         (cert_info (ecc_record (bench_env factory_region)))
         (cert_response (ecc_record (bench_env factory_region))) = true
    /\ c1 <> 0 /\ c2 <> 0 /\ c3 <> 0
    /\ trace (snd (tpm_endorse bench_config (bench_env factory_region) boot))
       = trace w1 ++ region_check_events (bench_env factory_region) eps
           ++ verifier_calls bench_config (bench_env factory_region)
                (cert_info (rsa_record (bench_env factory_region)))
                (cert_response (rsa_record (bench_env factory_region)))
           ++ store_cert_events EK_CERT_NV_START_INDEX
                (record_der
                   (cert_response (rsa_record (bench_env factory_region))))
                (cert_len
                   (cert_response (rsa_record (bench_env factory_region))))
                0 0 c1
           ++ verifier_calls bench_config (bench_env factory_region)
                (cert_info (ecc_record (bench_env factory_region)))
                (cert_response (ecc_record (bench_env factory_region)))
           ++ store_cert_events (EK_CERT_NV_START_INDEX + 1)
                (record_der
                   (cert_response (ecc_record (bench_env factory_region))))
                (cert_len
                   (cert_response (ecc_record (bench_env factory_region))))
                0 0 c2
           ++ store_eps_events eps c3
    /\ gp_EPSeed (snd (tpm_endorse bench_config (bench_env factory_region)
                         boot))
       = eps.
Proof.
  apply (tpm_endorse_endorsed_means_stored bench_config
           (bench_env factory_region) boot (memset0 bench_seed)).
  vm_compute. reflexivity.
Defined.

(** ** Partial installations *)

Lemma half_valid_reaches_check :
  reaches_region_check bench_config (bench_env half_valid_region) boot
    bench_seed (bench_seed_recovered half_valid_region).
Proof.
  unfold reaches_region_check.
  split; [vm_compute; discriminate|].
  split; [exists (repeat 0 32); vm_compute; reflexivity|].
  split; [vm_compute; discriminate|].
  split; [vm_compute; discriminate|].
  split; vm_compute; reflexivity.
Qed.

Lemma half_valid_tag :
  region_tag (bench_env half_valid_region)
  = expected_tag (bench_env half_valid_region) bench_seed.
Proof. vm_compute. reflexivity. Qed.

(** X8.  [tpm_endorse] does not undo a partial installation.  When the
    region check passes and the RSA certificate is accepted but the ECC
    certificate is rejected, the run returns 0 after the RSA certificate
    has gone through [store_cert] (defined, written and committed if the
    NV store answers with success); the ECC certificate is validated only
    if that store succeeded, nothing is stored for it, no seed is
    written, and [gp.EPSeed] is as it was. *)
Theorem tpm_endorse_keeps_first_certificate
    (cfg : chip_config) (env : environment) (w : world) (eps : list Z)
    (w1 : world) :
  reaches_region_check cfg env w eps w1 ->
  region_tag env = expected_tag env eps ->
  cert_accepted cfg env (cert_info (rsa_record env))
    (cert_response (rsa_record env)) = true ->
  cert_accepted cfg env (cert_info (ecc_record env))
    (cert_response (ecc_record env)) = false ->
  exists d x c,
    fst (tpm_endorse cfg env w) = Done (0, memset0 eps)
    /\ trace (snd (tpm_endorse cfg env w))
       = trace w1 ++ region_check_events env eps
           ++ verifier_calls cfg env (cert_info (rsa_record env))
                (cert_response (rsa_record env))
           ++ store_cert_events EK_CERT_NV_START_INDEX
                (record_der (cert_response (rsa_record env)))
                (cert_len (cert_response (rsa_record env))) d x c
           ++ (if store_cert_ok d x c
               then verifier_calls cfg env (cert_info (ecc_record env))
                      (cert_response (ecc_record env))
               else [])
    /\ gp_EPSeed (snd (tpm_endorse cfg env w)) = gp_EPSeed w1.
Proof.
  intros Hreach Htag Hrsa Hecc.
  pose proof Hreach as [_ [_ [_ [_ [Htype _]]]]].
  apply memcmp_zero_iff in Htag.
  rewrite (tpm_endorse_reaches_block cfg env w eps w1 Hreach).
  destruct (tpm_endorse_block_pass cfg env (rsa_record env) (ecc_record env)
              eps w1 Htag) as [d1 [x1 [c1 [d2 [x2 [c2 [c3 Eb]]]]]]].
  cbv zeta in Eb. unfold bind. rewrite Eb.
  cbn [ret fst snd trace gp_EPSeed].
  unfold handle_cert_ok, handle_cert_events.
  rewrite Hrsa, Hecc. cbn [andb]. rewrite andb_false_r.
  unfold ek_nv_index. rewrite Htype.
  change (CROS_PERSO_COMPONENT_TYPE_RSA_CERT
          =? CROS_PERSO_COMPONENT_TYPE_RSA_CERT) with true.
  cbv iota. exists d1, x1, c1.
  split; [reflexivity|]. split; [| reflexivity].
  destruct (store_cert_ok d1 x1 c1);
    rewrite ?app_nil_r, <- ?app_assoc; reflexivity.
Qed.

Lemma tpm_endorse_keeps_first_certificate_witness :
  exists d x c,
    fst (tpm_endorse bench_config (bench_env half_valid_region) boot)
    = Done (0, memset0 bench_seed)
    /\ trace (snd (tpm_endorse bench_config (bench_env half_valid_region)
                     boot))
       = trace (bench_seed_recovered half_valid_region)
           ++ region_check_events (bench_env half_valid_region) bench_seed
           ++ verifier_calls bench_config (bench_env half_valid_region)
                (cert_info (rsa_record (bench_env half_valid_region)))
                (cert_response (rsa_record (bench_env half_valid_region)))
           ++ store_cert_events EK_CERT_NV_START_INDEX
                (record_der
                   (cert_response (rsa_record (bench_env half_valid_region))))
                (cert_len
                   (cert_response (rsa_record (bench_env half_valid_region))))
                d x c
           ++ (if store_cert_ok d x c
               then verifier_calls bench_config (bench_env half_valid_region)
                      (cert_info (ecc_record (bench_env half_valid_region)))
                      (cert_response
                         (ecc_record (bench_env half_valid_region)))
               else [])
    /\ gp_EPSeed (snd (tpm_endorse bench_config
                         (bench_env half_valid_region) boot))
       = gp_EPSeed (bench_seed_recovered half_valid_region).
Proof.
  apply (tpm_endorse_keeps_first_certificate bench_config
           (bench_env half_valid_region) boot bench_seed
           (bench_seed_recovered half_valid_region)).
  - apply half_valid_reaches_check.
  - apply half_valid_tag.
  - vm_compute. reflexivity.
  - vm_compute. reflexivity.
Defined.

(** ** The seed the TPM is left with *)

(** X9.  Which seed [gp.EPSeed] holds when [tpm_endorse] returns from a
    run that reached the region check, and what the run did to get
    there.  If the region's tag is not the expected one, the run is the
    two HMACs followed by the fallback installation, the result is 0 and
    [gp.EPSeed] is the fixed fallback seed.  If the tag is right, the run
    is the two HMACs, then [handle_cert] on the RSA record, then, only if
    that certificate was accepted and stored, [handle_cert] on the ECC
    record, then, only if that one was accepted and stored too, the
    reserved write and the commit of the recovered seed.  When a
    certificate was rejected or could not be stored, no seed is written,
    [gp.EPSeed] is as it was and the result is 0.  When both were stored,
    [gp.EPSeed] holds the recovered seed whether or not the final commit
    succeeded: the result is 1 if it did and 0 if it did not. *)
Theorem tpm_endorse_seed_in_memory
    (cfg : chip_config) (env : environment) (w : world) (eps : list Z)
    (w1 : world) :
  reaches_region_check cfg env w eps w1 ->
  if bytes_eqb (region_tag env) (expected_tag env eps)
  then
    exists d1 x1 c1 d2 x2 c2 c3,
      let rsa_ok :=
        cert_accepted cfg env (cert_info (rsa_record env))
          (cert_response (rsa_record env))
        && store_cert_ok d1 x1 c1 in
      let ecc_ok :=
        cert_accepted cfg env (cert_info (ecc_record env))
          (cert_response (ecc_record env))
        && store_cert_ok d2 x2 c2 in
      tpm_endorse cfg env w
      = (Done (if rsa_ok && ecc_ok && negb (c3 =? 0) then 1 else 0,
               memset0 eps),
         {| trace :=
              trace w1 ++ region_check_events env eps
                ++ handle_cert_events cfg env (rsa_record env) d1 x1 c1
                ++ (if rsa_ok
                    then handle_cert_events cfg env (ecc_record env)
                           d2 x2 c2
                         ++ (if ecc_ok
                             then [NvWriteReserved eps; NvCommitted c3]
                             else [])
                    else []);
            gp_EPSeed := if rsa_ok && ecc_ok then eps else gp_EPSeed w1 |})
  else
    exists c0 d1 x1 c1 d2 x2 c2,
      tpm_endorse cfg env w
      = (Done (0, memset0 eps),
         {| trace :=
              trace w1 ++ region_check_events env eps
                ++ fallback_events c0 d1 x1 c1 d2 x2 c2;
            gp_EPSeed := FIXED_ENDORSEMENT_SEED |}).
Proof.
  intros Hreach.
  pose proof Hreach as [_ [[frk2 Hseed] _]].
  assert (Hlen : length eps = Z.to_nat PRIMARY_SEED_SIZE).
  { eapply (get_decrypted_eps_length cfg env (uninitialised_eps env)).
    - unfold uninitialised_eps. rewrite length_map, upto_length.
      reflexivity.
    - rewrite Hseed. reflexivity. }
  rewrite (tpm_endorse_reaches_block cfg env w eps w1 Hreach).
  destruct (bytes_eqb (region_tag env) (expected_tag env eps)) eqn:Etag.
  - assert (Hpass : memcmp (region_tag env) (expected_tag env eps) = 0)
      by (unfold memcmp; rewrite Etag; reflexivity).
    destruct (tpm_endorse_block_pass cfg env (rsa_record env)
                (ecc_record env) eps w1 Hpass)
      as [d1 [x1 [c1 [d2 [x2 [c2 [c3 Eb]]]]]]].
    exists d1, x1, c1, d2, x2, c2, c3.
    cbv zeta in Eb |- *. unfold bind. rewrite Eb.
    unfold handle_cert_ok, store_eps_events.
    rewrite <- Hlen, firstn_all. reflexivity.
  - assert (Hfail : memcmp (region_tag env) (expected_tag env eps) <> 0)
      by (unfold memcmp; rewrite Etag; discriminate).
    unfold bind.
    rewrite (tpm_endorse_block_fallback cfg env _ _ eps w1 _ _
               (cert_region_memcmp_run env eps w1) Hfail).
    match goal with
    | |- context [install_fixed_certs env ?w2] =>
        destruct (install_fixed_certs_run env w2)
          as [c0 [d1 [x1 [c1 [d2 [x2 [c2 Ei]]]]]]]
    end.
    exists c0, d1, x1, c1, d2, x2, c2.
    rewrite Ei. cbn [ret snd trace gp_EPSeed].
    unfold region_check_events. rewrite <- app_assoc. reflexivity.
Qed.

Lemma seed_commit_fails_reaches_check :
  reaches_region_check bench_config seed_commit_fails boot bench_seed
    (bench_seed_recovered factory_region).
Proof.
  unfold reaches_region_check.
  split; [vm_compute; discriminate|].
  split; [exists (repeat 0 32); vm_compute; reflexivity|].
  split; [vm_compute; discriminate|].
  split; [vm_compute; discriminate|].
  split; vm_compute; reflexivity.
Qed.

Lemma tpm_endorse_seed_in_memory_witness :
  if bytes_eqb (region_tag seed_commit_fails)
       (expected_tag seed_commit_fails bench_seed)
  then
    exists d1 x1 c1 d2 x2 c2 c3,
      let rsa_ok :=
        cert_accepted bench_config seed_commit_fails
          (cert_info (rsa_record seed_commit_fails))
          (cert_response (rsa_record seed_commit_fails))
        && store_cert_ok d1 x1 c1 in
      let ecc_ok :=
        cert_accepted bench_config seed_commit_fails
          (cert_info (ecc_record seed_commit_fails))
          (cert_response (ecc_record seed_commit_fails))
        && store_cert_ok d2 x2 c2 in
      tpm_endorse bench_config seed_commit_fails boot
      = (Done (if rsa_ok && ecc_ok && negb (c3 =? 0) then 1 else 0,
               memset0 bench_seed),
         {| trace :=
              trace (bench_seed_recovered factory_region)
                ++ region_check_events seed_commit_fails bench_seed
                ++ handle_cert_events bench_config seed_commit_fails
                     (rsa_record seed_commit_fails) d1 x1 c1
                ++ (if rsa_ok
                    then handle_cert_events bench_config seed_commit_fails
                           (ecc_record seed_commit_fails) d2 x2 c2
                         ++ (if ecc_ok
                             then [NvWriteReserved bench_seed;
                                   NvCommitted c3]
                             else [])
                    else []);
            gp_EPSeed :=
              if rsa_ok && ecc_ok then bench_seed
              else gp_EPSeed (bench_seed_recovered factory_region) |})
  else
    exists c0 d1 x1 c1 d2 x2 c2,
      tpm_endorse bench_config seed_commit_fails boot
      = (Done (0, memset0 bench_seed),
         {| trace :=
              trace (bench_seed_recovered factory_region)
                ++ region_check_events seed_commit_fails bench_seed
                ++ fallback_events c0 d1 x1 c1 d2 x2 c2;
            gp_EPSeed := FIXED_ENDORSEMENT_SEED |}).
Proof.
  apply (tpm_endorse_seed_in_memory bench_config seed_commit_fails boot
           bench_seed (bench_seed_recovered factory_region)).
  apply seed_commit_fails_reaches_check.
Defined.

(** On that chip the run returns 0 although both certificates are stored
    and [gp.EPSeed] already holds the recovered seed. *)
Example seed_commit_failure_leaves_seed_in_memory :
  fst (tpm_endorse bench_config seed_commit_fails boot)
  = Done (0, memset0 bench_seed)
  /\ gp_EPSeed (snd (tpm_endorse bench_config seed_commit_fails boot))
     = bench_seed
  /\ filter is_nv_write
       (trace (snd (tpm_endorse bench_config seed_commit_fails boot)))
     = [NV_Write EK_CERT_NV_START_INDEX small_rsa_der 0;
        NV_Write (EK_CERT_NV_START_INDEX + 1) small_ecc_der 0].
Proof. vm_compute. repeat split. Qed.

(** ** The order of a run *)

Section Phases.

Variable cfg : chip_config.
Variable env : environment.

Lemma tpm_endorse_block_phases (rsa_cert ecc_cert : ro_cert) (eps : list Z)
    (w1 : world) :
  exists tail,
    trace (snd (tpm_endorse_block cfg env rsa_cert ecc_cert eps w1))
    = trace w1 ++ region_check_events env eps ++ tail
    /\ Forall (fun e => is_verify_or_store e = true) tail.
Proof.
  unfold tpm_endorse_block. unfold bind at 1.
  rewrite cert_region_memcmp_run. fold (region_check_events env eps).
  match goal with
  | |- context [snd (?k ?w2)] =>
      assert (Hk : emits (fun e => is_verify_or_store e = true) k)
  end.
  { unfold install_fixed_certs, handle_cert, validate_cert, store_cert,
      store_eps, calls_so_far.
    solve_emits. }
  match goal with
  | |- context [snd (?k ?w2)] => destruct (Hk w2) as [tail [Et Ft]]
  end.
  exists tail. rewrite Et. cbn [trace]. rewrite <- app_assoc. auto.
Qed.

End Phases.

(** A run of [tpm_endorse] either stops before the region check, having
    touched only hardware, or satisfies [reaches_region_check] with the
    seed [get_decrypted_eps] recovered. *)
Lemma tpm_endorse_cases (cfg : chip_config) (env : environment) (w : world) :
  (exists hw_part,
      trace (snd (tpm_endorse cfg env w)) = trace w ++ hw_part
      /\ Forall (fun e => is_hw_access e = true) hw_part
      /\ (forall eps w1, ~ reaches_region_check cfg env w eps w1)
      /\ match fst (tpm_endorse cfg env w) with
         | Done (res, _) => res = 0
         | Hang => True
         end)
  \/ (exists eps w1, reaches_region_check cfg env w eps w1).
Proof.
  set (w0 := snd (flash_cert_region_enable cfg w)).
  assert (E0 : trace w0 = trace w ++ cert_region_enable_events cfg).
  { subst w0. unfold flash_cert_region_enable, reg_write, bind, emit.
    cbn [snd trace]. unfold cert_region_enable_events.
    rewrite <- !app_assoc. reflexivity. }
  assert (F0 : Forall (fun e => is_hw_access e = true)
                 (cert_region_enable_events cfg))
    by (repeat constructor).
  destruct (load32 (flash env) RO_CERTS_START_ADDR =? 0xFFFFFFFF) eqn:Eprov.
  { left. exists (cert_region_enable_events cfg).
    assert (H : tpm_endorse cfg env w
                = (Done (0, uninitialised_eps env), w0)).
    { unfold tpm_endorse. unfold bind at 1.
      destruct (flash_cert_region_enable cfg w) as [[[]|] wx] eqn:Een;
        [| discriminate Een].
      subst w0. cbn [snd]. rewrite Eprov. reflexivity. }
    rewrite H. cbn [fst snd].
    split; [exact E0|]. split; [exact F0|]. split; [| reflexivity].
    intros eps w1 [Hp _]. apply Z.eqb_eq in Eprov. contradiction. }
  assert (Hstart : tpm_endorse cfg env w
                   = bind (get_decrypted_eps cfg env (uninitialised_eps env))
                       (fun '(ok, eps, _) =>
                          if ok =? 0 then ret (0, eps) else
                          if wrap32 (2 * sizeof_ro_cert
                                     + cert_len (cert_response
                                                   (rsa_record env)))
                               >? RO_CERTS_REGION_SIZE
                          then ret (0, eps) else
                          if wrap32 (wrap32 (2 * sizeof_ro_cert
                                             + cert_len (cert_response
                                                           (rsa_record env)))
                                     + cert_len (cert_response
                                                   (ecc_record env)))
                               >? RO_CERTS_REGION_SIZE
                          then ret (0, eps) else
                          if negb (component_type (cert_info (rsa_record env))
                                   =? CROS_PERSO_COMPONENT_TYPE_RSA_CERT)
                          then ret (0, eps) else
                          if negb (component_type (cert_info (ecc_record env))
                                   =? CROS_PERSO_COMPONENT_TYPE_P256_CERT)
                          then ret (0, eps) else
                          result <- tpm_endorse_block cfg env (rsa_record env)
                                      (ecc_record env) eps ;;
                          ret (result, memset0 eps))
                       w0).
  { unfold tpm_endorse. unfold bind at 1.
    destruct (flash_cert_region_enable cfg w) as [[[]|] wx] eqn:Een;
      [| discriminate Een].
    subst w0. cbn [snd]. rewrite Eprov. reflexivity. }
  rewrite Hstart. clear Hstart. unfold bind at 1 3.
  destruct (get_decrypted_eps_emits cfg env (uninitialised_eps env) w0)
    as [seg1 [E1 F1]].
  pose proof (get_decrypted_eps_run cfg env (uninitialised_eps env) w0)
    as [ladder [reads [_ [_ Hrun]]]].
  cbv zeta in Hrun.
  destruct (get_decrypted_eps cfg env (uninitialised_eps env) w0)
    as [[[[ok eps] frk2]|] w1] eqn:Eseed; cbn [fst snd] in Hrun, E1.
  2:{ left. exists (cert_region_enable_events cfg ++ seg1).
      cbn [fst snd]. rewrite E1, E0, <- app_assoc.
      split; [reflexivity|]. split; [apply Forall_app; auto|].
      split; [| exact I].
      intros eps w1' [_ [[frk2 H] _]]. fold w0 in H. rewrite Eseed in H.
      discriminate H. }
  assert (Hok : ok = 0 \/ ok = 1) by tauto. clear Hrun.
  assert (Hstop :
            (forall eps' w1', ~ reaches_region_check cfg env w eps' w1') ->
            exists hw_part,
              trace (snd (@ret (Z * list Z) (0, eps) w1)) = trace w ++ hw_part
              /\ Forall (fun e => is_hw_access e = true) hw_part
              /\ (forall eps' w1',
                     ~ reaches_region_check cfg env w eps' w1')
              /\ match fst (@ret (Z * list Z) (0, eps) w1) with
                 | Done (res, _) => res = 0
                 | Hang => True
                 end).
  { intros Hno. exists (cert_region_enable_events cfg ++ seg1).
    cbn [ret fst snd]. rewrite E1, E0, <- app_assoc.
    split; [reflexivity|]. split; [apply Forall_app; auto|].
    split; [exact Hno | reflexivity]. }
  destruct Hok as [-> | ->]; cbn [Z.eqb].
  { left. cbv iota. apply Hstop.
    intros eps' w1' [_ [[frk2' H] _]]. fold w0 in H. rewrite Eseed in H.
    apply (f_equal fst) in H. cbn [fst] in H. apply Done_eq in H.
    discriminate H. }
  cbn [Z.eqb].
  destruct (wrap32 (2 * sizeof_ro_cert
                    + cert_len (cert_response (rsa_record env)))
            >? RO_CERTS_REGION_SIZE) eqn:Efit1.
  { left. cbv iota. apply Hstop.
    intros eps' w1' [_ [_ [H _]]]. apply Z.gtb_gt in Efit1. lia. }
  destruct (wrap32 (wrap32 (2 * sizeof_ro_cert
                            + cert_len (cert_response (rsa_record env)))
                    + cert_len (cert_response (ecc_record env)))
            >? RO_CERTS_REGION_SIZE) eqn:Efit2.
  { left. cbv iota. apply Hstop.
    intros eps' w1' [_ [_ [_ [H _]]]]. apply Z.gtb_gt in Efit2. lia. }
  destruct (component_type (cert_info (rsa_record env))
            =? CROS_PERSO_COMPONENT_TYPE_RSA_CERT) eqn:Ersa; cbn [negb].
  2:{ left. cbv iota. apply Hstop.
      intros eps' w1' [_ [_ [_ [_ [H _]]]]]. apply Z.eqb_neq in Ersa.
      contradiction. }
  destruct (component_type (cert_info (ecc_record env))
            =? CROS_PERSO_COMPONENT_TYPE_P256_CERT) eqn:Eecc; cbn [negb].
  2:{ left. cbv iota. apply Hstop.
      intros eps' w1' [_ [_ [_ [_ [_ H]]]]]. apply Z.eqb_neq in Eecc.
      contradiction. }
  right. exists eps, w1. unfold reaches_region_check. fold w0.
  split; [apply Z.eqb_neq; exact Eprov|].
  split; [exists frk2; exact Eseed|].
  rewrite Z.gtb_ltb in Efit1, Efit2. apply Z.ltb_ge in Efit1, Efit2.
  apply Z.eqb_eq in Ersa, Eecc. auto.
Qed.

(** X10.  A run of [tpm_endorse] has at most three phases, in this order.
    It starts with accesses to registers, the key ladder and the
    information flash.  If it passes the sanity and type checks, with
    [eps] the seed [get_decrypted_eps] has just recovered, it then
    computes exactly two HMACs, the first keyed with [eps] over the four
    bytes ["RSA\0"] and the second keyed with the result over the covered
    bytes of the region, and from then on it only calls the certificate
    verifier and the NV store: no hardware access follows the first HMAC
    and no third HMAC is computed.  A run that does not get that far
    calls neither the HMAC engine, nor the verifier, nor the NV store,
    and if it returns, it returns 0. *)
Theorem tpm_endorse_phases
    (cfg : chip_config) (env : environment) (w : world) :
  exists hw_part rest,
    trace (snd (tpm_endorse cfg env w)) = trace w ++ hw_part ++ rest
    /\ Forall (fun e => is_hw_access e = true) hw_part
    /\ ((rest = []
         /\ (forall eps w1, ~ reaches_region_check cfg env w eps w1)
         /\ match fst (tpm_endorse cfg env w) with
            | Done (res, _) => res = 0
            | Hang => True
            end)
        \/ (exists eps frk2 w1 tail res,
              get_decrypted_eps cfg env (uninitialised_eps env)
                   (snd (flash_cert_region_enable cfg w))
                 = (Done (1, eps, frk2), w1)
              /\ reaches_region_check cfg env w eps w1
              /\ trace w1 = trace w ++ hw_part
              /\ rest
                 = [ HmacSha256 eps [82; 83; 65; 0]
                       (HMAC_SHA256 env eps [82; 83; 65; 0]);
                     HmacSha256 (HMAC_SHA256 env eps [82; 83; 65; 0])
                       (load_bytes (flash env) RO_CERTS_START_ADDR
                          (RO_CERTS_REGION_SIZE - 32))
                       (HMAC_SHA256 env
                          (HMAC_SHA256 env eps [82; 83; 65; 0])
                          (load_bytes (flash env) RO_CERTS_START_ADDR
                             (RO_CERTS_REGION_SIZE - 32))) ]
                   ++ tail
              /\ Forall (fun e => is_verify_or_store e = true) tail
              /\ fst (tpm_endorse cfg env w) = Done (res, memset0 eps))).
Proof.
  destruct (tpm_endorse_cases cfg env w)
    as [[hw_part [Et [Fh [Hno Hres]]]] | [eps [w1 Hreach]]].
  - exists hw_part, []. rewrite app_nil_r.
    split; [exact Et|]. split; [exact Fh|]. left. auto.
  - destruct (reaches_region_check_trace cfg env w eps w1 Hreach)
      as [pre [Epre Fpre]].
    pose proof Hreach as [Hprov [[frk2 Hseed] _]].
    rewrite (tpm_endorse_reaches_block cfg env w eps w1 Hreach).
    destruct (tpm_endorse_block_phases cfg env (rsa_record env)
                (ecc_record env) eps w1) as [tail [Et Ft]].
    destruct (tpm_endorse_block_returns cfg env (rsa_record env)
                (ecc_record env) eps w1) as [r [Er _]].
    unfold bind.
    destruct (tpm_endorse_block cfg env (rsa_record env) (ecc_record env)
                eps w1) as [[r0|] w2]; cbn [fst snd] in *;
      [| discriminate Er].
    exists pre, (region_check_events env eps ++ tail).
    unfold ret; cbn [fst snd]. rewrite Et, Epre, <- !app_assoc.
    split; [reflexivity|]. split; [exact Fpre|].
    right. exists eps, frk2, w1, tail, r0.
    split; [exact Hseed|]. split; [exact Hreach|].
    split; [exact Epre|]. split; [reflexivity|]. auto.
Qed.

(** X11.  First boot.  When the first word of the certificate region
    reads as erased flash, [tpm_endorse] returns 0 having done nothing
    but open the region's read window: the key ladder is not started,
    and the local buffer is never written.  In every other case the next
    thing it does is to reset the key ladder. *)
Theorem tpm_endorse_first_boot
    (cfg : chip_config) (env : environment) (w : world) :
  if load32 (flash env) RO_CERTS_START_ADDR =? 0xFFFFFFFF
  then tpm_endorse cfg env w
       = (Done (0, uninitialised_eps env),
          {| trace := trace w ++ cert_region_enable_events cfg;
             gp_EPSeed := gp_EPSeed w |})
  else exists rest,
         trace (snd (tpm_endorse cfg env w))
         = trace w ++ cert_region_enable_events cfg
             ++ RegWrite KEYMGR_SHA_TRIG
                  (wrap32 (GC_KEYMGR_SHA_TRIG_TRIG_RESET_MASK cfg))
                :: rest.
Proof.
  destruct (load32 (flash env) RO_CERTS_START_ADDR =? 0xFFFFFFFF) eqn:E.
  { unfold tpm_endorse, flash_cert_region_enable, reg_write, bind, emit.
    cbv beta iota. rewrite E. cbn [trace gp_EPSeed].
    unfold ret, cert_region_enable_events. rewrite <- !app_assoc.
    reflexivity. }
  unfold tpm_endorse, flash_cert_region_enable, reg_write.
  unfold bind at 1 2 3. unfold emit at 1 2 3. cbv beta iota.
  rewrite E. cbn [trace gp_EPSeed].
  match goal with
  | |- context [snd (bind (get_decrypted_eps cfg env ?e) ?k ?w0)] =>
      assert (Hk : forall a, emits (fun _ => True) (k a));
      [| set (K := k) in *; set (W0 := w0) ]
  end.
  { intros [[ok eps] frk2].
    assert (forall rsa_cert ecc_cert eps0,
               emits (fun _ => True)
                 (tpm_endorse_block cfg env rsa_cert ecc_cert eps0)).
    { intros. eapply emits_weaken; [| apply tpm_endorse_block_emits].
      auto. }
    solve_emits. }
  unfold bind at 1.
  remember (get_decrypted_eps cfg env (uninitialised_eps env) W0) as g
    eqn:Eg.
  unfold get_decrypted_eps in Eg. unfold bind at 1 in Eg.
  rewrite compute_frk2_full_derivation in Eg.
  unfold full_derivation, reg_write in Eg. unfold bind at 1 in Eg.
  unfold emit at 1 in Eg. cbv beta iota in Eg.
  match type of Eg with
  | g = match ?m ?w1 with _ => _ end =>
      assert (Hm : emits (fun _ => True) m);
      [| destruct (Hm w1) as [seg1 [E1 _]];
         destruct (m w1) as [[[ok key]|] w2] ]
  end.
  { pose proof (run_ladder_quiet cfg env) as Hq.
    assert (forall certs, emits (fun _ => True) (run_ladder cfg env certs))
      by (intro; eapply emits_weaken; [| apply Hq]; auto).
    unfold read_frr0. solve_emits. }
  2:{ subst g. cbn [snd trace] in *. exists seg1. rewrite E1.
      subst W0. cbn [trace]. unfold cert_region_enable_events.
      rewrite <- !app_assoc. reflexivity. }
  cbn [snd trace] in E1.
  match type of Eg with
  | g = ?k2 ?w2' =>
      assert (Hk2 : emits (fun _ => True) k2);
      [| destruct (Hk2 w2') as [seg2 [E2 _]] ]
  end.
  { pose proof (read_eps_words_emits cfg env) as Hr.
    assert (forall offsets eps0,
               emits (fun _ => True) (read_eps_words cfg env offsets eps0))
      by (intros; eapply emits_weaken; [| apply Hr]; auto).
    unfold flash_info_read_enable, flash_info_read_disable, reg_write.
    solve_emits. }
  rewrite <- Eg in E2.
  destruct g as [[a|] w3]; cbn [snd] in *.
  - destruct (Hk a w3) as [seg3 [E3 _]]. exists (seg1 ++ seg2 ++ seg3).
    rewrite E3, E2, E1. subst W0. cbn [trace].
    unfold cert_region_enable_events. rewrite <- !app_assoc. reflexivity.
  - exists (seg1 ++ seg2). rewrite E2, E1. subst W0. cbn [trace].
    unfold cert_region_enable_events. rewrite <- !app_assoc. reflexivity.
Qed.

(** ** No certificate is stored unverified *)

Lemma verifier_calls_x509 (cfg : chip_config) (env : environment)
    (ci : cros_perso_response_component_info_v0)
    (cr : cros_perso_certificate_response_v0) :
  Forall (fun e => is_x509 e = true) (verifier_calls cfg env ci cr).
Proof.
  unfold verifier_calls.
  destruct (cert_well_formed cfg ci cr); [| constructor].
  destruct (prod_verdict env cr =? 0); repeat constructor.
Qed.

(** An accepted record has one of the two certificate types, fits the NV
    buffer, and one of the verifier calls made for it returned non-zero. *)
Lemma cert_accepted_verified (cfg : chip_config) (env : environment)
    (ci : cros_perso_response_component_info_v0)
    (cr : cros_perso_certificate_response_v0) :
  cert_accepted cfg env ci cr = true ->
  (component_type ci = CROS_PERSO_COMPONENT_TYPE_RSA_CERT
   \/ component_type ci = CROS_PERSO_COMPONENT_TYPE_P256_CERT)
  /\ cert_len cr <= MAX_NV_BUFFER_SIZE cfg
  /\ exists ca verdict,
       In (X509Verify (record_der cr) ca verdict)
          (verifier_calls cfg env ci cr)
       /\ verdict <> 0.
Proof.
  unfold cert_accepted, verifier_calls. intros H.
  apply andb_true_iff in H. destruct H as [Hwf Hv]. rewrite Hwf.
  unfold cert_well_formed in Hwf.
  apply andb_true_iff in Hwf. destruct Hwf as [Ht Hl].
  apply orb_true_iff in Ht. apply Z.leb_le in Hl.
  split; [destruct Ht as [Ht | Ht]; apply Z.eqb_eq in Ht; auto|].
  split; [exact Hl|].
  destruct (prod_verdict env cr =? 0) eqn:Ep; cbn [negb orb] in Hv.
  - apply negb_true_iff, Z.eqb_neq in Hv.
    exists TEST_ENDORSEMENT_CA_RSA_PUB, (test_verdict env cr).
    split; [right; left; reflexivity | exact Hv].
  - apply Z.eqb_neq in Ep.
    exists PROD_ENDORSEMENT_CA_RSA_PUB, (prod_verdict env cr).
    split; [left; reflexivity | exact Ep].
Qed.

(** X5.  [handle_cert] hands a certificate to the NV store only after the
    verifier has accepted it.  The run is a sequence of verifier calls
    followed by the events of the store.  Either nothing is stored and
    the result is 0, or: the component type is one of the two certificate
    types, the declared length fits [MAX_NV_BUFFER_SIZE], one of the
    verifier calls just made, on the very bytes that are stored,
    returned non-zero, the space is defined with the declared length at
    the index of the component type, and the result is 1 exactly when
    definition, write and commit all succeeded.  [gp.EPSeed] is not
    touched. *)
Theorem handle_cert_stores_only_verified
    (cfg : chip_config) (env : environment)
    (ci : cros_perso_response_component_info_v0)
    (cr : cros_perso_certificate_response_v0) (eps : list Z) (w : world) :
  exists calls stores res,
    handle_cert cfg env ci cr eps w
    = (Done res,
       {| trace := trace w ++ calls ++ stores;
          gp_EPSeed := gp_EPSeed w |})
    /\ Forall (fun e => is_x509 e = true) calls
    /\ ((stores = [] /\ res = 0)
        \/ (exists ca verdict d x c,
              In (X509Verify (bytes_at (cert cr) (cert_len cr)) ca verdict)
                 calls
              /\ verdict <> 0
              /\ cert_len cr <= MAX_NV_BUFFER_SIZE cfg
              /\ (component_type ci = CROS_PERSO_COMPONENT_TYPE_RSA_CERT
                  \/ component_type ci = CROS_PERSO_COMPONENT_TYPE_P256_CERT)
              /\ stores
                 = store_cert_events
                     (if component_type ci
                         =? CROS_PERSO_COMPONENT_TYPE_RSA_CERT
                      then EK_CERT_NV_START_INDEX
                      else EK_CERT_NV_START_INDEX + 1)
                     (bytes_at (cert cr) (cert_len cr)) (cert_len cr) d x c
              /\ res = (if store_cert_ok d x c then 1 else 0))).
Proof.
  destruct (handle_cert_run cfg env ci cr eps w) as [d [x [c E]]].
  exists (verifier_calls cfg env ci cr).
  destruct (cert_accepted cfg env ci cr) eqn:Ea.
  - destruct (cert_accepted_verified cfg env ci cr Ea)
      as [Ht [Hl [ca [verdict [Hin Hv]]]]].
    eexists. eexists. split; [exact E|].
    split; [apply verifier_calls_x509|].
    right. exists ca, verdict, d, x, c.
    repeat split; auto.
  - exists [], 0. rewrite E. cbn [andb].
    split; [reflexivity|].
    split; [apply verifier_calls_x509|]. left. auto.
Qed.

(** ** The sanity checks when nothing wraps *)

Lemma load8_range (m : memory) (addr : Z) : 0 <= load8 m addr < 2 ^ 8.
Proof. unfold load8, wrap8. apply Z.mod_pos_bound. reflexivity. Qed.

Lemma load32_range (m : memory) (addr : Z) : 0 <= load32 m addr < 2 ^ 32.
Proof.
  unfold load32.
  pose proof (load8_range m addr). pose proof (load8_range m (addr + 1)).
  pose proof (load8_range m (addr + 2)).
  pose proof (load8_range m (addr + 3)).
  change (2 ^ 8) with 256 in *. change (2 ^ 16) with 65536.
  change (2 ^ 24) with 16777216. change (2 ^ 32) with 4294967296. lia.
Qed.

(** X16.  The two sanity checks of [tpm_endorse] do their job as long as
    the 32-bit sums do not wrap.  If a run of [tpm_endorse] gets as far
    as computing an HMAC, and the declared length of the RSA certificate
    is below [2^32 - 32] and that of the ECC certificate below
    [2^32 - 2048], then both headers and both certificates lie within the
    2048 bytes of the region, and the ECC record is the one at the
    address right behind the RSA certificate. *)
Theorem sanity_checks_exact_without_wrap
    (cfg : chip_config) (env : environment) (w : world) (seg : list event) :
  let rsa_len := cert_len (cert_response (rsa_record env)) in
  let ecc_len := cert_len (cert_response (ecc_record env)) in
  trace (snd (tpm_endorse cfg env w)) = trace w ++ seg ->
  existsb is_hmac seg = true ->
  rsa_len < 2 ^ 32 - 2 * sizeof_ro_cert ->
  ecc_len < 2 ^ 32 - RO_CERTS_REGION_SIZE ->
  0 <= rsa_len /\ 0 <= ecc_len
  /\ 2 * sizeof_ro_cert + rsa_len + ecc_len <= RO_CERTS_REGION_SIZE
  /\ ecc_record env
     = ro_cert_at (flash env) (RO_CERTS_START_ADDR + sizeof_ro_cert + rsa_len).
Proof.
  intros rsa_len ecc_len Hseg Hhmac Hrsa Hecc.
  destruct (tpm_endorse_cases cfg env w)
    as [[hw_part [Et [Fh _]]] | [eps [w1 Hreach]]].
  { exfalso. rewrite Et in Hseg. apply app_inv_head in Hseg. subst seg.
    apply existsb_exists in Hhmac. destruct Hhmac as [e [Hin He]].
    rewrite Forall_forall in Fh.
    destruct (hw_access_not_other e (Fh e Hin)) as [_ [Hn _]].
    rewrite Hn in He. discriminate He. }
  destruct Hreach as [_ [_ [Hfit1 [Hfit2 _]]]].
  fold rsa_len in Hfit1, Hfit2. fold ecc_len in Hfit2.
  assert (Hr : 0 <= rsa_len < 2 ^ 32) by apply load32_range.
  assert (He : 0 <= ecc_len < 2 ^ 32) by apply load32_range.
  unfold sizeof_ro_cert, RO_CERTS_REGION_SIZE in *.
  change (2 ^ 32) with 4294967296 in *.
  assert (W1 : wrap32 (2 * 16 + rsa_len) = 2 * 16 + rsa_len)
    by (unfold wrap32; apply Z.mod_small;
        change (2 ^ 32) with 4294967296; lia).
  rewrite W1 in Hfit1, Hfit2.
  assert (W2 : wrap32 (2 * 16 + rsa_len + ecc_len)
               = 2 * 16 + rsa_len + ecc_len)
    by (unfold wrap32; apply Z.mod_small;
        change (2 ^ 32) with 4294967296; lia).
  rewrite W2 in Hfit2.
  split; [lia|]. split; [lia|]. split; [lia|].
  unfold ecc_record. fold rsa_len. f_equal.
  unfold wrap32, RO_CERTS_START_ADDR, sizeof_ro_cert. apply Z.mod_small.
  change (2 ^ 32) with 4294967296. lia.
Qed.

Lemma sanity_checks_exact_without_wrap_witness :
  0 <= cert_len (cert_response (rsa_record (bench_env half_valid_region)))
  /\ 0 <= cert_len (cert_response (ecc_record (bench_env half_valid_region)))
  /\ 2 * sizeof_ro_cert
     + cert_len (cert_response (rsa_record (bench_env half_valid_region)))
     + cert_len (cert_response (ecc_record (bench_env half_valid_region)))
     <= RO_CERTS_REGION_SIZE
  /\ ecc_record (bench_env half_valid_region)
     = ro_cert_at (flash (bench_env half_valid_region))
         (RO_CERTS_START_ADDR + sizeof_ro_cert
          + cert_len
              (cert_response (rsa_record (bench_env half_valid_region)))).
Proof.
  apply (sanity_checks_exact_without_wrap bench_config
           (bench_env half_valid_region) boot
           (trace (snd (tpm_endorse bench_config
                          (bench_env half_valid_region) boot)))).
  - change (trace boot) with (@nil event). apply eq_sym, app_nil_l.
  - vm_compute. reflexivity.
  - vm_compute. reflexivity.
  - vm_compute. reflexivity.
Defined.

(** ** A ladder step waits for the engine *)

Section LadderStep.

Variable cfg : chip_config.
Variable env : environment.

Lemma poll_itop_outcome (reads : list Z) (w : world) :
  exists polls,
    trace (snd (poll_itop reads w))
    = trace w ++ map (RegRead KEYMGR_SHA_ITOP) polls
    /\ match fst (poll_itop reads w) with
       | Done itop => Exists (fun v => wrap32 v <> 0) reads /\ itop <> 0
       | Hang => Forall (fun v => wrap32 v = 0) reads
       end.
Proof.
  revert w. induction reads as [|v reads IH]; intros w.
  - exists []. cbn. rewrite app_nil_r. auto.
  - cbn [poll_itop]. unfold reg_read, bind, emit, ret. cbv beta iota.
    destruct (wrap32 v =? 0) eqn:E; cbv beta iota.
    + apply Z.eqb_eq in E.
      match goal with
      | |- context [poll_itop reads ?w0] =>
          destruct (IH w0) as [polls [Et Ho]];
          destruct (poll_itop reads w0) as [[itop|] w1]
      end; cbn [fst snd trace] in *;
        exists (wrap32 v :: polls); rewrite Et, <- app_assoc;
        (split; [reflexivity|]).
      * destruct Ho. split; [apply Exists_cons_tl|]; assumption.
      * constructor; assumption.
    + apply Z.eqb_neq in E. exists [wrap32 v]. cbn [fst snd trace map].
      split; [reflexivity|]. split; [apply Exists_cons_hd|]; exact E.
Qed.

End LadderStep.

(** X17.  A ladder step has no timeout.  [hw_key_ladder_step] returns if
    and only if SHA_ITOP reads non-zero at some poll of that step; it
    then returns 1 exactly when HKEY_ERR_FLAGS is non-zero, having read
    that register once.  On a step during which SHA_ITOP stays at zero it
    never comes back, and HKEY_ERR_FLAGS is not read. *)
Theorem hw_key_ladder_step_waits_for_itop
    (cfg : chip_config) (env : environment) (cert : Z) (w : world) :
  let n := count_events is_use_cert_write (trace w) in
  exists seg,
    trace (snd (hw_key_ladder_step cfg env cert w)) = trace w ++ seg
    /\ match fst (hw_key_ladder_step cfg env cert w) with
       | Done fault =>
           Exists (fun v => wrap32 v <> 0) (keymgr_itop env n)
           /\ fault = (if wrap32 (keymgr_err_flags env n) =? 0 then 0 else 1)
           /\ filter is_err_flags_read seg
              = [RegRead KEYMGR_HKEY_ERR_FLAGS
                   (wrap32 (keymgr_err_flags env n))]
       | Hang =>
           Forall (fun v => wrap32 v = 0) (keymgr_itop env n)
           /\ filter is_err_flags_read seg = []
       end.
Proof.
  intros n.
  remember (hw_key_ladder_step cfg env cert w) as r eqn:Er.
  unfold hw_key_ladder_step, calls_so_far, reg_write, reg_read,
    bind, get_trace, emit, ret in Er. cbv beta iota in Er.
  cbn [trace gp_EPSeed] in Er. fold n in Er.
  assert (Hf : forall polls,
             filter is_err_flags_read (map (RegRead KEYMGR_SHA_ITOP) polls)
             = []).
  { induction polls as [|p polls IH]; [reflexivity | exact IH]. }
  match type of Er with
  | context [poll_itop ?reads ?w0] =>
      destruct (poll_itop_outcome reads w0) as [polls [Et Ho]];
      destruct (poll_itop reads w0) as [[itop|] w1]
  end; cbn [fst snd trace] in *; subst r; cbn [fst snd trace];
    rewrite Et; eexists;
    (split; [repeat rewrite <- app_assoc; reflexivity|]).
  - destruct Ho as [Ho _]. split; [exact Ho|]. split; [reflexivity|].
    cbn [app filter is_err_flags_read].
    rewrite filter_app, Hf. reflexivity.
  - split; [exact Ho|].
    cbn [app filter is_err_flags_read]. apply Hf.
Qed.

(** * The Cros Board Info utility *)

Section CommandLine.

Variable strtoul : list Z -> Z * list Z.

(** The locals of [main] after the option loop, when no [--help] cuts it
    short: each is determined by the last option that sets it. *)
Lemma option_loop_run (opts : list (Z * list Z)) (st : CbiUtil.main_locals) :
  has_opt CbiUtil.OPT_HELP opts = false ->
  exists st',
    CbiUtil.option_loop strtoul opts st = inl st'
    /\ CbiUtil.parse_error st'
       = (if existsb (bad_opt strtoul) opts then 1
          else CbiUtil.parse_error st)
    /\ CbiUtil.set_mask st' = Z.lor (CbiUtil.set_mask st) (opts_mask opts)
    /\ (CbiUtil.mode st', CbiUtil.cbi_filename st',
        CbiUtil.required_mask st')
       = match last_opt [CbiUtil.OPT_MODE_CREATE; CbiUtil.OPT_MODE_SHOW]
                 opts with
         | Some (i, name) =>
             (i, Some name,
              if i =? CbiUtil.OPT_MODE_CREATE
              then CbiUtil.REQUIRED_MASK_CREATE
              else CbiUtil.REQUIRED_MASK_SHOW)
         | None =>
             (CbiUtil.mode st, CbiUtil.cbi_filename st,
              CbiUtil.required_mask st)
         end
    /\ CbiUtil.size st'
       = match last_opt [CbiUtil.OPT_SIZE] opts with
         | Some (_, s) => wrap32 (fst (strtoul s))
         | None => CbiUtil.size st
         end
    /\ CbiUtil.version (CbiUtil.bi st')
       = match last_opt [CbiUtil.OPT_BOARD_VERSION] opts with
         | Some (_, s) => wrap32 (fst (strtoul s))
         | None => CbiUtil.version (CbiUtil.bi st)
         end
    /\ CbiUtil.oem_id (CbiUtil.bi st')
       = match last_opt [CbiUtil.OPT_OEM_ID] opts with
         | Some (_, s) => wrap32 (fst (strtoul s))
         | None => CbiUtil.oem_id (CbiUtil.bi st)
         end
    /\ CbiUtil.sku_id (CbiUtil.bi st')
       = match last_opt [CbiUtil.OPT_SKU_ID] opts with
         | Some (_, s) => wrap32 (fst (strtoul s))
         | None => CbiUtil.sku_id (CbiUtil.bi st)
         end
    /\ CbiUtil.erase st'
       = match last_opt [CbiUtil.OPT_ERASE_BYTE] opts with
         | Some (_, s) => wrap8 (fst (strtoul s))
         | None => CbiUtil.erase st
         end
    /\ CbiUtil.show_all st'
       = (if has_opt CbiUtil.OPT_SHOW_ALL opts then 1
          else CbiUtil.show_all st).
Proof.
  revert st. induction opts as [|[i optarg] rest IH]; intros st Hhelp.
  - exists st. cbn. rewrite Z.lor_0_r. repeat split; reflexivity.
  - cbn [has_opt existsb fst] in Hhelp.
    apply orb_false_iff in Hhelp. destruct Hhelp as [Hi Hrest].
    fold (has_opt CbiUtil.OPT_HELP rest) in Hrest.
    cbn [CbiUtil.option_loop last_opt existsb has_opt opts_mask fold_right
           fst].
    fold (has_opt CbiUtil.OPT_SHOW_ALL rest). fold (opts_mask rest).
    unfold CbiUtil.option_case, bad_opt, opt_mask. cbn [fst snd].
    unfold CbiUtil.invalid_number. rewrite Hi.
    destruct (strtoul optarg) as [val e] eqn:Es. cbn [fst snd].
    assert (Hcase :
      forall st1,
        (exists st',
            CbiUtil.option_loop strtoul rest st1 = inl st'
            /\ CbiUtil.parse_error st'
               = (if existsb (bad_opt strtoul) rest then 1
                  else CbiUtil.parse_error st1)
            /\ CbiUtil.set_mask st'
               = Z.lor (CbiUtil.set_mask st1) (opts_mask rest)
            /\ (CbiUtil.mode st', CbiUtil.cbi_filename st',
                CbiUtil.required_mask st')
               = match last_opt [CbiUtil.OPT_MODE_CREATE;
                                 CbiUtil.OPT_MODE_SHOW] rest with
                 | Some (i, name) =>
                     (i, Some name,
                      if i =? CbiUtil.OPT_MODE_CREATE
                      then CbiUtil.REQUIRED_MASK_CREATE
                      else CbiUtil.REQUIRED_MASK_SHOW)
                 | None =>
                     (CbiUtil.mode st1, CbiUtil.cbi_filename st1,
                      CbiUtil.required_mask st1)
                 end
            /\ CbiUtil.size st'
               = match last_opt [CbiUtil.OPT_SIZE] rest with
                 | Some (_, s) => wrap32 (fst (strtoul s))
                 | None => CbiUtil.size st1
                 end
            /\ CbiUtil.version (CbiUtil.bi st')
               = match last_opt [CbiUtil.OPT_BOARD_VERSION] rest with
                 | Some (_, s) => wrap32 (fst (strtoul s))
                 | None => CbiUtil.version (CbiUtil.bi st1)
                 end
            /\ CbiUtil.oem_id (CbiUtil.bi st')
               = match last_opt [CbiUtil.OPT_OEM_ID] rest with
                 | Some (_, s) => wrap32 (fst (strtoul s))
                 | None => CbiUtil.oem_id (CbiUtil.bi st1)
                 end
            /\ CbiUtil.sku_id (CbiUtil.bi st')
               = match last_opt [CbiUtil.OPT_SKU_ID] rest with
                 | Some (_, s) => wrap32 (fst (strtoul s))
                 | None => CbiUtil.sku_id (CbiUtil.bi st1)
                 end
            /\ CbiUtil.erase st'
               = match last_opt [CbiUtil.OPT_ERASE_BYTE] rest with
                 | Some (_, s) => wrap8 (fst (strtoul s))
                 | None => CbiUtil.erase st1
                 end
            /\ CbiUtil.show_all st'
               = (if has_opt CbiUtil.OPT_SHOW_ALL rest then 1
                  else CbiUtil.show_all st1)))
      by (intro; apply IH; exact Hrest).
    clear IH.
    repeat match goal with
           | |- context [i =? ?c] =>
               let E := fresh "E" in
               destruct (i =? c) eqn:E;
               [apply Z.eqb_eq in E; subst i |]
           end;
      cbn;
      repeat match goal with
             | |- context [val >? ?l] => destruct (val >? l)
             | |- context [CbiUtil.is_empty ?x] =>
                 destruct (CbiUtil.is_empty x)
             end;
      cbn;
      match goal with
      | |- context [CbiUtil.option_loop strtoul rest ?st1] =>
          destruct (Hcase st1)
            as [st' [El [Hp [Hm [Hmo [Hs [Hv [Ho [Hk [He Ha]]]]]]]]]]
      end;
      exists st'; rewrite El, Hp, Hm, Hmo, Hs, Hv, Ho, Hk, He, Ha; cbn;
      rewrite <- ?Z.lor_assoc, ?Z.lor_0_l;
      repeat split;
      repeat match goal with
             | |- context [match last_opt ?c ?r with _ => _ end] =>
                 destruct (last_opt c r) as [[? ?]|]
             | |- context [if existsb ?f ?r then _ else _] =>
                 destruct (existsb f r)
             | |- context [if has_opt ?c ?r then _ else _] =>
                 destruct (has_opt c r)
             end;
      rewrite ?Es; reflexivity.
Qed.

End CommandLine.

Lemma mask_bits_create (a b c d f : bool) :
  mask_bits a b c d f = CbiUtil.REQUIRED_MASK_CREATE ->
  a = true /\ b = true /\ c = true /\ d = true /\ f = true.
Proof. destruct a, b, c, d, f; intros H; try discriminate H; auto. Qed.

Lemma mask_bits_show (a b c d f : bool) :
  mask_bits a b c d f = CbiUtil.REQUIRED_MASK_SHOW ->
  a = false /\ b = false /\ c = false /\ d = false /\ f = true.
Proof. destruct a, b, c, d, f; intros H; try discriminate H; auto. Qed.

(** [set_mask] records which of the options have occurred. *)
Lemma opts_mask_bits (opts : list (Z * list Z)) :
  opts_mask opts
  = mask_bits (has_opt CbiUtil.OPT_BOARD_VERSION opts)
      (has_opt CbiUtil.OPT_OEM_ID opts) (has_opt CbiUtil.OPT_SKU_ID opts)
      (has_opt CbiUtil.OPT_SIZE opts)
      (has_opt CbiUtil.OPT_MODE_CREATE opts
       || has_opt CbiUtil.OPT_MODE_SHOW opts).
Proof.
  induction opts as [|[i optarg] rest IH]; [reflexivity|].
  cbn [opts_mask fold_right has_opt existsb fst]. fold (opts_mask rest).
  fold (has_opt CbiUtil.OPT_BOARD_VERSION rest).
  fold (has_opt CbiUtil.OPT_OEM_ID rest).
  fold (has_opt CbiUtil.OPT_SKU_ID rest).
  fold (has_opt CbiUtil.OPT_SIZE rest).
  fold (has_opt CbiUtil.OPT_MODE_CREATE rest).
  fold (has_opt CbiUtil.OPT_MODE_SHOW rest).
  rewrite IH. unfold opt_mask. cbn [fst].
  repeat match goal with
         | |- context [i =? ?c] =>
             let E := fresh "E" in
             destruct (i =? c) eqn:E;
             [apply Z.eqb_eq in E; subst i |]
         end;
    destruct (has_opt CbiUtil.OPT_BOARD_VERSION rest),
      (has_opt CbiUtil.OPT_OEM_ID rest), (has_opt CbiUtil.OPT_SKU_ID rest),
      (has_opt CbiUtil.OPT_SIZE rest), (has_opt CbiUtil.OPT_MODE_CREATE rest),
      (has_opt CbiUtil.OPT_MODE_SHOW rest);
    reflexivity.
Qed.

Lemma last_opt_in (codes : list Z) (opts : list (Z * list Z))
    (o : Z * list Z) :
  last_opt codes opts = Some o -> In o opts /\ In (fst o) codes.
Proof.
  induction opts as [|o' rest IH]; [discriminate|].
  cbn [last_opt]. destruct (last_opt codes rest) as [o''|].
  - intros H. apply Some_eq in H. subst o''.
    destruct (IH eq_refl). split; [right|]; assumption.
  - destruct (existsb (Z.eqb (fst o')) codes) eqn:E; [| discriminate].
    intros H. apply Some_eq in H. subst o'. split; [left; reflexivity|].
    apply existsb_exists in E. destruct E as [c [Hc Ec]].
    apply Z.eqb_eq in Ec. rewrite Ec. exact Hc.
Qed.

Lemma last_opt_has (code : Z) (opts : list (Z * list Z)) :
  has_opt code opts = true ->
  exists s, last_opt [code] opts = Some (code, s).
Proof.
  induction opts as [|[i s] rest IH]; [discriminate|].
  cbn [has_opt existsb last_opt fst]. fold (has_opt code rest).
  rewrite orb_false_r. intros H.
  destruct (has_opt code rest).
  - destruct (IH eq_refl) as [s' ->]. eauto.
  - rewrite orb_false_r in H.
    destruct (last_opt [code] rest) as [o|] eqn:El.
    + destruct (last_opt_in _ _ _ El) as [_ [Hc | []]].
      destruct o as [c s']. cbn [fst] in Hc. subst c. eauto.
    + rewrite H. apply Z.eqb_eq in H. subst i. eauto.
Qed.

Lemma last_opt_none (code : Z) (opts : list (Z * list Z)) :
  has_opt code opts = false -> last_opt [code] opts = None.
Proof.
  induction opts as [|[i s] rest IH]; [reflexivity|].
  cbn [has_opt existsb last_opt fst]. fold (has_opt code rest).
  intros H. apply orb_false_iff in H. destruct H as [Hi Hr].
  rewrite (IH Hr), Hi. reflexivity.
Qed.

Lemma existsb_false_in {A} (f : A -> bool) (l : list A) (x : A) :
  existsb f l = false -> In x l -> f x = false.
Proof.
  intros H Hin. destruct (f x) eqn:E; [| reflexivity].
  assert (existsb f l = true) by (apply existsb_exists; eauto).
  congruence.
Qed.

Section Dispatch.

Variable strtoul : list Z -> Z * list Z.

(** A [--help] anywhere makes [main] return from inside the loop. *)
Lemma option_loop_help (opts : list (Z * list Z))
    (st : CbiUtil.main_locals) :
  has_opt CbiUtil.OPT_HELP opts = true ->
  exists code, CbiUtil.option_loop strtoul opts st = inr code.
Proof.
  revert st. induction opts as [|[i optarg] rest IH]; intros st H;
    [discriminate|].
  cbn [has_opt existsb fst] in H. fold (has_opt CbiUtil.OPT_HELP rest) in H.
  cbn [CbiUtil.option_loop].
  destruct (CbiUtil.option_case strtoul i optarg st) as [st'|code] eqn:E;
    [| eauto].
  apply IH. destruct (i =? CbiUtil.OPT_HELP) eqn:Ei; [| exact H].
  exfalso. apply Z.eqb_eq in Ei. subst i.
  unfold CbiUtil.option_case in E. cbn in E. discriminate E.
Qed.

(** What a run of [main] that ends in a call has gone through. *)
Lemma main_dispatch (opts : list (Z * list Z)) :
  (forall code, CbiUtil.main strtoul opts <> CbiUtil.Return code) ->
  has_opt CbiUtil.OPT_HELP opts = false
  /\ exists st,
       CbiUtil.option_loop strtoul opts CbiUtil.main_initial = inl st
       /\ CbiUtil.parse_error st = 0
       /\ CbiUtil.set_mask st = CbiUtil.required_mask st
       /\ existsb (bad_opt strtoul) opts = false
       /\ CbiUtil.main strtoul opts
          = (if CbiUtil.mode st =? CbiUtil.OPT_MODE_CREATE
             then CbiUtil.Return_do_create (CbiUtil.cbi_filename st)
                    (CbiUtil.size st) (CbiUtil.erase st) (CbiUtil.bi st)
             else CbiUtil.Return_do_show (CbiUtil.cbi_filename st)
                    (CbiUtil.show_all st))
       /\ (CbiUtil.mode st = CbiUtil.OPT_MODE_CREATE
           \/ CbiUtil.mode st = CbiUtil.OPT_MODE_SHOW).
Proof.
  intros Hcall.
  destruct (has_opt CbiUtil.OPT_HELP opts) eqn:Hh.
  { exfalso.
    destruct (option_loop_help opts CbiUtil.main_initial Hh) as [code E].
    apply (Hcall code). unfold CbiUtil.main. rewrite E. reflexivity. }
  split; [reflexivity|].
  destruct (option_loop_run strtoul opts CbiUtil.main_initial Hh)
    as [st [E [Hp _]]].
  exists st. split; [exact E|].
  unfold CbiUtil.main in *. rewrite E in *.
  destruct (CbiUtil.parse_error st =? 0) eqn:Ep; cbn [negb] in *;
    [| exfalso; apply (Hcall 1); reflexivity].
  apply Z.eqb_eq in Ep. split; [exact Ep|].
  destruct (CbiUtil.set_mask st =? CbiUtil.required_mask st) eqn:Em;
    cbn [negb] in *; [| exfalso; apply (Hcall 1); reflexivity].
  apply Z.eqb_eq in Em. split; [exact Em|].
  split.
  { rewrite Ep in Hp. cbn [CbiUtil.parse_error CbiUtil.main_initial] in Hp.
    destruct (existsb (bad_opt strtoul) opts); [discriminate Hp|].
    reflexivity. }
  destruct (CbiUtil.mode st =? CbiUtil.OPT_MODE_CREATE) eqn:Ec.
  { apply Z.eqb_eq in Ec. auto. }
  destruct (CbiUtil.mode st =? CbiUtil.OPT_MODE_SHOW) eqn:Es;
    [| exfalso; apply (Hcall 1); reflexivity].
  apply Z.eqb_eq in Es. auto.
Qed.

End Dispatch.

Lemma invalid_number_false (strtoul : list Z -> Z * list Z) (limit : Z)
    (s : list Z) :
  CbiUtil.invalid_number strtoul limit s = false ->
  fst (strtoul s) <= limit /\ s <> [] /\ snd (strtoul s) = [].
Proof.
  unfold CbiUtil.invalid_number. destruct (strtoul s) as [val e].
  cbn [fst snd]. intros H.
  apply orb_false_iff in H. destruct H as [H He].
  apply orb_false_iff in H. destruct H as [Hv Hs].
  split; [rewrite Z.gtb_ltb in Hv; apply Z.ltb_ge in Hv; exact Hv|].
  split; [intros ->; discriminate Hs|].
  destruct e; [reflexivity | discriminate He].
Qed.

Lemma wrap32_small (v limit : Z) :
  0 <= v -> v <= limit -> limit <= CbiUtil.UINT32_MAX -> wrap32 v = v.
Proof.
  unfold wrap32, CbiUtil.UINT32_MAX. intros. apply Z.mod_small. lia.
Qed.

(** X12.  [main] calls [do_create] only on a complete and well-formed
    command line.  If a run of [main] ends in the call of [do_create],
    then no [--help] and no unknown option occurred, every numeric
    argument on the command line, also of an option given again later,
    was a number with nothing after it and within its range, the last
    mode option was [--create] and its argument is the file name passed
    on, and [--size], [--board_version], [--oem_id] and [--sku_id] all
    occurred: their last arguments are the values passed on, the size at
    most [0xffff] and the three fields at most [0xffffffff].  The erase
    byte is [0xff] unless [--erase_byte] was given, whose last value is
    then cut to eight bits. *)
Theorem main_create_arguments
    (strtoul : list Z -> Z * list Z) (opts : list (Z * list Z))
    (filename : option (list Z)) (size erase : Z)
    (bi : CbiUtil.board_info) :
  (forall s, 0 <= fst (strtoul s)) ->
  CbiUtil.main strtoul opts = CbiUtil.Return_do_create filename size erase bi ->
  has_opt CbiUtil.OPT_HELP opts = false
  /\ existsb (bad_opt strtoul) opts = false
  /\ (exists name,
        last_opt [CbiUtil.OPT_MODE_CREATE; CbiUtil.OPT_MODE_SHOW] opts
        = Some (CbiUtil.OPT_MODE_CREATE, name)
        /\ filename = Some name)
  /\ (exists s,
        last_opt [CbiUtil.OPT_SIZE] opts = Some (CbiUtil.OPT_SIZE, s)
        /\ size = fst (strtoul s) /\ size <= CbiUtil.UINT16_MAX)
  /\ (exists s,
        last_opt [CbiUtil.OPT_BOARD_VERSION] opts
        = Some (CbiUtil.OPT_BOARD_VERSION, s)
        /\ CbiUtil.version bi = fst (strtoul s)
        /\ CbiUtil.version bi <= CbiUtil.UINT32_MAX)
  /\ (exists s,
        last_opt [CbiUtil.OPT_OEM_ID] opts = Some (CbiUtil.OPT_OEM_ID, s)
        /\ CbiUtil.oem_id bi = fst (strtoul s)
        /\ CbiUtil.oem_id bi <= CbiUtil.UINT32_MAX)
  /\ (exists s,
        last_opt [CbiUtil.OPT_SKU_ID] opts = Some (CbiUtil.OPT_SKU_ID, s)
        /\ CbiUtil.sku_id bi = fst (strtoul s)
        /\ CbiUtil.sku_id bi <= CbiUtil.UINT32_MAX)
  /\ erase
     = match last_opt [CbiUtil.OPT_ERASE_BYTE] opts with
       | Some (_, s) => wrap8 (fst (strtoul s))
       | None => 0xff
       end.
Proof.
  intros Hpos Hmain.
  destruct (main_dispatch strtoul opts) as [Hh [st [E [Hp [Hm [Hbad [Hd Hmode]]]]]]].
  { intros code H. rewrite Hmain in H. discriminate H. }
  destruct (option_loop_run strtoul opts CbiUtil.main_initial Hh)
    as [st' [E' [_ [Hmask [Hmo [Hs [Hv [Ho [Hk [He _]]]]]]]]]].
  rewrite E in E'. injection E' as <-.
  cbn [CbiUtil.main_initial CbiUtil.set_mask CbiUtil.mode
         CbiUtil.cbi_filename CbiUtil.required_mask CbiUtil.size
         CbiUtil.bi CbiUtil.version CbiUtil.oem_id CbiUtil.sku_id
         CbiUtil.erase] in Hmask, Hmo, Hs, Hv, Ho, Hk, He.
  rewrite Z.lor_0_l, opts_mask_bits in Hmask.
  rewrite Hd in Hmain.
  destruct (CbiUtil.mode st =? CbiUtil.OPT_MODE_CREATE) eqn:Ec;
    [| discriminate Hmain].
  apply Z.eqb_eq in Ec. injection Hmain as <- <- <- <-.
  split; [exact Hh|]. split; [exact Hbad|].
  destruct (last_opt [CbiUtil.OPT_MODE_CREATE; CbiUtil.OPT_MODE_SHOW] opts)
    as [[i name]|] eqn:El.
  2:{ injection Hmo as Hmo _ _. rewrite Hmo in Ec. discriminate Ec. }
  injection Hmo as Hmo Hname Hreq. rewrite Hmo in Ec. subst i.
  change (CbiUtil.OPT_MODE_CREATE =? CbiUtil.OPT_MODE_CREATE) with true
    in Hreq. cbv iota in Hreq.
  rewrite Hreq in Hm. rewrite Hm in Hmask. symmetry in Hmask.
  apply mask_bits_create in Hmask.
  destruct Hmask as [Hbv [Hoem [Hsku [Hsize _]]]].
  split; [exists name; auto|].
  destruct (last_opt_has _ _ Hsize) as [s1 L1].
  destruct (last_opt_has _ _ Hbv) as [s2 L2].
  destruct (last_opt_has _ _ Hoem) as [s3 L3].
  destruct (last_opt_has _ _ Hsku) as [s4 L4].
  rewrite L1 in Hs. rewrite L2 in Hv. rewrite L3 in Ho. rewrite L4 in Hk.
  assert (Hok : forall code s limit,
             In (code, s) opts ->
             bad_opt strtoul (code, s) = false ->
             (bad_opt strtoul (code, s) = false ->
              CbiUtil.invalid_number strtoul limit s = false) ->
             limit <= CbiUtil.UINT32_MAX ->
             wrap32 (fst (strtoul s)) = fst (strtoul s)
             /\ fst (strtoul s) <= limit).
  { intros code s limit _ Hb Hinv Hl.
    destruct (invalid_number_false strtoul limit s (Hinv Hb)) as [Hle _].
    split; [| exact Hle].
    apply (wrap32_small _ limit); auto. }
  assert (Hb : forall o, In o opts -> bad_opt strtoul o = false)
    by (intros o; apply existsb_false_in; exact Hbad).
  split.
  { exists s1. split; [exact L1|].
    destruct (last_opt_in _ _ _ L1) as [Hin _].
    destruct (Hok _ s1 CbiUtil.UINT16_MAX Hin (Hb _ Hin)) as [Hw Hle].
    - unfold bad_opt. cbn. intros H.
      destruct (CbiUtil.invalid_number strtoul CbiUtil.UINT16_MAX s1);
        [discriminate H | reflexivity].
    - unfold CbiUtil.UINT16_MAX, CbiUtil.UINT32_MAX. lia.
    - rewrite Hs, Hw. auto. }
  split.
  { exists s2. split; [exact L2|].
    destruct (last_opt_in _ _ _ L2) as [Hin _].
    destruct (Hok _ s2 CbiUtil.UINT32_MAX Hin (Hb _ Hin)) as [Hw Hle].
    - unfold bad_opt. cbn. intros H.
      destruct (CbiUtil.invalid_number strtoul CbiUtil.UINT32_MAX s2);
        [discriminate H | reflexivity].
    - lia.
    - rewrite Hv, Hw. auto. }
  split.
  { exists s3. split; [exact L3|].
    destruct (last_opt_in _ _ _ L3) as [Hin _].
    destruct (Hok _ s3 CbiUtil.UINT32_MAX Hin (Hb _ Hin)) as [Hw Hle].
    - unfold bad_opt. cbn. intros H.
      destruct (CbiUtil.invalid_number strtoul CbiUtil.UINT32_MAX s3);
        [discriminate H | reflexivity].
    - lia.
    - rewrite Ho, Hw. auto. }
  split.
  { exists s4. split; [exact L4|].
    destruct (last_opt_in _ _ _ L4) as [Hin _].
    destruct (Hok _ s4 CbiUtil.UINT32_MAX Hin (Hb _ Hin)) as [Hw Hle].
    - unfold bad_opt. cbn. intros H.
      destruct (CbiUtil.invalid_number strtoul CbiUtil.UINT32_MAX s4);
        [discriminate H | reflexivity].
    - lia.
    - rewrite Hk, Hw. auto. }
  exact He.
Qed.

Lemma decimal_digits_nonneg (s : list Z) (acc : Z) :
  0 <= acc -> 0 <= fst (decimal_digits acc s).
Proof.
  revert acc. induction s as [|c rest IH]; intros acc Hacc; [exact Hacc|].
  cbn [decimal_digits].
  destruct ((48 <=? c) && (c <=? 57)) eqn:E; [| exact Hacc].
  apply andb_true_iff in E. destruct E as [E1 E2].
  apply Z.leb_le in E1. apply IH. lia.
Qed.

Lemma main_create_arguments_witness :
  has_opt CbiUtil.OPT_HELP create_command_line = false
  /\ existsb (bad_opt decimal_strtoul) create_command_line = false
  /\ (exists name,
        last_opt [CbiUtil.OPT_MODE_CREATE; CbiUtil.OPT_MODE_SHOW]
          create_command_line
        = Some (CbiUtil.OPT_MODE_CREATE, name)
        /\ Some [102] = Some name)
  /\ (exists s,
        last_opt [CbiUtil.OPT_SIZE] create_command_line
        = Some (CbiUtil.OPT_SIZE, s)
        /\ 256 = fst (decimal_strtoul s) /\ 256 <= CbiUtil.UINT16_MAX)
  /\ (exists s,
        last_opt [CbiUtil.OPT_BOARD_VERSION] create_command_line
        = Some (CbiUtil.OPT_BOARD_VERSION, s)
        /\ 1 = fst (decimal_strtoul s) /\ 1 <= CbiUtil.UINT32_MAX)
  /\ (exists s,
        last_opt [CbiUtil.OPT_OEM_ID] create_command_line
        = Some (CbiUtil.OPT_OEM_ID, s)
        /\ 2 = fst (decimal_strtoul s) /\ 2 <= CbiUtil.UINT32_MAX)
  /\ (exists s,
        last_opt [CbiUtil.OPT_SKU_ID] create_command_line
        = Some (CbiUtil.OPT_SKU_ID, s)
        /\ 3 = fst (decimal_strtoul s) /\ 3 <= CbiUtil.UINT32_MAX)
  /\ 0xff
     = match last_opt [CbiUtil.OPT_ERASE_BYTE] create_command_line with
       | Some (_, s) => wrap8 (fst (decimal_strtoul s))
       | None => 0xff
       end.
Proof.
  apply (main_create_arguments decimal_strtoul create_command_line
           (Some [102]) 256 0xff
           {| CbiUtil.version := 1; CbiUtil.oem_id := 2;
              CbiUtil.sku_id := 3 |}).
  - intro s. apply decimal_digits_nonneg. lia.
  - vm_compute. reflexivity.
Defined.

(** X13.  [--show] tolerates none of the options of [--create].  If a
    run of [main] ends in the call of [do_show], then no [--help] and no
    malformed option occurred, the last mode option was [--show] and its
    argument is the file name passed on, and none of [--board_version],
    [--oem_id], [--sku_id] and [--size] occurs anywhere on the command
    line: with one of them [set_mask] differs from [required_mask] and
    [main] returns 1, although no required argument is missing.  The
    flag passed on says whether [--all] occurred. *)
Theorem main_show_arguments
    (strtoul : list Z -> Z * list Z) (opts : list (Z * list Z))
    (filename : option (list Z)) (show_all : Z) :
  CbiUtil.main strtoul opts = CbiUtil.Return_do_show filename show_all ->
  has_opt CbiUtil.OPT_HELP opts = false
  /\ existsb (bad_opt strtoul) opts = false
  /\ (exists name,
        last_opt [CbiUtil.OPT_MODE_CREATE; CbiUtil.OPT_MODE_SHOW] opts
        = Some (CbiUtil.OPT_MODE_SHOW, name)
        /\ filename = Some name)
  /\ has_opt CbiUtil.OPT_BOARD_VERSION opts = false
  /\ has_opt CbiUtil.OPT_OEM_ID opts = false
  /\ has_opt CbiUtil.OPT_SKU_ID opts = false
  /\ has_opt CbiUtil.OPT_SIZE opts = false
  /\ show_all = (if has_opt CbiUtil.OPT_SHOW_ALL opts then 1 else 0).
Proof.
  intros Hmain.
  destruct (main_dispatch strtoul opts)
    as [Hh [st [E [Hp [Hm [Hbad [Hd Hmode]]]]]]].
  { intros code H. rewrite Hmain in H. discriminate H. }
  destruct (option_loop_run strtoul opts CbiUtil.main_initial Hh)
    as [st' [E' [_ [Hmask [Hmo [_ [_ [_ [_ [_ Ha]]]]]]]]]].
  rewrite E in E'. injection E' as <-.
  cbn [CbiUtil.main_initial CbiUtil.set_mask CbiUtil.mode
         CbiUtil.cbi_filename CbiUtil.required_mask CbiUtil.show_all]
    in Hmask, Hmo, Ha.
  rewrite Z.lor_0_l, opts_mask_bits in Hmask.
  rewrite Hd in Hmain.
  destruct (CbiUtil.mode st =? CbiUtil.OPT_MODE_CREATE) eqn:Ec;
    [discriminate Hmain|].
  injection Hmain as <- <-.
  destruct Hmode as [Hc | Hs]; [rewrite Hc in Ec; discriminate Ec|].
  split; [exact Hh|]. split; [exact Hbad|].
  destruct (last_opt [CbiUtil.OPT_MODE_CREATE; CbiUtil.OPT_MODE_SHOW] opts)
    as [[i name]|] eqn:El.
  2:{ injection Hmo as Hmo _ _. rewrite Hmo in Hs. discriminate Hs. }
  injection Hmo as Hmo Hname Hreq. rewrite Hmo in Hs. subst i.
  change (CbiUtil.OPT_MODE_SHOW =? CbiUtil.OPT_MODE_CREATE) with false
    in Hreq. cbv iota in Hreq.
  rewrite Hreq in Hm. rewrite Hm in Hmask. symmetry in Hmask.
  apply mask_bits_show in Hmask.
  destruct Hmask as [Hbv [Hoem [Hsku [Hsize _]]]].
  split; [exists name; auto|]. auto.
Qed.

Lemma main_show_arguments_witness :
  has_opt CbiUtil.OPT_HELP show_command_line = false
  /\ existsb (bad_opt decimal_strtoul) show_command_line = false
  /\ (exists name,
        last_opt [CbiUtil.OPT_MODE_CREATE; CbiUtil.OPT_MODE_SHOW]
          show_command_line
        = Some (CbiUtil.OPT_MODE_SHOW, name)
        /\ Some [102] = Some name)
  /\ has_opt CbiUtil.OPT_BOARD_VERSION show_command_line = false
  /\ has_opt CbiUtil.OPT_OEM_ID show_command_line = false
  /\ has_opt CbiUtil.OPT_SKU_ID show_command_line = false
  /\ has_opt CbiUtil.OPT_SIZE show_command_line = false
  /\ 1 = (if has_opt CbiUtil.OPT_SHOW_ALL show_command_line then 1 else 0).
Proof.
  apply (main_show_arguments decimal_strtoul show_command_line
           (Some [102]) 1).
  vm_compute. reflexivity.
Defined.

(** [--show f --size 16] is turned down. *)
Example show_with_size_is_rejected :
  CbiUtil.main decimal_strtoul
    [ (CbiUtil.OPT_MODE_SHOW, [102]); (CbiUtil.OPT_SIZE, [49; 54]) ]
  = CbiUtil.Return 1.
Proof. vm_compute. reflexivity. Qed.

Lemma option_loop_app (strtoul : list Z -> Z * list Z)
    (a b : list (Z * list Z)) (st : CbiUtil.main_locals) :
  CbiUtil.option_loop strtoul (a ++ b) st
  = match CbiUtil.option_loop strtoul a st with
    | inl st' => CbiUtil.option_loop strtoul b st'
    | inr code => inr code
    end.
Proof.
  revert st. induction a as [|[i optarg] a IH]; intros st; [reflexivity|].
  cbn [app CbiUtil.option_loop].
  destruct (CbiUtil.option_case strtoul i optarg st); [apply IH|].
  reflexivity.
Qed.

(** X14.  [--help] ends the run at once.  At the first [--help] on the
    command line [main] returns without looking at anything that
    follows: 0 if every option before it was well formed, and 1 if one
    of them was unknown or had a malformed argument.  Neither [do_create]
    nor [do_show] is called, however complete the command line is. *)
Theorem main_help_returns_at_once
    (strtoul : list Z -> Z * list Z) (before after : list (Z * list Z))
    (optarg : list Z) :
  has_opt CbiUtil.OPT_HELP before = false ->
  CbiUtil.main strtoul (before ++ (CbiUtil.OPT_HELP, optarg) :: after)
  = CbiUtil.Return (if existsb (bad_opt strtoul) before then 1 else 0).
Proof.
  intros Hh. unfold CbiUtil.main. rewrite option_loop_app.
  destruct (option_loop_run strtoul before CbiUtil.main_initial Hh)
    as [st [E [Hp _]]].
  rewrite E. cbn [CbiUtil.option_loop].
  unfold CbiUtil.option_case.
  change (CbiUtil.OPT_HELP =? CbiUtil.OPT_UNKNOWN) with false.
  change (CbiUtil.OPT_HELP =? CbiUtil.OPT_HELP) with true.
  cbv iota. rewrite Hp.
  destruct (existsb (bad_opt strtoul) before); reflexivity.
Qed.

Lemma main_help_returns_at_once_witness :
  CbiUtil.main decimal_strtoul
    ([(CbiUtil.OPT_SIZE, [120])] ++ (CbiUtil.OPT_HELP, [])
       :: create_command_line)
  = CbiUtil.Return
      (if existsb (bad_opt decimal_strtoul) [(CbiUtil.OPT_SIZE, [120])]
       then 1 else 0).
Proof.
  apply (main_help_returns_at_once decimal_strtoul
           [(CbiUtil.OPT_SIZE, [120])] create_command_line []).
  reflexivity.
Defined.

(** ** The width of a field *)

(** X15.  [get_field_size] picks the smallest of the widths 1, 2 and 4
    that holds the value, and nothing is lost by it: for every 32-bit
    value, the value is below [2 ^ (8 * size)], no smaller width among
    the three would do, and the [size] low-order bytes that [do_create]
    hands to [cbi_set_data], read back by the [switch] of [print_integer]
    for that size, give the value again (on a little-endian host). *)
Theorem get_field_size_round_trip (value : Z) :
  0 <= value <= CbiUtil.UINT32_MAX ->
  let size := CbiUtil.get_field_size value in
  (size = 1 \/ size = 2 \/ size = 4)
  /\ value < 2 ^ (8 * size)
  /\ (forall smaller,
        smaller = 1 \/ smaller = 2 \/ smaller = 4 ->
        value < 2 ^ (8 * smaller) -> size <= smaller)
  /\ length (CbiUtil.field_bytes value) = Z.to_nat size
  /\ CbiUtil.print_integer_value size (CbiUtil.field_bytes value)
     = Some value.
Proof.
  intros Hv size. subst size.
  unfold CbiUtil.field_bytes, CbiUtil.get_field_size,
    CbiUtil.UINT8_MAX, CbiUtil.UINT16_MAX, CbiUtil.UINT32_MAX in *.
  destruct (value <=? 255) eqn:E8.
  - apply Z.leb_le in E8.
    split; [auto|]. split; [change (2 ^ (8 * 1)) with 256; lia|].
    split; [intros s [-> | [-> | ->]] _; lia|].
    split; [reflexivity|].
    change (Z.to_nat 1) with 1%nat.
    cbn [CbiUtil.print_integer_value Z.eqb Pos.eqb firstn le_bytes nth].
    unfold wrap8. rewrite Z.mod_small by (change (2 ^ 8) with 256; lia).
    reflexivity.
  - apply Z.leb_gt in E8. destruct (value <=? 65535) eqn:E16.
    + apply Z.leb_le in E16.
      split; [auto|]. split; [change (2 ^ (8 * 2)) with 65536; lia|].
      split.
      { intros s [-> | [-> | ->]] H; lia. }
      split; [reflexivity|].
      change (Z.to_nat 2) with 2%nat.
      cbn [CbiUtil.print_integer_value Z.eqb Pos.eqb firstn le_bytes nth].
      unfold wrap8. rewrite Z.shiftr_div_pow2 by lia.
      change (2 ^ 8) with 256.
      rewrite (Z.mod_small (value / 256)) by
        (split; [apply Z.div_pos; lia | apply Z.div_lt_upper_bound; lia]).
      f_equal. pose proof (Z.div_mod value 256). lia.
    + apply Z.leb_gt in E16.
      split; [auto|]. split; [change (2 ^ (8 * 4)) with 4294967296; lia|].
      split.
      { intros s [-> | [-> | ->]] H; lia. }
      split; [reflexivity|].
      change (Z.to_nat 4) with 4%nat.
      cbn [CbiUtil.print_integer_value Z.eqb Pos.eqb firstn le_bytes].
      unfold le_word. cbn [nth]. unfold wrap8.
      rewrite !Z.shiftr_div_pow2 by lia.
      change (2 ^ 8) with 256. change (2 ^ 16) with 65536.
      change (2 ^ 24) with 16777216.
      f_equal.
      pose proof (Z.div_mod value 256).
      pose proof (Z.div_mod (value / 256) 256).
      pose proof (Z.div_mod (value / 256 / 256) 256).
      rewrite !Z.div_div in * by lia.
      change (256 * 256) with 65536 in *.
      change (65536 * 256) with 16777216 in *.
      assert (value / 16777216 < 256)
        by (apply Z.div_lt_upper_bound; lia).
      assert (0 <= value / 16777216) by (apply Z.div_pos; lia).
      rewrite (Z.mod_small (value / 16777216)) by lia.
      lia.
Qed.

Lemma get_field_size_round_trip_witness :
  (CbiUtil.get_field_size 0x1234 = 1 \/ CbiUtil.get_field_size 0x1234 = 2
   \/ CbiUtil.get_field_size 0x1234 = 4)
  /\ 0x1234 < 2 ^ (8 * CbiUtil.get_field_size 0x1234)
  /\ (forall smaller,
        smaller = 1 \/ smaller = 2 \/ smaller = 4 ->
        0x1234 < 2 ^ (8 * smaller) ->
        CbiUtil.get_field_size 0x1234 <= smaller)
  /\ length (CbiUtil.field_bytes 0x1234)
     = Z.to_nat (CbiUtil.get_field_size 0x1234)
  /\ CbiUtil.print_integer_value (CbiUtil.get_field_size 0x1234)
       (CbiUtil.field_bytes 0x1234)
     = Some 0x1234.
Proof.
  apply (get_field_size_round_trip 0x1234).
  unfold CbiUtil.UINT32_MAX. lia.
Defined.
